(** * auth.js: accounts, sessions, membership and history

    A shallow embedding of [js/auth.js] (registration, login, logout, the
    current-user session, premium membership, purchase and consultation
    history, all kept in [localStorage]) and the properties of it that the
    specification states, followed by further properties of the code: the
    shapes that the validators accept, what logs in after which call, what
    the store keeps, and how purchases, consultations and the session
    behave.

    The first part translates the program; the second part proves facts
    about the translation. *)

From stdpp Require Import gmap strings list fin_maps relations.
From Stdlib Require Import ZArith Ascii Lia.

#[local] Set Warnings "-register-all".
#[local] Open Scope Z_scope.

(** * Part I: the program *)

(** ** JavaScript data *)

(** A JavaScript string is a sequence of UTF-16 code units. *)
Definition jsstring : Type := list Z.

(** The code units of an ASCII literal of the source. *)
Fixpoint js (s : string) : jsstring :=
  match s with
  | EmptyString => []
  | String c s' => Z.of_N (N_of_ascii c) :: js s'
  end.

(** The values that survive [JSON.stringify] and [JSON.parse], which every
    stored value goes through. [undefined] is not among them: a property
    that is absent reads as [None]. Numbers are the integers. *)
Inductive value : Type :=
| VNull
| VBool (b : bool)
| VNum (n : Z)
| VStr (s : jsstring)
| VArr (l : list value)
| VObj (o : gmap string value).

(** A plain object: its own properties by name. *)
Abbreviation obj := (gmap string value).

(** ToBoolean, on what a property read gives. *)
Definition truthy (v : option value) : bool :=
  match v with
  | None | Some VNull => false
  | Some (VBool b) => b
  | Some (VNum n) => negb (n =? 0)
  | Some (VStr s) => match s with [] => false | _ :: _ => true end
  | Some (VArr _) | Some (VObj _) => true
  end.

(** ToBoolean of a string argument that may be [undefined]. *)
Definition truthy_str (s : option jsstring) : bool := truthy (VStr <$> s).

(** [===] between the results of two reads. Primitives compare by type and
    content. Objects and arrays compare by identity, and wherever this
    program compares two values, one side comes out of a fresh [JSON.parse]
    and the other from elsewhere, so that two objects are never the same. *)
Definition strict_eq (v w : option value) : bool :=
  match v, w with
  | None, None => true
  | Some VNull, Some VNull => true
  | Some (VBool a), Some (VBool b) => bool_decide (a = b)
  | Some (VNum a), Some (VNum b) => a =? b
  | Some (VStr a), Some (VStr b) => bool_decide (a = b)
  | _, _ => false
  end.

(** The decimal digits of an integer, as [Number.prototype.toString] prints
    it. *)
Fixpoint digits (fuel : nat) (n : Z) (acc : jsstring) : jsstring :=
  match fuel with
  | O => acc
  | S fuel' =>
      let acc' := 48 + n mod 10 :: acc in
      if n <? 10 then acc' else digits fuel' (n / 10) acc'
  end.

Definition decimal (z : Z) : jsstring :=
  let n := Z.abs z in
  let ds := digits (S (Z.to_nat (Z.log2 n))) n [] in
  if z <? 0 then 45 :: ds else ds.

(** [Array.prototype.join] with the separator [","]. *)
Fixpoint join_comma (parts : list jsstring) : jsstring :=
  match parts with
  | [] => []
  | [p] => p
  | p :: rest => p ++ 44 :: join_comma rest
  end.

(** ToString. A number prints its digits in full, which is how
    [Number::toString] prints an integer below 10^21; the exponent form of
    the larger ones is not followed. An array prints its elements joined
    by commas, a [null] element as the empty string; a plain object prints
    as [[object Object]]. *)
Fixpoint ToString (v : value) : jsstring :=
  match v with
  | VNull => js "null"
  | VBool true => js "true"
  | VBool false => js "false"
  | VNum n => decimal n
  | VStr s => s
  | VArr l =>
      join_comma ((fix elems (l : list value) : list jsstring :=
                     match l with
                     | [] => []
                     | VNull :: l' => [] :: elems l'
                     | x :: l' => ToString x :: elems l'
                     end) l)
  | VObj _ => js "[object Object]"
  end.

(** [Array.prototype.find] and [findIndex]: the first element that
    satisfies the callback; [None] for [undefined] and for [-1]. *)
Definition find {A} (p : A -> bool) (l : list A) : option A :=
  snd <$> list_find (fun x => Is_true (p x)) l.

Definition findIndex {A} (p : A -> bool) (l : list A) : option nat :=
  fst <$> list_find (fun x => Is_true (p x)) l.

(** ** Exceptions *)

Inductive exn : Type :=
| InvalidCharacterError
| TypeError.

(** A call either returns or throws. *)
Inductive outcome (A : Type) : Type :=
| Return (a : A)
| Throw (e : exn).
Arguments Return {A} a.
Arguments Throw {A} e.

#[global] Instance outcome_ret : MRet outcome := fun _ a => Return a.
#[global] Instance outcome_bind : MBind outcome := fun _ _ f m =>
  match m with
  | Return a => f a
  | Throw e => Throw e
  end.

(** ** Platform functions *)

Module Base64.

(** The base64 alphabet: the code unit that stands for the sextet [i]. *)
Definition alphabet (i : Z) : Z :=
  if i <? 26 then 65 + i
  else if i <? 52 then 97 + (i - 26)
  else if i <? 62 then 48 + (i - 52)
  else if i =? 62 then 43
  else 47.

Definition padding : Z := 61.

(** Three octets give four sextets; a last group of one or two octets is
    filled up with [=]. *)
Fixpoint encode (octets : list Z) : jsstring :=
  match octets with
  | [] => []
  | [a] =>
      [alphabet (Z.shiftr a 2); alphabet (Z.shiftl (Z.land a 3) 4);
       padding; padding]
  | [a; b] =>
      [alphabet (Z.shiftr a 2);
       alphabet (Z.lor (Z.shiftl (Z.land a 3) 4) (Z.shiftr b 4));
       alphabet (Z.shiftl (Z.land b 15) 2); padding]
  | a :: b :: c :: rest =>
      alphabet (Z.shiftr a 2)
      :: alphabet (Z.lor (Z.shiftl (Z.land a 3) 4) (Z.shiftr b 4))
      :: alphabet (Z.lor (Z.shiftl (Z.land b 15) 2) (Z.shiftr c 6))
      :: alphabet (Z.land c 63)
      :: encode rest
  end.

End Base64.

(** [btoa] takes each code unit for an octet, and raises
    [InvalidCharacterError] when the string has a code unit above U+00FF. *)
Definition btoa (s : jsstring) : outcome jsstring :=
  if forallb (fun c => c <=? 255) s then Return (Base64.encode s)
  else Throw InvalidCharacterError.

Module Regex.

(** Regular expressions over code units, matched by derivatives. *)
Inductive t : Type :=
| Empty
| Eps
| Class (p : Z -> bool)
| Seq (r s : t)
| Alt (r s : t)
| Star (r : t).

Definition Plus (r : t) : t := Seq r (Star r).
Definition Opt (r : t) : t := Alt r Eps.
Definition Chr (c : Z) : t := Class (fun x => x =? c).

Fixpoint Rep (n : nat) (r : t) : t :=
  match n with
  | O => Eps
  | S n' => Seq r (Rep n' r)
  end.

Fixpoint nullable (r : t) : bool :=
  match r with
  | Empty => false
  | Eps => true
  | Class _ => false
  | Seq r s => nullable r && nullable s
  | Alt r s => nullable r || nullable s
  | Star _ => true
  end.

Fixpoint deriv (c : Z) (r : t) : t :=
  match r with
  | Empty => Empty
  | Eps => Empty
  | Class p => if p c then Eps else Empty
  | Seq r s =>
      if nullable r then Alt (Seq (deriv c r) s) (deriv c s)
      else Seq (deriv c r) s
  | Alt r s => Alt (deriv c r) (deriv c s)
  | Star r => Seq (deriv c r) (Star r)
  end.

(** [/^r$/.test(s)]: the whole of [s] matches [r]. *)
Fixpoint test (r : t) (s : jsstring) : bool :=
  match s with
  | [] => nullable r
  | c :: s' => test (deriv c r) s'
  end.

(** The class [\s]: white space and line terminators. *)
Definition space (c : Z) : bool :=
  ((9 <=? c) && (c <=? 13)) || (c =? 32) || (c =? 160) || (c =? 5760)
  || ((8192 <=? c) && (c <=? 8202)) || (c =? 8232) || (c =? 8233)
  || (c =? 8239) || (c =? 8287) || (c =? 12288) || (c =? 65279).

(** The class [[0-9]]. *)
Definition digit (c : Z) : bool := (48 <=? c) && (c <=? 57).

(** What it is for a string to match an expression: the meaning that the
    matcher [test] computes. *)
Inductive matches : t -> jsstring -> Prop :=
| MEps : matches Eps []
| MClass p c : p c = true -> matches (Class p) [c]
| MSeq r s u v : matches r u -> matches s v -> matches (Seq r s) (u ++ v)
| MAltL r s u : matches r u -> matches (Alt r s) u
| MAltR r s u : matches s u -> matches (Alt r s) u
| MStar0 r : matches (Star r) []
| MStarS r u v : matches r u -> matches (Star r) v -> matches (Star r) (u ++ v).

End Regex.

Module JSDate.

(** Time values are milliseconds since the epoch. The functions are those
    of the ECMAScript specification, under its names. *)
Definition msPerDay : Z := 86400000.
Definition msPerHour : Z := 3600000.
Definition msPerMinute : Z := 60000.
Definition msPerSecond : Z := 1000.

Definition Day (t : Z) : Z := t / msPerDay.
Definition TimeWithinDay (t : Z) : Z := t mod msPerDay.

Definition DaysInYear (y : Z) : Z :=
  if negb (y mod 4 =? 0) then 365
  else if negb (y mod 100 =? 0) then 366
  else if negb (y mod 400 =? 0) then 365
  else 366.

Definition DayFromYear (y : Z) : Z :=
  365 * (y - 1970) + (y - 1969) / 4 - (y - 1901) / 100 + (y - 1601) / 400.

(** The largest [y] with [DayFromYear y <= Day t]: an estimate from the
    mean length of a year, moved by one where it falls on the wrong
    side. *)
Definition YearFromTime (t : Z) : Z :=
  let d := Day t in
  let y := 1970 + d * 400 / 146097 in
  if d <? DayFromYear y then y - 1
  else if DayFromYear (y + 1) <=? d then y + 1
  else y.

Definition InLeapYear (t : Z) : Z :=
  if DaysInYear (YearFromTime t) =? 366 then 1 else 0.

Definition DayWithinYear (t : Z) : Z := Day t - DayFromYear (YearFromTime t).

(** The day of the year on which the month [m] starts. *)
Definition monthStart (leap m : Z) : Z :=
  if m <=? 0 then 0
  else if m =? 1 then 31
  else if m =? 2 then 59 + leap
  else if m =? 3 then 90 + leap
  else if m =? 4 then 120 + leap
  else if m =? 5 then 151 + leap
  else if m =? 6 then 181 + leap
  else if m =? 7 then 212 + leap
  else if m =? 8 then 243 + leap
  else if m =? 9 then 273 + leap
  else if m =? 10 then 304 + leap
  else if m =? 11 then 334 + leap
  else 365 + leap.

(** The month in which the day [d] of the year falls. *)
Definition monthOfDay (leap d : Z) : Z :=
  if d <? 31 then 0
  else if d <? 59 + leap then 1
  else if d <? 90 + leap then 2
  else if d <? 120 + leap then 3
  else if d <? 151 + leap then 4
  else if d <? 181 + leap then 5
  else if d <? 212 + leap then 6
  else if d <? 243 + leap then 7
  else if d <? 273 + leap then 8
  else if d <? 304 + leap then 9
  else if d <? 334 + leap then 10
  else 11.

Definition MonthFromTime (t : Z) : Z :=
  monthOfDay (InLeapYear t) (DayWithinYear t).

Definition DateFromTime (t : Z) : Z :=
  DayWithinYear t - monthStart (InLeapYear t) (MonthFromTime t) + 1.

Definition HourFromTime (t : Z) : Z := (t / msPerHour) mod 24.
Definition MinFromTime (t : Z) : Z := (t / msPerMinute) mod 60.
Definition SecFromTime (t : Z) : Z := (t / msPerSecond) mod 60.
Definition msFromTime (t : Z) : Z := t mod msPerSecond.

Definition MakeTime (hour min sec ms : Z) : Z :=
  hour * msPerHour + min * msPerMinute + sec * msPerSecond + ms.

(** A month beyond December carries into the year, and a date beyond the
    end of the month runs on into the next one. *)
Definition MakeDay (year month date : Z) : Z :=
  let ym := year + month / 12 in
  let mn := month mod 12 in
  let leap := if DaysInYear ym =? 366 then 1 else 0 in
  DayFromYear ym + monthStart leap mn + date - 1.

Definition MakeDate (day time : Z) : Z := day * msPerDay + time.

(** The time values a [Date] can hold. *)
Definition valid_time (t : Z) : Prop :=
  - 8640000000000000 <= t <= 8640000000000000.

Definition TimeClip (t : Z) : option Z :=
  if (- 8640000000000000 <=? t) && (t <=? 8640000000000000) then Some t
  else None.

(** The low [k] decimal digits of [n]. *)
Fixpoint pad (k : nat) (n : Z) : jsstring :=
  match k with
  | O => []
  | S k' => 48 + (n / 10 ^ Z.of_nat k') mod 10 :: pad k' n
  end.

Definition year_digits (y : Z) : jsstring :=
  if (0 <=? y) && (y <=? 9999) then pad 4 y
  else (if y <? 0 then 45 else 43) :: pad 6 (Z.abs y).

(** [Date.prototype.toISOString]: [YYYY-MM-DDTHH:mm:ss.sssZ], the year
    with a sign and six digits outside 0..9999. *)
Definition toISOString (t : Z) : jsstring :=
  year_digits (YearFromTime t)
  ++ [45] ++ pad 2 (MonthFromTime t + 1)
  ++ [45] ++ pad 2 (DateFromTime t)
  ++ [84] ++ pad 2 (HourFromTime t)
  ++ [58] ++ pad 2 (MinFromTime t)
  ++ [58] ++ pad 2 (SecFromTime t)
  ++ [46] ++ pad 3 (msFromTime t)
  ++ [90].

Fixpoint take_digits (k : nat) (acc : Z) (s : jsstring) : option (Z * jsstring) :=
  match k with
  | O => Some (acc, s)
  | S k' =>
      match s with
      | c :: s' =>
          if (48 <=? c) && (c <=? 57) then take_digits k' (acc * 10 + (c - 48)) s'
          else None
      | [] => None
      end
  end.

Definition expect (c : Z) (s : jsstring) : option jsstring :=
  match s with
  | c' :: s' => if c' =? c then Some s' else None
  | [] => None
  end.

Definition take_year (s : jsstring) : option (Z * jsstring) :=
  match s with
  | c :: s' =>
      if c =? 43 then take_digits 6 0 s'
      else if c =? 45 then
        '(y, r) ← take_digits 6 0 s';
        if y =? 0 then None else Some (- y, r)
      else take_digits 4 0 s
  | [] => None
  end.

(** [Date.parse] on the date-time format of ECMAScript in its complete
    form with the [Z] suffix, which is what [toISOString] writes, and so
    the form of every date that the program stores. The shorter forms of
    the format (a date alone, a time without milliseconds, a local time)
    and the strings that an engine reads by rules of its own are not
    followed: such a string reads as an invalid date here ([None]), and
    what is proved below of a date that is read back is proved of the
    dates that [toISOString] has written. *)
Definition parse (s : jsstring) : option Z :=
  '(y, s) ← take_year s;
  s ← expect 45 s;
  '(mo, s) ← take_digits 2 0 s;
  s ← expect 45 s;
  '(d, s) ← take_digits 2 0 s;
  s ← expect 84 s;
  '(h, s) ← take_digits 2 0 s;
  s ← expect 58 s;
  '(mi, s) ← take_digits 2 0 s;
  s ← expect 58 s;
  '(sec, s) ← take_digits 2 0 s;
  s ← expect 46 s;
  '(ms, s) ← take_digits 3 0 s;
  s ← expect 90 s;
  match s with
  | [] =>
      if (1 <=? mo) && (mo <=? 12) && (1 <=? d) && (d <=? 31)
         && (h <=? 23) && (mi <=? 59) && (sec <=? 59)
      then TimeClip (MakeDate (MakeDay y (mo - 1) d) (MakeTime h mi sec ms))
      else None
  | _ :: _ => None
  end.

(** [new Date(v)] for what a property read gives; [None] is the invalid
    date. A string is parsed, an array or object through its ToString;
    anything else is taken as a number of milliseconds. *)
Definition construct (v : option value) : option Z :=
  match v with
  | None => None
  | Some VNull => Some 0
  | Some (VBool b) => Some (if b then 1 else 0)
  | Some (VNum n) => TimeClip n
  | Some (VStr s) => parse s
  | Some (VArr l) => parse (ToString (VArr l))
  | Some (VObj o) => parse (ToString (VObj o))
  end.

Section LocalTime.

(** The offset of local time from UTC, in milliseconds. It is the
    time zone's to give, and with daylight saving it is not the same at
    all times: [LocalTZA t true] is the offset at the time value [t],
    and [LocalTZA t false] the offset at the local time [t]. *)
Variable LocalTZA : Z -> bool -> Z.

Definition LocalTime (t : Z) : Z := t + LocalTZA t true.
Definition UTC (t : Z) : Z := t - LocalTZA t false.

Definition getMonth (t : Z) : Z := MonthFromTime (LocalTime t).

(** [Date.prototype.setMonth(month)]: the month of the local date is
    replaced, its year, day of the month and time of day kept, and the
    local time that results is taken back to UTC with the offset that
    holds there. *)
Definition setMonth (t month : Z) : Z :=
  let lt := LocalTime t in
  UTC (MakeDate (MakeDay (YearFromTime lt) month (DateFromTime lt))
         (TimeWithinDay lt)).

(** [Date.prototype.toDateString] writes the weekday, month, day and
    year of the local date, or [Invalid Date]. Two of these strings are
    equal exactly when both dates are invalid or both fall on the same
    local day, and the program only compares them: the embedding keeps
    the number of the local day in place of its rendering. *)
Definition toDateString (d : option Z) : option Z :=
  (fun t => Day (LocalTime t)) <$> d.

End LocalTime.

(** No time zone is a day or more away from UTC. *)
Definition offsets_within_a_day (LocalTZA : Z -> bool -> Z) : Prop :=
  forall t isUTC, - msPerDay < LocalTZA t isUTC < msPerDay.

End JSDate.

(** ** auth.js *)

Import JSDate.

(** [localStorage], as far as the program uses it: what is stored under
    each of its two keys, decoded. The list of users is kept as JSON, and
    on the values above [JSON.parse] gives back what [JSON.stringify] was
    given; a key that was never written reads as no users, or as nobody
    logged in. *)
Record localStorage : Type := {
  USER_STORAGE_KEY : list obj;
  CURRENT_USER_KEY : option obj
}.

(** The messages of the program, one constructor for each literal. *)
Inductive message : Type :=
| MsgRequiredFields    (* 필수 정보를 모두 입력해주세요. *)
| MsgInvalidEmail      (* 올바른 이메일 형식이 아닙니다. *)
| MsgShortPassword     (* 비밀번호는 최소 8자 이상이어야 합니다. *)
| MsgInvalidPhone      (* 올바른 전화번호 형식이 아닙니다. (예: 010-1234-5678) *)
| MsgEmailTaken        (* 이미 가입된 이메일입니다. *)
| MsgRegistered        (* 회원가입이 완료되었습니다! *)
| MsgLoginMissing      (* 이메일과 비밀번호를 입력해주세요. *)
| MsgUnknownEmail      (* 가입되지 않은 이메일입니다. *)
| MsgWrongPassword     (* 비밀번호가 올바르지 않습니다. *)
| MsgLoggedIn          (* 로그인 되었습니다! *)
| MsgLoggedOut         (* 로그아웃 되었습니다. *)
| MsgUserNotFound      (* 사용자를 찾을 수 없습니다. *)
| MsgEmailInUse        (* 이미 사용중인 이메일입니다. *)
| MsgUpdated           (* 정보가 업데이트되었습니다. *)
| MsgTempPasswordSent. (* 임시 비밀번호가 이메일로 전송되었습니다. *)

(** What a result object carries besides [success] and [message]. *)
Inductive payload : Type :=
| NoPayload
| User (user : obj)
| Purchase (purchase : obj)
| Consultation (consultation : obj)
| TempPassword (tempPassword : jsstring).

(** A result object: [{ success: false, message }], or [{ success: true }]
    with its message, if it has one, and its payload. *)
Inductive result : Type :=
| Failure (m : message)
| Success (m : option message) (p : payload).

(** The argument of [register]: the fields it reads, each a string or
    [undefined]. *)
Module UserData.
Record t : Type := {
  email : option jsstring;
  password : option jsstring;
  name : option jsstring;
  phone : option jsstring;
  birthDate : option jsstring;
  birthTime : option jsstring;
  gender : option jsstring;
  calendarType : option jsstring
}.
End UserData.

Definition getUsers (st : localStorage) : list obj := USER_STORAGE_KEY st.

Definition saveUser (user : obj) (st : localStorage) : localStorage :=
  let users := getUsers st in
  let users :=
    match findIndex (fun u => strict_eq (u !! "id") (user !! "id")) users with
    | Some existingIndex => <[existingIndex := user]> users
    | None => users ++ [user]
    end in
  {| USER_STORAGE_KEY := users; CURRENT_USER_KEY := CURRENT_USER_KEY st |}.

(** [now] is what the clock reads, [rnd] the digits drawn from
    [Math.random]. The clock reads a time value, and one early enough for
    the dates that the program computes from it, a year on at most, to be
    time values as well (the last time value is in the year 275760): for
    such a clock [toISOString] does not raise [RangeError]. *)
Definition generateUserId (now : Z) (rnd : jsstring) : jsstring :=
  js "user_" ++ decimal now ++ js "_" ++ rnd.

Definition hashPassword (password : jsstring) : outcome jsstring :=
  btoa (password ++ js "saju2026_salt").

Definition verifyPassword (inputPassword : jsstring) (hashedPassword : option value)
  : outcome bool :=
  h ← hashPassword inputPassword;
  mret (strict_eq (Some (VStr h)) hashedPassword).

(** [/^[^\s@]+@[^\s@]+\.[^\s@]+$/] *)
Definition emailRegex : Regex.t :=
  let part := Regex.Plus (Regex.Class (fun c => negb (Regex.space c || (c =? 64)))) in
  Regex.Seq part (Regex.Seq (Regex.Chr 64)
    (Regex.Seq part (Regex.Seq (Regex.Chr 46) part))).

Definition isValidEmail (email : jsstring) : bool := Regex.test emailRegex email.

Definition isValidPassword (password : jsstring) : bool :=
  8 <=? Z.of_nat (length password).

(** [/^01[0-9]-?[0-9]{4}-?[0-9]{4}$/] *)
Definition phoneRegex : Regex.t :=
  let d := Regex.Class Regex.digit in
  Regex.Seq (Regex.Chr 48) (Regex.Seq (Regex.Chr 49) (Regex.Seq d
    (Regex.Seq (Regex.Opt (Regex.Chr 45)) (Regex.Seq (Regex.Rep 4 d)
      (Regex.Seq (Regex.Opt (Regex.Chr 45)) (Regex.Rep 4 d)))))).

Definition isValidPhone (phone : jsstring) : bool := Regex.test phoneRegex phone.

Definition sanitizeUser (user : obj) : obj := delete "password" user.

Definition setCurrentUser (user : obj) (st : localStorage) : localStorage :=
  let sanitized := sanitizeUser user in
  {| USER_STORAGE_KEY := USER_STORAGE_KEY st; CURRENT_USER_KEY := Some sanitized |}.

Definition getCurrentUser (st : localStorage) : option obj := CURRENT_USER_KEY st.

Definition isLoggedIn (st : localStorage) : bool :=
  match getCurrentUser st with
  | Some _ => true
  | None => false
  end.

(** [s || null] and [s || d] for a string argument that may be
    [undefined]. *)
Definition or_null (s : option jsstring) : value :=
  match s with
  | Some (c :: s') => VStr (c :: s')
  | _ => VNull
  end.

Definition or_default (s : option jsstring) (d : jsstring) : value :=
  match s with
  | Some (c :: s') => VStr (c :: s')
  | _ => VStr d
  end.

Definition register (userData : UserData.t) (now : Z) (rnd : jsstring)
    (st : localStorage) : outcome (result * localStorage) :=
  match UserData.email userData, UserData.password userData, UserData.name userData with
  | Some (e :: email'), Some (p :: password'), Some (n :: name') =>
      let email := e :: email' in
      let password := p :: password' in
      let name := n :: name' in
      let phone := UserData.phone userData in
      if negb (isValidEmail email) then
        mret (Failure MsgInvalidEmail, st)
      else if negb (isValidPassword password) then
        mret (Failure MsgShortPassword, st)
      else if match phone with
              | Some (c :: phone') => negb (isValidPhone (c :: phone'))
              | _ => false
              end then
        mret (Failure MsgInvalidPhone, st)
      else
        let users := getUsers st in
        match find (fun u => strict_eq (u !! "email") (Some (VStr email))) users with
        | Some _ => mret (Failure MsgEmailTaken, st)
        | None =>
            hashed ← hashPassword password;
            let newUser : obj := list_to_map [
              ("id", VStr (generateUserId now rnd));
              ("email", VStr email);
              ("password", VStr hashed);
              ("name", VStr name);
              ("phone", or_null phone);
              ("birthDate", or_null (UserData.birthDate userData));
              ("birthTime", or_null (UserData.birthTime userData));
              ("gender", or_null (UserData.gender userData));
              ("calendarType", or_default (UserData.calendarType userData) (js "solar"));
              ("membershipType", VStr (js "free"));
              ("premiumExpiry", VNull);
              ("createdAt", VStr (toISOString now));
              ("lastLogin", VStr (toISOString now));
              ("sajuData", VNull);
              ("purchaseHistory", VArr []);
              ("consultationHistory", VArr [])
            ] in
            let st := saveUser newUser st in
            mret (Success (Some MsgRegistered) (User (sanitizeUser newUser)), st)
        end
  | _, _, _ => mret (Failure MsgRequiredFields, st)
  end.

Definition login (email password : jsstring) (now : Z) (st : localStorage)
  : outcome (result * localStorage) :=
  if negb (truthy (Some (VStr email))) || negb (truthy (Some (VStr password))) then
    mret (Failure MsgLoginMissing, st)
  else
    let users := getUsers st in
    match find (fun u => strict_eq (u !! "email") (Some (VStr email))) users with
    | None => mret (Failure MsgUnknownEmail, st)
    | Some user =>
        ok ← verifyPassword password (user !! "password");
        if negb ok then mret (Failure MsgWrongPassword, st)
        else
          let user := <["lastLogin" := VStr (toISOString now)]> user in
          let st := saveUser user st in
          let st := setCurrentUser user st in
          mret (Success (Some MsgLoggedIn) (User (sanitizeUser user)), st)
    end.

Definition logout (st : localStorage) : result * localStorage :=
  (Success (Some MsgLoggedOut) NoPayload,
   {| USER_STORAGE_KEY := USER_STORAGE_KEY st; CURRENT_USER_KEY := None |}).

Definition isPremiumUser (now : Z) (st : localStorage) : bool :=
  match getCurrentUser st with
  | None => false
  | Some user =>
      if strict_eq (user !! "membershipType") (Some (VStr (js "premium"))) then
        if negb (truthy (user !! "premiumExpiry")) then true
        else
          match construct (user !! "premiumExpiry") with
          | Some expiry => now <? expiry
          | None => false
          end
      else false
  end.

(** [if (updates.password) updates.password = hashPassword(updates.password)]:
    the patch with its password, if it has one that is truthy, replaced by
    the verifier. [password + 'saju2026_salt'] turns a password that is not
    a string into one. *)
Definition hashed_updates (updates : obj) : outcome obj :=
  match updates !! "password" with
  | Some p =>
      if truthy (Some p) then
        hashed ← hashPassword (ToString p);
        mret (<["password" := VStr hashed]> updates)
      else mret updates
  | None => mret updates
  end.

Definition updateUser (userId : jsstring) (updates : obj) (st : localStorage)
  : outcome (result * localStorage) :=
  let users := getUsers st in
  match find (fun u => strict_eq (u !! "id") (Some (VStr userId))) users with
  | None => mret (Failure MsgUserNotFound, st)
  | Some user =>
      updates ← hashed_updates updates;
      if truthy (updates !! "email")
         && negb (strict_eq (updates !! "email") (user !! "email"))
         && bool_decide (is_Some (find (fun u =>
              strict_eq (u !! "email") (updates !! "email")
              && negb (strict_eq (u !! "id") (Some (VStr userId)))) users))
      then mret (Failure MsgEmailInUse, st)
      else
        (* Object.assign(user, updates) *)
        let user := updates ∪ user in
        let st := saveUser user st in
        let st :=
          match getCurrentUser st with
          | Some currentUser =>
              if strict_eq (currentUser !! "id") (Some (VStr userId))
              then setCurrentUser user st
              else st
          | None => st
          end in
        mret (Success (Some MsgUpdated) (User (sanitizeUser user)), st)
  end.

Definition saveSajuData (userId : jsstring) (sajuData : value) (now : Z)
    (st : localStorage) : result * localStorage :=
  let users := getUsers st in
  match find (fun u => strict_eq (u !! "id") (Some (VStr userId))) users with
  | Some user =>
      let user := <["sajuData" := sajuData]> user in
      let user := <["sajuCalculatedAt" := VStr (toISOString now)]> user in
      let st := saveUser user st in
      let st :=
        match getCurrentUser st with
        | Some currentUser =>
            if strict_eq (currentUser !! "id") (Some (VStr userId))
            then setCurrentUser user st
            else st
        | None => st
        end in
      (Success None NoPayload, st)
  | None => (Failure MsgUserNotFound, st)
  end.

(** The history a record is put in front of: a history that is missing or
    falsy is replaced by the empty one, and [unshift] on what is not an
    array raises [TypeError]. *)
Definition history (v : option value) : outcome (list value) :=
  if negb (truthy v) then mret []
  else
    match v with
    | Some (VArr l) => mret l
    | _ => Throw TypeError
    end.

(** [{ id: prefix + Date.now(), ...input, date: new Date().toISOString() }]:
    the properties are written from left to right, a later one replacing an
    earlier one of the same name. *)
Definition record (prefix : jsstring) (input : obj) (now : Z) : obj :=
  <["date" := VStr (toISOString now)]>
    (input ∪ {["id" := VStr (prefix ++ decimal now)]}).

Section LocalTime.

Variable LocalTZA : Z -> bool -> Z.

Definition addPurchaseHistory (userId : jsstring) (purchase : obj) (now : Z)
    (st : localStorage) : outcome (result * localStorage) :=
  let users := getUsers st in
  match find (fun u => strict_eq (u !! "id") (Some (VStr userId))) users with
  | Some user =>
      purchaseHistory ← history (user !! "purchaseHistory");
      let purchaseRecord := record (js "purchase_") purchase now in
      let user :=
        <["purchaseHistory" := VArr (VObj purchaseRecord :: purchaseHistory)]> user in
      let st := saveUser user st in
      let monthly := strict_eq (purchase !! "type") (Some (VStr (js "premium_monthly"))) in
      let yearly := strict_eq (purchase !! "type") (Some (VStr (js "premium_yearly"))) in
      st ←
        (if monthly || yearly then
           let expiryDate :=
             setMonth LocalTZA now (getMonth LocalTZA now + (if yearly then 12 else 1)) in
           '(_, st) ← updateUser userId (list_to_map [
               ("membershipType", VStr (js "premium"));
               ("premiumExpiry", VStr (toISOString expiryDate))
             ]) st;
           mret st
         else mret st);
      mret (Success None (Purchase purchaseRecord), st)
  | None => mret (Failure MsgUserNotFound, st)
  end.

Definition addConsultationHistory (userId : jsstring) (consultation : obj) (now : Z)
    (st : localStorage) : outcome (result * localStorage) :=
  let users := getUsers st in
  match find (fun u => strict_eq (u !! "id") (Some (VStr userId))) users with
  | Some user =>
      consultationHistory ← history (user !! "consultationHistory");
      let consultationRecord := record (js "consult_") consultation now in
      let user :=
        <["consultationHistory" :=
            VArr (VObj consultationRecord :: consultationHistory)]> user in
      let st := saveUser user st in
      mret (Success None (Consultation consultationRecord), st)
  | None => mret (Failure MsgUserNotFound, st)
  end.

(** [c.date]: a property read on [null] raises [TypeError]; a primitive
    or an array has no [date]. *)
Definition date_of (c : value) : outcome (option value) :=
  match c with
  | VObj o => mret (o !! "date")
  | VNull => Throw TypeError
  | _ => mret None
  end.

(** The length of [history.filter(c => new Date(c.date).toDateString()
    === today)]. *)
Fixpoint count_today (today : option Z) (l : list value) : outcome nat :=
  match l with
  | [] => mret O
  | c :: l' =>
      d ← date_of c;
      n ← count_today today l';
      mret (if bool_decide (toDateString LocalTZA (construct d) = today)
            then S n else n)
  end.

Definition getTodayConsultationCount (userId : jsstring) (now : Z)
    (st : localStorage) : outcome nat :=
  let users := getUsers st in
  match find (fun u => strict_eq (u !! "id") (Some (VStr userId))) users with
  | None => mret O
  | Some user =>
      if negb (truthy (user !! "consultationHistory")) then mret O
      else
        let today := toDateString LocalTZA (Some now) in
        match user !! "consultationHistory" with
        | Some (VArr l) => count_today today l
        | _ => Throw TypeError
        end
  end.

End LocalTime.

Definition resetPassword (email : jsstring) (rnd : jsstring) (st : localStorage)
  : outcome (result * localStorage) :=
  let users := getUsers st in
  match find (fun u => strict_eq (u !! "email") (Some (VStr email))) users with
  | None => mret (Failure MsgUnknownEmail, st)
  | Some user =>
      let tempPassword := js "temp" ++ rnd in
      hashed ← hashPassword tempPassword;
      let user := <["password" := VStr hashed]> user in
      let st := saveUser user st in
      mret (Success (Some MsgTempPasswordSent) (TempPassword tempPassword), st)
  end.

(** 홍길동, 자시(子時, 23:30-01:29) *)
Definition demo_name : jsstring := [54861; 44600; 46041].
Definition demo_birthTime : jsstring :=
  [51088; 49884; 40; 23376; 26178; 44; 32] ++ js "23:30-01:29)".

Definition initializeUsers (now : Z) (rnd : jsstring) (st : localStorage)
  : outcome localStorage :=
  let users := getUsers st in
  match users with
  | [] =>
      hashed ← hashPassword (js "demo1234");
      let demoUser : obj := list_to_map [
        ("id", VStr (generateUserId now rnd));
        ("email", VStr (js "demo@saju2026.com"));
        ("password", VStr hashed);
        ("name", VStr demo_name);
        ("phone", VStr (js "010-1234-5678"));
        ("birthDate", VStr (js "1990-05-15"));
        ("birthTime", VStr demo_birthTime);
        ("gender", VStr (js "male"));
        ("calendarType", VStr (js "lunar"));
        ("membershipType", VStr (js "free"));
        ("premiumExpiry", VNull);
        ("createdAt", VStr (toISOString now));
        ("lastLogin", VStr (toISOString now));
        ("sajuData", VNull);
        ("purchaseHistory", VArr []);
        ("consultationHistory", VArr [])
      ] in
      mret (saveUser demoUser st)
  | _ :: _ => mret st
  end.

(** ** Sequences of calls *)

(** The calls a page makes, with their arguments and with what the clock
    and [Math.random] give during the call. *)
Inductive call : Type :=
| InitializeUsers (now : Z) (rnd : jsstring)
| Register (userData : UserData.t) (now : Z) (rnd : jsstring)
| Login (email password : jsstring) (now : Z)
| Logout
| SetCurrentUser (user : obj)
| UpdateUser (userId : jsstring) (updates : obj)
| SaveSajuData (userId : jsstring) (sajuData : value) (now : Z)
| AddPurchaseHistory (userId : jsstring) (purchase : obj) (now : Z)
| AddConsultationHistory (userId : jsstring) (consultation : obj) (now : Z)
| ResetPassword (email : jsstring) (rnd : jsstring).

(** The store a call leaves behind. Every exception of the program is
    raised before the call has written anything, so that a call that throws
    leaves the store as it found it. *)
Definition stored {A} (o : outcome (A * localStorage)) (st : localStorage)
  : localStorage :=
  match o with
  | Return (_, st') => st'
  | Throw _ => st
  end.

Definition exec (LocalTZA : Z -> bool -> Z) (c : call) (st : localStorage) : localStorage :=
  match c with
  | InitializeUsers now rnd =>
      match initializeUsers now rnd st with
      | Return st' => st'
      | Throw _ => st
      end
  | Register userData now rnd => stored (register userData now rnd st) st
  | Login email password now => stored (login email password now st) st
  | Logout => snd (logout st)
  | SetCurrentUser user => setCurrentUser user st
  | UpdateUser userId updates => stored (updateUser userId updates st) st
  | SaveSajuData userId sajuData now => snd (saveSajuData userId sajuData now st)
  | AddPurchaseHistory userId purchase now =>
      stored (addPurchaseHistory LocalTZA userId purchase now st) st
  | AddConsultationHistory userId consultation now =>
      stored (addConsultationHistory userId consultation now st) st
  | ResetPassword email rnd => stored (resetPassword email rnd st) st
  end.

(** A browser that has not run the program yet. *)
Definition fresh : localStorage :=
  {| USER_STORAGE_KEY := []; CURRENT_USER_KEY := None |}.

Definition run (LocalTZA : Z -> bool -> Z) (calls : list call) : localStorage :=
  foldl (fun st c => exec LocalTZA c st) fresh calls.

(** ** Properties of the store *)

(** No two stored accounts have the same [id], or the same [email]. *)
Definition unique (key : string) (users : list obj) : Prop :=
  forall i j (u v : obj),
    users !! i = Some u -> users !! j = Some v ->
    u !! key = v !! key -> i = j.

(** The same as the program sees it when it looks an account up: no two
    stored accounts have ids, or emails, that [===] takes for the
    same. *)
Definition distinct (key : string) (users : list obj) : Prop :=
  forall i j (u v : obj),
    users !! i = Some u -> users !! j = Some v ->
    strict_eq (u !! key) (v !! key) = true -> i = j.

(** What [===] compares by type and content: everything that a read
    gives but an array or an object. *)
Definition primitive (v : option value) : Prop :=
  match v with
  | Some (VArr _) | Some (VObj _) => False
  | _ => True
  end.

(** Every code unit is one that [btoa] takes. *)
Definition Latin1 (s : jsstring) : Prop := Forall (fun c => 0 <= c <= 255) s.

(** The user a result object carries, if any. *)
Definition user_of (r : result) : option obj :=
  match r with
  | Success _ (User u) => Some u
  | _ => None
  end.

(** The current user is a redacted account, if there is one. *)
Definition redacted (st : localStorage) : Prop :=
  forall u, getCurrentUser st = Some u -> u !! "password" = None.

(** [u] is [account] without its password: it has no [password], and
    every other property as [account] has it, or has it not. *)
Definition redaction_of (account u : obj) : Prop :=
  u !! "password" = None
  /\ forall key : string, key <> "password" -> u !! key = account !! key.

(** The user in a result is a stored account without its password. *)
Definition redacted_view (u : obj) (st : localStorage) : Prop :=
  exists account, account ∈ getUsers st /\ redaction_of account u.

(** What a call does to the current user: nothing, or it logs out, or it
    publishes a sanitized account. *)
Definition publishes (st st' : localStorage) : Prop :=
  CURRENT_USER_KEY st' = CURRENT_USER_KEY st
  \/ CURRENT_USER_KEY st' = None
  \/ exists user, CURRENT_USER_KEY st' = Some (sanitizeUser user).

(** The stored accounts are well formed: each has a string for its id, no
    two have the same id, and no two have the same email. *)
Definition string_ids (users : list obj) : Prop :=
  forall i (u : obj), users !! i = Some u -> exists s, u !! "id" = Some (VStr s).

Definition well_formed (users : list obj) : Prop :=
  string_ids users /\ distinct "id" users /\ distinct "email" users.

(** The calls that leave the identity of an account alone: every call but
    an [updateUser] whose patch has an [id] other than that of the account
    it names, or an [email] that is falsy. *)
Definition keeps_identity (c : call) : Prop :=
  match c with
  | UpdateUser userId updates =>
      (updates !! "id" = None \/ updates !! "id" = Some (VStr userId))
      /\ (updates !! "email" = None \/ truthy (updates !! "email") = true)
  | _ => True
  end.



(** Some stored account has the string [email] for its email. *)
Definition email_held (email : jsstring) (users : list obj) : bool :=
  existsb (fun u : obj =>
             match u !! "email" with
             | Some (VStr s) => bool_decide (s = email)
             | _ => false
             end) users.

(** The conditions of [register] that an input violates, in the order in
    which the specification lists them: required fields, email shape,
    secret length, phone shape (only for a phone that is given), email
    uniqueness. This definition follows the specification, not the code;
    an absent field is taken as the empty string. *)
Definition spec_register_violations (userData : UserData.t) (st : localStorage)
  : list message :=
  let email := default [] (UserData.email userData) in
  let password := default [] (UserData.password userData) in
  let name := default [] (UserData.name userData) in
  (if bool_decide (email = [] \/ password = [] \/ name = [])
   then [MsgRequiredFields] else [])
  ++ (if isValidEmail email then [] else [MsgInvalidEmail])
  ++ (if bool_decide (8 <= Z.of_nat (length password))
      then [] else [MsgShortPassword])
  ++ (match UserData.phone userData with
      | Some (c :: phone) =>
          if isValidPhone (c :: phone) then [] else [MsgInvalidPhone]
      | _ => []
      end)
  ++ (if email_held email (getUsers st) then [MsgEmailTaken] else []).

(** The patch that [addPurchaseHistory] applies for a premium purchase. *)
Definition premium_patch (expiryDate : Z) : obj :=
  list_to_map [
    ("membershipType", VStr (js "premium"));
    ("premiumExpiry", VStr (toISOString expiryDate))
  ].

(** A record as the ledger dates it: an object whose [date] is the
    rendering of a time value. *)
Definition dated (c : value) (t : Z) : Prop :=
  exists o, c = VObj o /\ o !! "date" = Some (VStr (toISOString t)) /\ valid_time t.

(** The times that fall on the local day of [now]. *)
Definition same_day (LocalTZA : Z -> bool -> Z) (now : Z) (ts : list Z) : list Z :=
  filter (fun t => Day (LocalTime LocalTZA t) = Day (LocalTime LocalTZA now)) ts.

(** Every element is a UTF-16 code unit: the strings of the program. *)
Definition code_units (s : jsstring) : Prop := Forall (fun c => 0 <= c <= 65535) s.

(** The bit operations of [Base64.encode] on the octets [a] and [b] give
    the quotients and remainders they stand for. *)
Definition sextets_ok (a b : Z) : bool :=
  (Z.shiftr a 2 =? a / 4)
  && (Z.lor (Z.shiftl (Z.land a 3) 4) (Z.shiftr b 4) =? a mod 4 * 16 + b / 16)
  && (Z.lor (Z.shiftl (Z.land a 15) 2) (Z.shiftr b 6) =? a mod 16 * 4 + b / 64)
  && (Z.shiftl (Z.land a 3) 4 =? a mod 4 * 16)
  && (Z.shiftl (Z.land a 15) 2 =? a mod 16 * 4)
  && (Z.land a 63 =? a mod 64).

(** The ids of the stored accounts, in the order of the accounts. *)
Definition ids (st : localStorage) : list (option value) :=
  (fun u : obj => u !! "id") <$> getUsers st.

(** What a call does to the list of ids: nothing, or it adds one at the
    end. *)
Definition adds_at_most_one (st st' : localStorage) : Prop :=
  ids st' = ids st \/ exists v, ids st' = ids st ++ [v].

(** The password of an account, when it is truthy, is something that
    [hashPassword] has returned. *)
Definition encoded (u : obj) : Prop :=
  truthy (u !! "password") = true ->
  exists s h, hashPassword s = Return h /\ u !! "password" = Some (VStr h).

(** The number of months that a purchase adds to the membership: 12 for
    [premium_yearly], 1 for [premium_monthly], none for any other type. *)
Definition premium_months (purchase : obj) : option Z :=
  if strict_eq (purchase !! "type") (Some (VStr (js "premium_yearly"))) then Some 12
  else if strict_eq (purchase !! "type") (Some (VStr (js "premium_monthly"))) then Some 1
  else None.

(** The store once [updateUser] or [saveSajuData] has saved [user] under
    [userId]: a current user of this id is replaced by the account. *)
Definition republished (userId : jsstring) (user : obj) (st : localStorage)
  : localStorage :=
  match getCurrentUser st with
  | Some currentUser =>
      if strict_eq (currentUser !! "id") (Some (VStr userId))
      then setCurrentUser user (saveUser user st)
      else saveUser user st
  | None => saveUser user st
  end.

(** The conditions under which [register] accepts an email, a password, a
    name and a phone. *)
Definition acceptable (email password name : jsstring) (phone : option jsstring)
    (st : localStorage) : Prop :=
  email <> [] /\ password <> [] /\ name <> []
  /\ isValidEmail email = true
  /\ (8 <= length password)%nat
  /\ match phone with
     | Some (c :: phone') => isValidPhone (c :: phone') = true
     | _ => True
     end
  /\ find (fun u : obj => strict_eq (u !! "email") (Some (VStr email))) (getUsers st) = None.


(** ** Examples *)

(** Alice and Bob. *)
Definition alice : UserData.t := {|
  UserData.email := Some (js "alice@example.com");
  UserData.password := Some (js "longenough");
  UserData.name := Some (js "Alice");
  UserData.phone := None;
  UserData.birthDate := None;
  UserData.birthTime := None;
  UserData.gender := None;
  UserData.calendarType := None
|}.

Definition bob : UserData.t := {|
  UserData.email := Some (js "bob@example.com");
  UserData.password := Some (js "bobs-secret");
  UserData.name := Some (js "Bob");
  UserData.phone := Some (js "010-1234-5678");
  UserData.birthDate := None;
  UserData.birthTime := None;
  UserData.gender := None;
  UserData.calendarType := Some (js "lunar")
|}.


(** 2026-11-03T07:05:00.123Z, and the local time of Seoul, nine hours
    ahead of UTC the whole year. *)
Definition t0 : Z := 1793689500123.
Definition KST : Z -> bool -> Z := fun _ _ => 32400000.

(** The local time of New York about the end of daylight saving of 2026:
    four hours behind UTC until 2026-11-01T06:00:00Z, which is 2 o'clock
    local time, and five hours behind from then on. *)
Definition New_York (t : Z) (isUTC : bool) : Z :=
  if t <? (if isUTC then 1793512800000 else 1793498400000)
  then - 14400000 else - 18000000.

(** Alice registers in a fresh browser. *)
Definition alice_id : jsstring := generateUserId t0 (js "k3j9x0q1z").

Definition alice_registered : localStorage :=
  run KST [Register alice t0 (js "k3j9x0q1z")].

(** Her account as [register] stores it. *)
Definition alice_account : obj := list_to_map [
  ("id", VStr alice_id);
  ("email", VStr (js "alice@example.com"));
  ("password", VStr (Base64.encode (js "longenough" ++ js "saju2026_salt")));
  ("name", VStr (js "Alice"));
  ("phone", VNull);
  ("birthDate", VNull);
  ("birthTime", VNull);
  ("gender", VNull);
  ("calendarType", VStr (js "solar"));
  ("membershipType", VStr (js "free"));
  ("premiumExpiry", VNull);
  ("createdAt", VStr (toISOString t0));
  ("lastLogin", VStr (toISOString t0));
  ("sajuData", VNull);
  ("purchaseHistory", VArr []);
  ("consultationHistory", VArr [])
].

(** She logs in. *)
Definition alice_logged_in : localStorage :=
  run KST [Register alice t0 (js "k3j9x0q1z");
           Login (js "alice@example.com") (js "longenough") (t0 + 5)].

(** She consults twice on 2 November and three times on 3 November, Seoul
    time; the first consultation of 3 November, five minutes after
    midnight, is still on 2 November in UTC. *)
Definition question (q : string) : obj := {[ "question" := VStr (js q) ]}.

Definition alice_consultations : list call := [
  Register alice t0 (js "k3j9x0q1z");
  AddConsultationHistory alice_id (question "a") (t0 - 86400000);
  AddConsultationHistory alice_id (question "b") (t0 - 82800000);
  AddConsultationHistory alice_id (question "c") (t0 - 57600000);
  AddConsultationHistory alice_id (question "d") t0;
  AddConsultationHistory alice_id (question "e") (t0 + 3600000)
].

Definition alice_history : list value := [
  VObj (record (js "consult_") (question "e") (t0 + 3600000));
  VObj (record (js "consult_") (question "d") t0);
  VObj (record (js "consult_") (question "c") (t0 - 57600000));
  VObj (record (js "consult_") (question "b") (t0 - 82800000));
  VObj (record (js "consult_") (question "a") (t0 - 86400000))
].


(** * Part II: properties *)

(** ** The calendar *)

Module JSDateFacts.

Import JSDate.


Lemma DayFromYear_succ y : DayFromYear (y + 1) = DayFromYear y + DaysInYear y.
Proof.
  unfold DayFromYear, DaysInYear.
  repeat match goal with |- context [negb (?a =? ?b)] => destruct (Z.eqb_spec a b); simpl end;
    Z.div_mod_to_equations; lia.
Qed.

Lemma DaysInYear_cases y : DaysInYear y = 365 \/ DaysInYear y = 366.
Proof.
  unfold DaysInYear.
  repeat match goal with |- context [negb (?a =? ?b)] => destruct (Z.eqb_spec a b); simpl end; auto.
Qed.

Lemma YearFromTime_spec t :
  DayFromYear (YearFromTime t) <= Day t < DayFromYear (YearFromTime t + 1).
Proof.
  unfold YearFromTime. set (d := Day t). clearbody d.
  set (y := 1970 + d * 400 / 146097).
  assert (Hlo : DayFromYear (y - 1) <= d).
  { subst y. unfold DayFromYear. Z.div_mod_to_equations. lia. }
  assert (Hhi : d < DayFromYear (y + 2)).
  { subst y. unfold DayFromYear. Z.div_mod_to_equations. lia. }
  clearbody y.
  destruct (Z.ltb_spec d (DayFromYear y)).
  - replace (y - 1 + 1) with y by lia. lia.
  - destruct (Z.leb_spec (DayFromYear (y + 1)) d).
    + replace (y + 1 + 1) with (y + 2) by lia. lia.
    + lia.
Qed.

Lemma DayWithinYear_bounds t :
  0 <= DayWithinYear t < 365 + InLeapYear t.
Proof.
  unfold DayWithinYear, InLeapYear.
  pose proof (YearFromTime_spec t) as H.
  rewrite DayFromYear_succ in H.
  destruct (DaysInYear_cases (YearFromTime t)) as [E | E]; rewrite E in *; simpl; lia.
Qed.

Lemma InLeapYear_cases t : InLeapYear t = 0 \/ InLeapYear t = 1.
Proof. unfold InLeapYear. destruct (_ =? _); auto. Qed.

Ltac case_tests :=
  repeat match goal with
    | |- context [?a <? ?b] => destruct (Z.ltb_spec a b)
    | |- context [?a <=? ?b] => destruct (Z.leb_spec a b)
    | |- context [?a =? ?b] => destruct (Z.eqb_spec a b)
    end.

Lemma monthOfDay_bounds leap d : 0 <= monthOfDay leap d <= 11.
Proof. unfold monthOfDay. case_tests; lia. Qed.

Lemma MonthFromTime_bounds t : 0 <= MonthFromTime t <= 11.
Proof. apply monthOfDay_bounds. Qed.

Lemma date_of_day_bounds leap d :
  (leap = 0 \/ leap = 1) -> 0 <= d < 365 + leap ->
  1 <= d - monthStart leap (monthOfDay leap d) + 1 <= 31.
Proof.
  intros Hl Hd. unfold monthOfDay.
  destruct Hl; subst leap; case_tests; vm_compute monthStart; try lia.
Qed.

Lemma DateFromTime_bounds t : 1 <= DateFromTime t <= 31.
Proof.
  unfold DateFromTime, MonthFromTime.
  apply date_of_day_bounds; [apply InLeapYear_cases | apply DayWithinYear_bounds].
Qed.

(** The date fields of a time value name its day. *)
Lemma MakeDay_fields t :
  MakeDay (YearFromTime t) (MonthFromTime t) (DateFromTime t) = Day t.
Proof.
  unfold MakeDay.
  pose proof (MonthFromTime_bounds t) as Hm.
  rewrite Z.div_small, Z.mod_small by lia.
  rewrite Z.add_0_r. fold (InLeapYear t).
  unfold DateFromTime, DayWithinYear. lia.
Qed.

Lemma MakeTime_fields t :
  MakeTime (HourFromTime t) (MinFromTime t) (SecFromTime t) (msFromTime t)
  = TimeWithinDay t.
Proof.
  unfold MakeTime, HourFromTime, MinFromTime, SecFromTime, msFromTime, TimeWithinDay,
    msPerHour, msPerMinute, msPerSecond, msPerDay.
  Z.div_mod_to_equations. lia.
Qed.

Lemma MakeDate_fields t : MakeDate (Day t) (TimeWithinDay t) = t.
Proof.
  unfold MakeDate, Day, TimeWithinDay, msPerDay. Z.div_mod_to_equations. lia.
Qed.

Lemma take_digits_pad k : forall n acc rest,
  take_digits k acc (pad k n ++ rest)
  = Some (acc * 10 ^ Z.of_nat k + n mod 10 ^ Z.of_nat k, rest).
Proof.
  induction k as [| k IH]; intros n acc rest.
  - simpl. rewrite Z.mod_1_r. do 2 f_equal. lia.
  - cbn [pad take_digits app].
    assert (Hp : 0 < 10 ^ Z.of_nat k) by (apply Z.pow_pos_nonneg; lia).
    pose proof (Z.mod_pos_bound (n / 10 ^ Z.of_nat k) 10 eq_refl) as Hr.
    replace ((48 <=? 48 + (n / 10 ^ Z.of_nat k) mod 10)
             && (48 + (n / 10 ^ Z.of_nat k) mod 10 <=? 57)) with true
      by (symmetry; apply andb_true_intro; split; apply Z.leb_le; lia).
    rewrite IH. do 2 f_equal.
    rewrite Nat2Z.inj_succ, Z.pow_succ_r by lia.
    rewrite (Z.mul_comm 10), Z.rem_mul_r by lia. lia.
Qed.

Lemma take_digits_pad_small k n acc rest :
  0 <= n < 10 ^ Z.of_nat k ->
  take_digits k acc (pad k n ++ rest) = Some (acc * 10 ^ Z.of_nat k + n, rest).
Proof. intros H. rewrite take_digits_pad, Z.mod_small by lia. reflexivity. Qed.

Lemma YearFromTime_mono_bounds t lo hi :
  DayFromYear lo <= Day t < DayFromYear hi -> lo <= YearFromTime t < hi.
Proof.
  intros H. pose proof (YearFromTime_spec t) as Hy.
  assert (Hmono : forall a b, a <= b -> DayFromYear a <= DayFromYear b).
  { intros a b Hab. unfold DayFromYear. Z.div_mod_to_equations. lia. }
  split.
  - destruct (Z.le_gt_cases lo (YearFromTime t)) as [|Hlt]; [assumption|].
    pose proof (Hmono (YearFromTime t + 1) lo ltac:(lia)). lia.
  - destruct (Z.lt_ge_cases (YearFromTime t) hi) as [|Hge]; [assumption|].
    pose proof (Hmono hi (YearFromTime t) ltac:(lia)). lia.
Qed.

Lemma take_year_pad4 y rest :
  0 <= y <= 9999 -> take_year (pad 4 y ++ rest) = Some (y, rest).
Proof.
  intros Hy. unfold take_year.
  remember (pad 4 y ++ rest) as l eqn:E.
  destruct l as [| c s']; [discriminate E|].
  assert (Hc : 48 <= c).
  { cbn [pad app] in E. injection E as -> _.
    pose proof (Z.mod_pos_bound (y / 10 ^ Z.of_nat 3) 10 eq_refl). lia. }
  destruct (Z.eqb_spec c 43); [lia|]. destruct (Z.eqb_spec c 45); [lia|].
  rewrite E, take_digits_pad_small by (change (10 ^ Z.of_nat 4) with 10000; lia).
  reflexivity.
Qed.

Lemma take_year_pad6 y rest :
  (9999 < y < 1000000 -> take_year (43 :: pad 6 y ++ rest) = Some (y, rest))
  /\ (0 < y < 1000000 -> take_year (45 :: pad 6 y ++ rest) = Some (- y, rest)).
Proof.
  split; intros Hy; unfold take_year.
  - change (43 =? 43) with true. cbv iota.
    rewrite take_digits_pad_small by (change (10 ^ Z.of_nat 6) with 1000000; lia).
    reflexivity.
  - change (45 =? 43) with false. change (45 =? 45) with true. cbv iota.
    rewrite take_digits_pad_small by (change (10 ^ Z.of_nat 6) with 1000000; lia).
    cbn [mbind option_bind]. change (0 * 10 ^ Z.of_nat 6 + y) with y.
    destruct (Z.eqb_spec y 0); [lia | reflexivity].
Qed.

Lemma take_year_digits y rest :
  - 1000000 < y < 1000000 -> take_year (year_digits y ++ rest) = Some (y, rest).
Proof.
  intros Hy. unfold year_digits.
  destruct (Z.leb_spec 0 y); cbn [andb].
  - destruct (Z.leb_spec y 9999).
    + apply take_year_pad4; lia.
    + destruct (Z.ltb_spec y 0); [lia|].
      rewrite <- app_comm_cons, Z.abs_eq by lia. apply take_year_pad6; lia.
  - destruct (Z.ltb_spec y 0); [|lia].
    rewrite <- app_comm_cons.
    rewrite (proj2 (take_year_pad6 (Z.abs y) rest)) by lia.
    do 2 f_equal. lia.
Qed.

Lemma DayFromYear_range :
  DayFromYear (- 299999) = -110291912 /\ DayFromYear 300000 = 108853222.
Proof. split; vm_compute; reflexivity. Qed.

Lemma YearFromTime_valid t : valid_time t -> - 300000 < YearFromTime t < 300000.
Proof.
  intros Ht.
  cut (- 299999 <= YearFromTime t < 300000); [lia|].
  apply YearFromTime_mono_bounds.
  destruct DayFromYear_range as [-> ->].
  unfold valid_time in Ht. unfold Day, msPerDay.
  Z.div_mod_to_equations. lia.
Qed.

Lemma expect_cons c s : expect c (c :: s) = Some s.
Proof. unfold expect. rewrite Z.eqb_refl. reflexivity. Qed.

Lemma expect_cons_app c s1 s2 : expect c ((c :: s1) ++ s2) = Some (s1 ++ s2).
Proof. apply expect_cons. Qed.

(** What [toISOString] writes, [Date.parse] reads back. *)
Lemma parse_toISOString t : valid_time t -> parse (toISOString t) = Some t.
Proof.
  intros Ht. unfold parse, toISOString.
  pose proof (YearFromTime_valid t Ht).
  rewrite take_year_digits by lia.
  pose proof (MonthFromTime_bounds t). pose proof (DateFromTime_bounds t).
  assert (0 <= HourFromTime t < 24) by (apply Z.mod_pos_bound; lia).
  assert (0 <= MinFromTime t < 60) by (apply Z.mod_pos_bound; lia).
  assert (0 <= SecFromTime t < 60) by (apply Z.mod_pos_bound; lia).
  assert (0 <= msFromTime t < 1000) by (apply Z.mod_pos_bound; unfold msPerSecond; lia).
  repeat (cbn [mbind option_bind app];
          first [ rewrite expect_cons
                | rewrite take_digits_pad_small
                    by (first [ change (10 ^ Z.of_nat 2) with 100
                              | change (10 ^ Z.of_nat 3) with 1000 ]; lia) ]).
  cbn [mbind option_bind app]. cbv beta iota.
  replace (0 * 10 ^ Z.of_nat 2 + (MonthFromTime t + 1) - 1) with (MonthFromTime t) by lia.
  rewrite !Z.mul_0_l, !Z.add_0_l.
  rewrite MakeDay_fields, MakeTime_fields, MakeDate_fields.
  unfold TimeClip. unfold valid_time in Ht.
  repeat match goal with
         | |- context [?a <=? ?b] =>
             replace (a <=? b) with true by (symmetry; apply Z.leb_le; lia)
         end.
  reflexivity.
Qed.

(** *** Adding months *)

Lemma MakeDay_months t k :
  0 <= k <= 12 ->
  let m := MonthFromTime t in
  let leap := InLeapYear t in
  MakeDay (YearFromTime t) (m + k) (DateFromTime t) - Day t
  = if m + k <? 12
    then monthStart leap (m + k) - monthStart leap m
    else DaysInYear (YearFromTime t)
         + monthStart (if DaysInYear (YearFromTime t + 1) =? 366 then 1 else 0)
             (m + k - 12)
         - monthStart leap m.
Proof.
  intros Hk m leap. pose proof (MonthFromTime_bounds t) as Hm. fold m in Hm.
  pose proof (MakeDay_fields t) as Hf. fold m in Hf. unfold MakeDay in *.
  rewrite (Z.div_small m), (Z.mod_small m), Z.add_0_r in Hf by lia.
  fold (InLeapYear t) in Hf. fold leap in Hf.
  destruct (Z.ltb_spec (m + k) 12).
  - rewrite (Z.div_small (m + k)), (Z.mod_small (m + k)), Z.add_0_r by lia.
    fold (InLeapYear t). fold leap. lia.
  - assert ((m + k) / 12 = 1) as -> by (Z.div_mod_to_equations; lia).
    assert ((m + k) mod 12 = m + k - 12) as -> by (Z.div_mod_to_equations; lia).
    rewrite DayFromYear_succ. lia.
Qed.

(** The same day of the next month is 28 to 31 days on. *)
Lemma MakeDay_next t :
  28 <= MakeDay (YearFromTime t) (MonthFromTime t + 1) (DateFromTime t) - Day t <= 31.
Proof.
  rewrite (MakeDay_months t 1) by lia.
  pose proof (MonthFromTime_bounds t) as Hm.
  unfold InLeapYear.
  destruct (DaysInYear_cases (YearFromTime t)) as [E | E]; rewrite E;
    change (365 =? 366) with false; change (366 =? 366) with true; cbv iota;
    unfold monthStart; case_tests; lia.
Qed.

(** The same day two months on is at least 59 days on. *)
Lemma MakeDay_next2 t :
  59 <= MakeDay (YearFromTime t) (MonthFromTime t + 2) (DateFromTime t) - Day t.
Proof.
  rewrite (MakeDay_months t 2) by lia.
  pose proof (MonthFromTime_bounds t) as Hm.
  unfold InLeapYear.
  destruct (DaysInYear_cases (YearFromTime t)) as [E | E]; rewrite E;
    destruct (DaysInYear_cases (YearFromTime t + 1)) as [E' | E']; rewrite E';
    change (365 =? 366) with false; change (366 =? 366) with true; cbv iota;
    unfold monthStart; case_tests; lia.
Qed.

Section LocalTime.

Variable LocalTZA : Z -> bool -> Z.

(** [setMonth] moves the local time by whole days. The time value moves
    by as much, and by what the offset at the new local time differs from
    the offset at the old time. *)
Lemma setMonth_diff t month :
  let lt := LocalTime LocalTZA t in
  let days := MakeDay (YearFromTime lt) month (DateFromTime lt) - Day lt in
  setMonth LocalTZA t month - t
  = days * msPerDay + LocalTZA t true - LocalTZA (lt + days * msPerDay) false.
Proof.
  intros lt days. unfold setMonth, UTC. fold lt.
  assert (E : MakeDate (MakeDay (YearFromTime lt) month (DateFromTime lt))
                (TimeWithinDay lt)
              = lt + days * msPerDay).
  { unfold days, MakeDate. pose proof (MakeDate_fields lt) as H.
    unfold MakeDate in H. lia. }
  rewrite E. unfold lt at 1. unfold LocalTime. lia.
Qed.

(** With offsets of less than a day, the time value moves by the whole
    days and by less than two days more or less. *)
Lemma setMonth_within t month lo hi :
  offsets_within_a_day LocalTZA ->
  (let lt := LocalTime LocalTZA t in
   lo <= MakeDay (YearFromTime lt) month (DateFromTime lt) - Day lt <= hi) ->
  t + (lo - 2) * msPerDay < setMonth LocalTZA t month < t + (hi + 2) * msPerDay.
Proof.
  intros Hoff Hdays. pose proof (setMonth_diff t month) as Hd.
  cbv zeta in Hd, Hdays.
  set (lt := LocalTime LocalTZA t) in *.
  set (days := MakeDay (YearFromTime lt) month (DateFromTime lt) - Day lt) in *.
  pose proof (Hoff t true) as H1.
  pose proof (Hoff (lt + days * msPerDay) false) as H2.
  unfold msPerDay in *. lia.
Qed.

(** One month on is more than 26 and less than 33 days on: 28 to 31 days
    of the calendar, and the change of the offset. *)
Lemma setMonth_next t :
  offsets_within_a_day LocalTZA ->
  t + 26 * msPerDay < setMonth LocalTZA t (getMonth LocalTZA t + 1)
  < t + 33 * msPerDay.
Proof.
  intros Hoff.
  apply (setMonth_within t (getMonth LocalTZA t + 1) 28 31 Hoff).
  apply MakeDay_next.
Qed.

(** Two months on is more than 57 days on. *)
Lemma setMonth_next2 t :
  offsets_within_a_day LocalTZA ->
  t + 57 * msPerDay < setMonth LocalTZA t (getMonth LocalTZA t + 2).
Proof.
  intros Hoff. pose proof (setMonth_diff t (getMonth LocalTZA t + 2)) as Hd.
  cbv zeta in Hd. unfold getMonth in *.
  set (lt := LocalTime LocalTZA t) in *.
  pose proof (MakeDay_next2 lt) as Hdays.
  set (days := MakeDay (YearFromTime lt) (MonthFromTime lt + 2) (DateFromTime lt)
               - Day lt) in *.
  pose proof (Hoff t true) as H1.
  pose proof (Hoff (lt + days * msPerDay) false) as H2.
  unfold msPerDay in *. lia.
Qed.

End LocalTime.

(** A month that includes the end of daylight saving is an hour longer:
    in New York, one month on from noon of 10 October 2026
    (2026-10-10T16:00:00.000Z) is noon of 10 November
    (2026-11-10T17:00:00.000Z), 31 days and an hour later. *)
Lemma setMonth_across_daylight_saving :
  let t := 1791648000000 in
  toISOString t = js "2026-10-10T16:00:00.000Z"
  /\ setMonth New_York t (getMonth New_York t + 1) = t + 31 * msPerDay + msPerHour
  /\ toISOString (setMonth New_York t (getMonth New_York t + 1))
     = js "2026-11-10T17:00:00.000Z".
Proof. by vm_compute. Qed.

Lemma toISOString_nonempty t : toISOString t <> [].
Proof.
  unfold toISOString. intros H.
  apply app_eq_nil in H as [_ H]. discriminate H.
Qed.

Lemma construct_toISOString t :
  valid_time t -> construct (Some (VStr (toISOString t))) = Some t.
Proof. apply parse_toISOString. Qed.

End JSDateFacts.

(** ** Values *)

Lemma strict_eq_true v w : strict_eq v w = true -> v = w.
Proof.
  destruct v as [[]|], w as [[]|]; simpl; try discriminate; try reflexivity.
  - intros H%bool_decide_eq_true. congruence.
  - intros H%Z.eqb_eq. congruence.
  - intros H%bool_decide_eq_true. congruence.
Qed.

Lemma strict_eq_str s : strict_eq (Some (VStr s)) (Some (VStr s)) = true.
Proof. simpl. by apply bool_decide_eq_true. Qed.

Lemma strict_eq_sym v w : strict_eq v w = strict_eq w v.
Proof.
  destruct v as [[]|], w as [[]|]; simpl; try reflexivity.
  - apply bool_decide_ext. split; congruence.
  - apply Z.eqb_sym.
  - apply bool_decide_ext. split; congruence.
Qed.

Lemma strict_eq_str_true v s : strict_eq v (Some (VStr s)) = true <-> v = Some (VStr s).
Proof.
  split; [apply strict_eq_true | intros ->; apply strict_eq_str].
Qed.

Lemma find_Some {A} (p : A -> bool) l x :
  find p l = Some x <->
  exists i, l !! i = Some x /\ p x = true
            /\ forall j y, l !! j = Some y -> (j < i)%nat -> p y = false.
Proof.
  unfold find. split.
  - destruct (list_find _ l) as [[i y]|] eqn:E; [|discriminate].
    intros [= ->]. apply list_find_Some in E as (Hi & Hp & Hlt).
    exists i. split_and!; [done | by apply Is_true_eq_true |].
    intros j z Hj Hji. specialize (Hlt j z Hj Hji).
    destruct (p z); [by destruct Hlt | done].
  - intros (i & Hi & Hp & Hlt).
    assert (list_find (fun x => Is_true (p x)) l = Some (i, x)) as ->; [|done].
    apply list_find_Some. split_and!; [done | by rewrite Hp |].
    intros j y Hj Hji. rewrite (Hlt j y Hj Hji). tauto.
Qed.

Lemma find_None {A} (p : A -> bool) l :
  find p l = None <-> forall i x, l !! i = Some x -> p x = false.
Proof.
  unfold find. destruct (list_find _ l) as [[i y]|] eqn:E; simpl.
  - apply list_find_Some in E as (Hi & Hp & _). split; [discriminate|].
    intros H. rewrite (H i y Hi) in Hp. destruct Hp.
  - split; [|done]. intros _ i x Hi.
    apply list_find_None in E. rewrite Forall_lookup in E.
    specialize (E i x Hi). destruct (p x); [by destruct E | done].
Qed.

Lemma findIndex_find {A} (p : A -> bool) l :
  findIndex p l = None <-> find p l = None.
Proof. unfold findIndex, find. destruct (list_find _ l); simpl; split; congruence. Qed.

Lemma findIndex_Some {A} (p : A -> bool) l i :
  findIndex p l = Some i <->
  exists x, l !! i = Some x /\ p x = true
            /\ forall j y, l !! j = Some y -> (j < i)%nat -> p y = false.
Proof.
  unfold findIndex. split.
  - destruct (list_find _ l) as [[k y]|] eqn:E; [|discriminate].
    intros [= ->]. apply list_find_Some in E as (Hi & Hp & Hlt).
    exists y. split_and!; [done | by apply Is_true_eq_true |].
    intros j z Hj Hji. specialize (Hlt j z Hj Hji).
    destruct (p z); [by destruct Hlt | done].
  - intros (x & Hi & Hp & Hlt).
    assert (list_find (fun x => Is_true (p x)) l = Some (i, x)) as ->; [|done].
    apply list_find_Some. split_and!; [done | by rewrite Hp |].
    intros j y Hj Hji. rewrite (Hlt j y Hj Hji). tauto.
Qed.

(** ** CredentialCodec: [hashPassword] and [verifyPassword] *)

Lemma btoa_Latin1 s : Latin1 s -> btoa s = Return (Base64.encode s).
Proof.
  intros H. unfold btoa.
  assert (forallb (fun c => c <=? 255) s = true) as ->; [|done].
  apply forallb_forall. intros c Hc%list_elem_of_In.
  unfold Latin1 in H. rewrite Forall_forall in H. apply Z.leb_le, H, Hc.
Qed.

Lemma Latin1_js s : Latin1 (js s).
Proof.
  induction s as [| c s IH]; [constructor|].
  constructor; [|exact IH].
  pose proof (N_ascii_bounded c). lia.
Qed.

Lemma hashPassword_Latin1 s :
  Latin1 s -> hashPassword s = Return (Base64.encode (s ++ js "saju2026_salt")).
Proof.
  intros H. apply btoa_Latin1, Forall_app. split; [done | apply Latin1_js].
Qed.

Lemma hashPassword_Return s h : hashPassword s = Return h -> Forall (fun c => c <= 255) s.
Proof.
  unfold hashPassword, btoa.
  destruct (forallb _ _) eqn:E; [|discriminate]. intros _.
  rewrite forallb_forall in E. apply Forall_forall. intros c Hc.
  apply Z.leb_le, E, in_or_app. left. by apply list_elem_of_In.
Qed.

(** C1, as the code has it. For every non-empty string [s] whose code units
    are all at most U+00FF: [hashPassword s] returns a verifier [v], every
    call returns that same [v], [verifyPassword s v] returns true, and
    [verifyPassword s w] returns true exactly when [w] is [v]. *)
Theorem verifyPassword_hashPassword_Latin1 (s : jsstring) :
  s <> [] -> Latin1 s ->
  exists v,
    hashPassword s = Return v
    /\ (forall v', hashPassword s = Return v' -> v' = v)
    /\ verifyPassword s (Some (VStr v)) = Return true
    /\ (forall w, verifyPassword s w = Return true <-> w = Some (VStr v)).
Proof.
  intros _ Hs. exists (Base64.encode (s ++ js "saju2026_salt")).
  pose proof (hashPassword_Latin1 s Hs) as Hh.
  split_and!.
  - exact Hh.
  - intros v'. rewrite Hh. congruence.
  - unfold verifyPassword. rewrite Hh. simpl. f_equal. by apply bool_decide_eq_true.
  - intros w. unfold verifyPassword. rewrite Hh. cbn [mbind outcome_bind mret outcome_ret].
    rewrite strict_eq_sym. split.
    + intros [= H]. by apply strict_eq_true in H.
    + intros ->. f_equal. apply strict_eq_str.
Qed.

(** The password [12345678] goes through the codec. *)
Lemma verifyPassword_hashPassword_Latin1_witness :
  exists v,
    hashPassword (js "12345678") = Return v
    /\ (forall v', hashPassword (js "12345678") = Return v' -> v' = v)
    /\ verifyPassword (js "12345678") (Some (VStr v)) = Return true
    /\ (forall w, verifyPassword (js "12345678") w = Return true <-> w = Some (VStr v)).
Proof.
  apply verifyPassword_hashPassword_Latin1.
  - discriminate.
  - apply Latin1_js.
Defined.

(** C1 as stated fails: on the one-letter password U+D55C (a Hangul
    syllable) [hashPassword] raises [InvalidCharacterError], so that there
    is no verifier for [verifyPassword] to accept. *)
Lemma verifyPassword_hashPassword_counterexample :
  ~ (forall s : jsstring, s <> [] ->
       exists v, hashPassword s = Return v
                 /\ verifyPassword s (Some (VStr v)) = Return true).
Proof.
  intros H. destruct (H [54620]) as (v & Hv & _); [discriminate|].
  assert (E : hashPassword [54620] = Throw InvalidCharacterError) by reflexivity.
  rewrite E in Hv. discriminate Hv.
Qed.

(** ** Results, failures and the store *)

Ltac step_outcome :=
  unfold mret, outcome_ret, mbind, outcome_bind in *.

(** A goal [f args = Return (Failure m, st') -> st' = st]: every branch of
    [f] either returns a failure with the store it was given, or does not
    return a failure. *)
Ltac failure_branches :=
  unfold mret, outcome_ret, mbind, outcome_bind;
  repeat case_match; try discriminate; by intros [= _ <-].

Lemma register_failure userData now rnd st m st' :
  register userData now rnd st = Return (Failure m, st') -> st' = st.
Proof. unfold register. failure_branches. Qed.

Lemma login_failure email password now st m st' :
  login email password now st = Return (Failure m, st') -> st' = st.
Proof. unfold login, verifyPassword. failure_branches. Qed.

Lemma updateUser_failure userId updates st m st' :
  updateUser userId updates st = Return (Failure m, st') -> st' = st.
Proof. unfold updateUser, hashed_updates. failure_branches. Qed.

Lemma resetPassword_failure email rnd st m st' :
  resetPassword email rnd st = Return (Failure m, st') -> st' = st.
Proof. unfold resetPassword. failure_branches. Qed.

Lemma saveSajuData_failure userId sajuData now st m st' :
  saveSajuData userId sajuData now st = (Failure m, st') -> st' = st.
Proof. unfold saveSajuData. repeat case_match; try discriminate; by intros [= _ <-]. Qed.

Lemma addPurchaseHistory_failure tz userId purchase now st m st' :
  addPurchaseHistory tz userId purchase now st = Return (Failure m, st') -> st' = st.
Proof. unfold addPurchaseHistory. failure_branches. Qed.

Lemma addConsultationHistory_failure userId consultation now st m st' :
  addConsultationHistory userId consultation now st = Return (Failure m, st') -> st' = st.
Proof. unfold addConsultationHistory. failure_branches. Qed.

(** C10. A call of [register], [login], [updateUser] or [resetPassword]
    that returns a failure leaves [localStorage], the stored users and the
    current user alike, as it was before the call. *)
Theorem failure_leaves_storage (st st' : localStorage) (m : message) :
  (forall userData now rnd,
      register userData now rnd st = Return (Failure m, st') -> st' = st)
  /\ (forall email password now,
         login email password now st = Return (Failure m, st') -> st' = st)
  /\ (forall userId updates,
         updateUser userId updates st = Return (Failure m, st') -> st' = st)
  /\ (forall email rnd,
         resetPassword email rnd st = Return (Failure m, st') -> st' = st).
Proof.
  split_and!; intros.
  - by eapply register_failure.
  - by eapply login_failure.
  - by eapply updateUser_failure.
  - by eapply resetPassword_failure.
Qed.

(** Closed equations are checked by evaluation. *)
Ltac by_evaluation :=
  lazymatch goal with
  | |- @eq ?T ?x ?y => exact (@eq_refl T y <: @eq T x y)
  end.

Lemma alice_registered_eq :
  alice_registered
  = {| USER_STORAGE_KEY := [alice_account]; CURRENT_USER_KEY := None |}.
Proof. by_evaluation. Qed.

Lemma find_alice_by_email :
  find (fun u : obj => strict_eq (u !! "email") (Some (VStr (js "alice@example.com"))))
    (getUsers alice_registered) = Some alice_account.
Proof. by_evaluation. Qed.

Lemma find_alice_by_id :
  find (fun u : obj => strict_eq (u !! "id") (Some (VStr alice_id)))
    (getUsers alice_registered) = Some alice_account.
Proof. by_evaluation. Qed.

(** A wrong password is turned down and nothing is written. *)
Lemma failure_leaves_storage_witness :
  exists st',
    login (js "alice@example.com") (js "wrong") (t0 + 5) alice_registered
    = Return (Failure MsgWrongPassword, st')
    /\ st' = alice_registered.
Proof.
  assert (H : login (js "alice@example.com") (js "wrong") (t0 + 5) alice_registered
              = Return (Failure MsgWrongPassword, alice_registered))
    by by_evaluation.
  exists alice_registered. split; [exact H|].
  exact (proj1 (proj2 (failure_leaves_storage _ _ _)) _ _ _ H).
Defined.

(** ** The order of the checks of [register] *)

Lemma find_email_held email users :
  find (fun u : obj => strict_eq (u !! "email") (Some (VStr email))) users = None
  <-> email_held email users = false.
Proof.
  rewrite find_None. unfold email_held. split.
  - intros H. apply not_true_is_false. intros (u & Hu & Hs)%existsb_exists.
    apply list_elem_of_In, list_elem_of_lookup in Hu as [i Hi].
    specialize (H i u Hi).
    destruct (u !! "email") as [[]|]; try discriminate.
    apply bool_decide_eq_true in Hs as ->. rewrite strict_eq_str in H. discriminate.
  - intros H i u Hi. destruct (strict_eq _ _) eqn:E; [|done].
    apply strict_eq_str_true in E.
    assert (existsb (fun u : obj =>
                       match u !! "email" with
                       | Some (VStr s) => bool_decide (s = email)
                       | _ => false
                       end) users = true) as Hex; [|congruence].
    apply existsb_exists. exists u. split.
    + by eapply list_elem_of_In, list_elem_of_lookup_2.
    + rewrite E. by apply bool_decide_eq_true.
Qed.

Lemma isValidEmail_nil : isValidEmail [] = false.
Proof. reflexivity. Qed.

(** C6. [register] checks required fields, email shape, secret length,
    phone shape (for a phone that is given) and email uniqueness in this
    order and fails on the first condition that is violated: whatever
    else an input violates, the failure returned is that of the earliest
    violated condition, and nothing is written. An input that violates
    none of them is not turned down. *)
Theorem register_first_violation (userData : UserData.t) (now : Z) (rnd : jsstring)
    (st : localStorage) :
  (forall m rest,
      spec_register_violations userData st = m :: rest ->
      register userData now rnd st = Return (Failure m, st))
  /\ (spec_register_violations userData st = [] ->
      forall m st', register userData now rnd st <> Return (Failure m, st')).
Proof.
  unfold spec_register_violations, register, isValidPassword, mret, outcome_ret.
  destruct userData as [email password name phone bd bt g ct]; cbn [UserData.email
    UserData.password UserData.name UserData.phone].
  destruct email as [[| e email]|], password as [[| p password]|], name as [[| n name]|];
    cbn [default from_option id]; try rewrite isValidEmail_nil;
    try (rewrite bool_decide_eq_true_2 by tauto;
         split; [by intros m rest [= <- _] | discriminate]).
  rewrite bool_decide_eq_false_2 by (intros [|[|]]; done).
  cbn [app].
  destruct (isValidEmail (e :: email)); cbn [negb app];
    [| split; [by intros m rest [= <- _] | discriminate]].
  case_bool_decide as Hlen; cbn [app].
  2: { assert ((8 <=? Z.of_nat (length (p :: password))) = false) as ->
         by (apply Z.leb_gt; lia).
       split; [by intros m rest [= <- _] | discriminate]. }
  assert ((8 <=? Z.of_nat (length (p :: password))) = true) as ->
    by (apply Z.leb_le; lia).
  cbn [negb].
  assert (Hphone :
    forall (ms : list message) (k : outcome (result * localStorage)),
      ((forall m rest, ms = m :: rest -> k = Return (Failure m, st))
       /\ (ms = [] -> forall m st', k <> Return (Failure m, st'))) ->
      (forall m rest,
          match phone with
          | Some (c :: phone') =>
              if isValidPhone (c :: phone') then [] else [MsgInvalidPhone]
          | _ => []
          end ++ ms = m :: rest ->
          (if match phone with
              | Some (c :: phone') => negb (isValidPhone (c :: phone'))
              | _ => false
              end
           then Return (Failure MsgInvalidPhone, st) else k) = Return (Failure m, st))
      /\ (match phone with
          | Some (c :: phone') =>
              if isValidPhone (c :: phone') then [] else [MsgInvalidPhone]
          | _ => []
          end ++ ms = [] ->
          forall m st',
            (if match phone with
                | Some (c :: phone') => negb (isValidPhone (c :: phone'))
                | _ => false
                end
             then Return (Failure MsgInvalidPhone, st) else k) <> Return (Failure m, st'))).
  { intros ms k [Hk1 Hk2].
    destruct phone as [[| c phone']|]; cbn [app negb]; try (split; assumption).
    destruct (isValidPhone (c :: phone')); cbn [app negb]; [split; assumption|].
    split; [by intros m rest [= <- _] | discriminate]. }
  apply Hphone. clear Hphone.
  destruct (find _ (getUsers st)) as [u|] eqn:Hfind.
  - destruct (email_held (e :: email) (getUsers st)) eqn:Hheld.
    + split; [by intros m rest [= <- _] | discriminate].
    + apply find_email_held in Hheld. rewrite Hheld in Hfind. discriminate.
  - apply find_email_held in Hfind as ->.
    split; [discriminate|]. intros _ m st'.
    destruct (hashPassword (p :: password)); step_outcome; discriminate.
Qed.

(** An input with a malformed email, a short password and a malformed
    phone number is turned down for its email. *)
Lemma register_first_violation_witness :
  let bad := {|
    UserData.email := Some (js "not-an-email");
    UserData.password := Some (js "short");
    UserData.name := Some (js "Bob");
    UserData.phone := Some (js "12345");
    UserData.birthDate := None;
    UserData.birthTime := None;
    UserData.gender := None;
    UserData.calendarType := None |} in
  spec_register_violations bad alice_registered
  = [MsgInvalidEmail; MsgShortPassword; MsgInvalidPhone]
  /\ register bad t0 [] alice_registered
     = Return (Failure MsgInvalidEmail, alice_registered).
Proof.
  intros bad.
  assert (H : spec_register_violations bad alice_registered
              = [MsgInvalidEmail; MsgShortPassword; MsgInvalidPhone]).
  { unfold spec_register_violations.
    rewrite bool_decide_eq_false_2 by (intros [|[|]]; done).
    rewrite (bool_decide_eq_false_2 (8 <= _)) by (vm_compute; intros H; by apply H).
    reflexivity. }
  split; [exact H|].
  exact (proj1 (register_first_violation bad t0 [] alice_registered) _ _ H).
Defined.

(** ** The credential verifier stays inside *)

Lemma sanitizeUser_password user : sanitizeUser user !! "password" = None.
Proof. apply lookup_delete_eq. Qed.

Lemma sanitizeUser_other user key :
  key <> "password" -> sanitizeUser user !! key = user !! key.
Proof. intros H. by apply lookup_delete_ne. Qed.

Lemma publishes_redacted st st' : publishes st st' -> redacted st -> redacted st'.
Proof.
  unfold redacted, getCurrentUser. intros [H | [H | [user H]]] Hst u; rewrite H.
  - apply Hst.
  - discriminate.
  - intros [= <-]. apply sanitizeUser_password.
Qed.

Lemma saveUser_current user st :
  CURRENT_USER_KEY (saveUser user st) = CURRENT_USER_KEY st.
Proof. reflexivity. Qed.

Ltac publishes_branches :=
  unfold mret, outcome_ret, mbind, outcome_bind; unfold publishes;
  repeat case_match; simplify_eq; cbn [stored snd CURRENT_USER_KEY setCurrentUser saveUser];
  eauto.

Lemma updateUser_publishes userId updates st :
  publishes st (stored (updateUser userId updates st) st).
Proof. unfold updateUser, hashed_updates, getCurrentUser. publishes_branches. Qed.

Lemma exec_publishes tz c st : publishes st (exec tz c st).
Proof.
  destruct c; cbn [exec].
  - unfold initializeUsers. publishes_branches.
  - unfold register. publishes_branches.
  - unfold login, verifyPassword. publishes_branches.
  - unfold logout. publishes_branches.
  - unfold publishes. cbn. eauto.
  - apply updateUser_publishes.
  - unfold saveSajuData, getCurrentUser. publishes_branches.
  - unfold addPurchaseHistory.
    destruct (find _ _); [|by left].
    destruct (history _); [|by left]. cbn [mbind outcome_bind].
    destruct (_ || _).
    + set (st1 := saveUser _ st).
      pose proof (updateUser_publishes userId
                    (list_to_map [("membershipType", VStr (js "premium"));
                                  ("premiumExpiry",
                                   VStr (toISOString
                                     (setMonth tz now
                                        (getMonth tz now + (if strict_eq (purchase !! "type")
                                           (Some (VStr (js "premium_yearly")))
                                         then 12 else 1)))))]) st1) as H.
      destruct (updateUser _ _ st1) as [[r st2]|]; cbn [stored mbind outcome_bind] in *;
        [exact H | by left].
    + by left.
  - unfold addConsultationHistory. publishes_branches.
  - unfold resetPassword. publishes_branches.
Qed.

Lemma run_snoc tz calls c : run tz (calls ++ [c]) = exec tz c (run tz calls).
Proof. unfold run. by rewrite foldl_app. Qed.

Lemma run_redacted tz calls : redacted (run tz calls).
Proof.
  induction calls as [| c calls IH] using rev_ind.
  - intros u. discriminate.
  - rewrite run_snoc. eapply publishes_redacted; [apply exec_publishes | exact IH].
Qed.

(** What a successful [register] has done. *)
Lemma register_success userData now rnd st m p st' :
  register userData now rnd st = Return (Success m p, st') ->
  exists email newUser,
    UserData.email userData = Some email
    /\ find (fun u : obj => strict_eq (u !! "email") (Some (VStr email))) (getUsers st) = None
    /\ newUser !! "email" = Some (VStr email)
    /\ newUser !! "id" = Some (VStr (generateUserId now rnd))
    /\ p = User (sanitizeUser newUser)
    /\ st' = saveUser newUser st.
Proof.
  unfold register, mret, outcome_ret, mbind, outcome_bind.
  destruct (UserData.email userData) as [[| e email]|] eqn:He;
    [by intros [=] | | by intros [=]].
  destruct (UserData.password userData) as [[| c password]|];
    [by intros [=] | | by intros [=]].
  destruct (UserData.name userData) as [[| n name]|];
    [by intros [=] | | by intros [=]].
  destruct (negb (isValidEmail _)); [by intros [=]|].
  destruct (negb (isValidPassword _)); [by intros [=]|].
  match goal with |- context [if ?b then _ else _] => destruct b end; [by intros [=]|].
  destruct (find _ _) eqn:Hfind; [by intros [=]|].
  destruct (hashPassword _) as [hashed|]; [|by intros [=]].
  match goal with |- context [saveUser ?u st] => set (newUser := u) end.
  intros [= <- <- <-]. exists (e :: email), newUser.
  split_and!; try reflexivity. exact Hfind.
Qed.

(** What a successful [login] has done. *)
Lemma login_success email password now st m p st' :
  login email password now st = Return (Success m p, st') ->
  exists user,
    find (fun u : obj => strict_eq (u !! "email") (Some (VStr email))) (getUsers st)
    = Some user
    /\ verifyPassword password (user !! "password") = Return true
    /\ p = User (sanitizeUser (<["lastLogin" := VStr (toISOString now)]> user))
    /\ st' = setCurrentUser (<["lastLogin" := VStr (toISOString now)]> user)
               (saveUser (<["lastLogin" := VStr (toISOString now)]> user) st).
Proof.
  unfold login, mret, outcome_ret, mbind, outcome_bind.
  destruct (_ || _); [by intros [=]|].
  destruct (find _ _) as [user|] eqn:Hfind; [|by intros [=]].
  destruct (verifyPassword password (user !! "password")) as [[]|] eqn:Hv;
    cbn [negb]; try (by intros [=]).
  intros [= <- <- <-]. by exists user.
Qed.

(** What a successful [updateUser] has done. *)
Lemma updateUser_success userId updates st m p st' :
  updateUser userId updates st = Return (Success m p, st') ->
  exists user updates',
    find (fun u : obj => strict_eq (u !! "id") (Some (VStr userId))) (getUsers st)
    = Some user
    /\ hashed_updates updates = Return updates'
    /\ (truthy (updates' !! "email")
        && negb (strict_eq (updates' !! "email") (user !! "email"))
        && bool_decide (is_Some (find (fun u : obj =>
             strict_eq (u !! "email") (updates' !! "email")
             && negb (strict_eq (u !! "id") (Some (VStr userId)))) (getUsers st))))
       = false
    /\ p = User (sanitizeUser (updates' ∪ user))
    /\ (st' = saveUser (updates' ∪ user) st
        \/ st' = setCurrentUser (updates' ∪ user) (saveUser (updates' ∪ user) st)).
Proof.
  unfold updateUser, mret, outcome_ret, mbind, outcome_bind.
  destruct (find _ _) as [user|] eqn:Hfind; [|by intros [=]].
  destruct (hashed_updates updates) as [updates'|] eqn:Hh; [|by intros [=]].
  match goal with |- context [if ?b then _ else _] => destruct b eqn:Hc end;
    [by intros [=]|].
  intros [= <- <- <-]. exists user, updates'. split_and!; try done.
  unfold getCurrentUser. cbn [saveUser CURRENT_USER_KEY].
  destruct (CURRENT_USER_KEY st) as [cu|]; [|by left].
  destruct (strict_eq (cu !! "id") _); [by right | by left].
Qed.

Lemma saveUser_elem (user : obj) st : user ∈ getUsers (saveUser user st).
Proof.
  unfold saveUser. destruct (findIndex _ _) as [i|] eqn:Hidx;
    cbn [getUsers USER_STORAGE_KEY].
  - apply findIndex_Some in Hidx as (x & Hi & _).
    eapply list_elem_of_lookup_2, list_lookup_insert_eq, lookup_lt_Some, Hi.
  - apply elem_of_app. right. by apply list_elem_of_singleton.
Qed.

Lemma sanitizeUser_redaction user : redaction_of user (sanitizeUser user).
Proof.
  split; [apply sanitizeUser_password|]. intros key Hkey. by apply sanitizeUser_other.
Qed.

Lemma register_user userData now rnd st r st' u :
  register userData now rnd st = Return (r, st') ->
  user_of r = Some u -> redacted_view u st'.
Proof.
  destruct r as [| m p]; [discriminate|].
  intros (email & newUser & _ & _ & _ & _ & -> & ->)%register_success [= <-].
  exists newUser. split; [apply saveUser_elem | apply sanitizeUser_redaction].
Qed.

Lemma login_user email password now st r st' u :
  login email password now st = Return (r, st') ->
  user_of r = Some u -> redacted_view u st'.
Proof.
  destruct r as [| m p]; [discriminate|].
  intros (user & _ & _ & -> & ->)%login_success [= <-].
  eexists. split; [apply saveUser_elem | apply sanitizeUser_redaction].
Qed.

Lemma updateUser_user userId updates st r st' u :
  updateUser userId updates st = Return (r, st') ->
  user_of r = Some u -> redacted_view u st'.
Proof.
  destruct r as [| m p]; [discriminate|].
  intros (user & updates' & _ & _ & _ & -> & Hst)%updateUser_success [= <-].
  eexists. split; [|apply sanitizeUser_redaction].
  destruct Hst as [-> | ->]; apply saveUser_elem.
Qed.

(** C4. The user that [register], [login] or [updateUser] returns is a
    stored account without its password: it has no [password] property,
    and every other property as the stored account has it. The current
    user that [setCurrentUser] stores is, in the same way, the account it
    was given without its password. After any sequence of calls the
    current user that [getCurrentUser] reads, if there is one, has no
    [password] property. *)
Theorem password_never_returned :
  (forall userData now rnd st r st' u,
      register userData now rnd st = Return (r, st') ->
      user_of r = Some u -> redacted_view u st')
  /\ (forall email password now st r st' u,
         login email password now st = Return (r, st') ->
         user_of r = Some u -> redacted_view u st')
  /\ (forall userId updates st r st' u,
         updateUser userId updates st = Return (r, st') ->
         user_of r = Some u -> redacted_view u st')
  /\ (forall user st,
         exists u, getCurrentUser (setCurrentUser user st) = Some u
                   /\ redaction_of user u)
  /\ (forall LocalTZA calls u,
         getCurrentUser (run LocalTZA calls) = Some u -> u !! "password" = None).
Proof.
  split_and!.
  - apply register_user.
  - apply login_user.
  - apply updateUser_user.
  - intros user st. exists (sanitizeUser user). split; [done | apply sanitizeUser_redaction].
  - intros tz calls. apply run_redacted.
Qed.

(** Alice, registered and logged in, is the current user, without her
    verifier. *)
Lemma password_never_returned_witness :
  let u := sanitizeUser (<["lastLogin" := VStr (toISOString (t0 + 5))]> alice_account) in
  getCurrentUser
    (run KST [Register alice t0 (js "k3j9x0q1z");
              Login (js "alice@example.com") (js "longenough") (t0 + 5)])
  = Some u
  /\ u !! "password" = None.
Proof.
  intros u.
  assert (E : getCurrentUser
                (run KST [Register alice t0 (js "k3j9x0q1z");
                          Login (js "alice@example.com") (js "longenough") (t0 + 5)])
              = Some u) by by_evaluation.
  split; [exact E|].
  exact (proj2 (proj2 (proj2 (proj2 password_never_returned))) _ _ _ E).
Defined.

(** ** [login] *)

Lemma truthy_str_nonempty s : truthy (Some (VStr s)) = true <-> s <> [].
Proof. destruct s; simpl; split; congruence. Qed.

(** With a password that [btoa] does not take, [login] raises the exception
    of [btoa] once it has found the account. *)
Lemma login_throws email password now st (user : obj) :
  email <> [] -> password <> [] ->
  find (fun u : obj => strict_eq (u !! "email") (Some (VStr email))) (getUsers st)
  = Some user ->
  hashPassword password = Throw InvalidCharacterError ->
  login email password now st = Throw InvalidCharacterError.
Proof.
  intros He Hp Hfind Hh. unfold login, verifyPassword.
  apply truthy_str_nonempty in He as ->. apply truthy_str_nonempty in Hp as ->.
  cbn [negb orb]. by rewrite Hfind, Hh.
Qed.

(** C5, as the code has it. [login] returns the failure for missing input
    when the email or the password is empty, and else the failure for an
    unknown email when no stored account has the email, whatever the
    password is. When a stored account has the email, and the code units of
    the password are all at most U+00FF, so that [hashPassword] gives its
    encoding [h]: [login] returns the failure for a wrong password when [h]
    is not the stored verifier, and otherwise it sets [lastLogin], saves
    the account, makes it the current user and returns it sanitized. A
    failure leaves the store as it was, and [login] fails in these three
    cases only; where [hashPassword] raises for the password of an email
    that a stored account has, [login] raises, and returns neither a
    failure nor a success. *)
Theorem login_cases (email password : jsstring) (now : Z) (st : localStorage) :
  (email = [] \/ password = [] ->
   login email password now st = Return (Failure MsgLoginMissing, st))
  /\ (email <> [] -> password <> [] ->
      find (fun u : obj => strict_eq (u !! "email") (Some (VStr email))) (getUsers st)
      = None ->
      login email password now st = Return (Failure MsgUnknownEmail, st))
  /\ (forall user,
         email <> [] -> password <> [] ->
         find (fun u : obj => strict_eq (u !! "email") (Some (VStr email))) (getUsers st)
         = Some user ->
         Latin1 password ->
         exists h,
           hashPassword password = Return h
           /\ (user !! "password" <> Some (VStr h) ->
               login email password now st = Return (Failure MsgWrongPassword, st))
           /\ (user !! "password" = Some (VStr h) ->
               let user' := <["lastLogin" := VStr (toISOString now)]> user in
               login email password now st
               = Return (Success (Some MsgLoggedIn) (User (sanitizeUser user')),
                         setCurrentUser user' (saveUser user' st))))
  /\ (forall m st',
         login email password now st = Return (Failure m, st') ->
         st' = st
         /\ (((email = [] \/ password = []) /\ m = MsgLoginMissing)
             \/ (email <> [] /\ password <> []
                 /\ find (fun u : obj => strict_eq (u !! "email") (Some (VStr email)))
                      (getUsers st) = None
                 /\ m = MsgUnknownEmail)
             \/ (exists user h,
                    email <> [] /\ password <> []
                    /\ find (fun u : obj => strict_eq (u !! "email") (Some (VStr email)))
                         (getUsers st) = Some user
                    /\ hashPassword password = Return h
                    /\ user !! "password" <> Some (VStr h)
                    /\ m = MsgWrongPassword)))
  /\ (forall user e,
         email <> [] -> password <> [] ->
         find (fun u : obj => strict_eq (u !! "email") (Some (VStr email))) (getUsers st)
         = Some user ->
         hashPassword password = Throw e ->
         login email password now st = Throw e).
Proof.
  split_and!.
  - intros H. unfold login.
    assert (negb (truthy (Some (VStr email))) || negb (truthy (Some (VStr password)))
            = true) as ->; [|done].
    destruct H as [-> | ->]; [done|]. apply orb_true_r.
  - intros He Hp Hfind. unfold login.
    apply truthy_str_nonempty in He as ->. apply truthy_str_nonempty in Hp as ->.
    cbn [negb orb]. by rewrite Hfind.
  - intros user He Hp Hfind Hl. pose proof (hashPassword_Latin1 password Hl) as Hh.
    eexists. split; [exact Hh|]. unfold login, verifyPassword.
    apply truthy_str_nonempty in He as ->. apply truthy_str_nonempty in Hp as ->.
    cbn [negb orb]. rewrite Hfind, Hh.
    unfold mret, outcome_ret, mbind, outcome_bind. split.
    + intros Hne. destruct (strict_eq _ _) eqn:E; [|done].
      apply strict_eq_true in E. congruence.
    + intros ->. by rewrite strict_eq_str.
  - intros m st' H. split; [by eapply login_failure|]. revert H.
    unfold login, verifyPassword.
    unfold mret, outcome_ret, mbind, outcome_bind.
    destruct email as [| e email]; [intros [= <- _]; left; auto|].
    destruct password as [| p password]; [intros [= <- _]; left; auto|].
    cbn [truthy negb orb].
    destruct (find _ _) as [user|]; [|intros [= <- _]; right; left; auto].
    destruct (hashPassword (p :: password)) as [h|] eqn:Hh; [|discriminate].
    destruct (strict_eq _ _) eqn:E; cbn [negb]; [discriminate|].
    intros [= <- _]. right. right. exists user, h. split_and!; try done.
    intros Hpw. rewrite Hpw, strict_eq_str in E. discriminate.
  - intros user e He Hp Hfind Hh. unfold login, verifyPassword.
    apply truthy_str_nonempty in He as ->. apply truthy_str_nonempty in Hp as ->.
    cbn [negb orb]. by rewrite Hfind, Hh.
Qed.

(** Alice logs in with her password. *)
Lemma login_cases_witness :
  let user' := <["lastLogin" := VStr (toISOString (t0 + 5))]> alice_account in
  Latin1 (js "longenough")
  /\ login (js "alice@example.com") (js "longenough") (t0 + 5) alice_registered
     = Return (Success (Some MsgLoggedIn) (User (sanitizeUser user')),
               setCurrentUser user' (saveUser user' alice_registered)).
Proof.
  split; [apply Latin1_js|].
  destruct (login_cases (js "alice@example.com") (js "longenough") (t0 + 5)
              alice_registered) as (_ & _ & H & _).
  destruct (H alice_account ltac:(discriminate) ltac:(discriminate) find_alice_by_email
              (Latin1_js "longenough")) as (h & Hh & _ & H').
  apply H'. rewrite hashPassword_Latin1 in Hh by apply Latin1_js.
  injection Hh as <-. reflexivity.
Defined.

(** C5 as stated fails: Alice is registered, and the password 한글비밀번호
    is not hers, yet [login] does not return the failure for a wrong
    password; it raises [InvalidCharacterError] and returns nothing. *)
Lemma login_counterexample :
  let secret := [54620; 44544; 48708; 48128; 48264; 54840] in
  find (fun u : obj => strict_eq (u !! "email") (Some (VStr (js "alice@example.com"))))
    (getUsers alice_registered) = Some alice_account
  /\ verifyPassword secret (alice_account !! "password") <> Return true
  /\ login (js "alice@example.com") secret (t0 + 5) alice_registered
     = Throw InvalidCharacterError
  /\ forall r st',
      login (js "alice@example.com") secret (t0 + 5) alice_registered <> Return (r, st').
Proof.
  intros secret.
  assert (H : login (js "alice@example.com") secret (t0 + 5) alice_registered
              = Throw InvalidCharacterError) by by_evaluation.
  split_and!.
  - exact find_alice_by_email.
  - assert (verifyPassword secret (alice_account !! "password")
            = Throw InvalidCharacterError) as -> by by_evaluation.
    discriminate.
  - exact H.
  - intros r st'. rewrite H. discriminate.
Qed.

(** ** [saveUser] and [find] *)

Lemma find_index {A} (p : A -> bool) l x :
  find p l = Some x ->
  exists i, l !! i = Some x /\ p x = true
            /\ (forall j y, l !! j = Some y -> (j < i)%nat -> p y = false)
            /\ findIndex p l = Some i.
Proof.
  intros (i & Hi & Hp & Hlt)%find_Some. exists i. split_and!; try done.
  apply findIndex_Some. eauto.
Qed.

Lemma find_insert_first {A} (p : A -> bool) l i x x' :
  l !! i = Some x ->
  (forall j y, l !! j = Some y -> (j < i)%nat -> p y = false) ->
  p x' = true ->
  find p (<[i := x']> l) = Some x'.
Proof.
  intros Hi Hlt Hp. apply find_Some. exists i. split_and!; [|done|].
  - apply list_lookup_insert_eq. by eapply lookup_lt_Some.
  - intros j y Hj Hji. rewrite list_lookup_insert_ne in Hj by lia. eauto.
Qed.

(** [saveUser] writes over the first stored account of the same id. *)
Lemma saveUser_replace user' st i :
  findIndex (fun u : obj => strict_eq (u !! "id") (user' !! "id")) (getUsers st) = Some i ->
  saveUser user' st
  = {| USER_STORAGE_KEY := <[i := user']> (getUsers st);
       CURRENT_USER_KEY := CURRENT_USER_KEY st |}.
Proof. intros H. unfold saveUser. by rewrite H. Qed.

(** With no stored account of the same id it adds one at the end. *)
Lemma saveUser_push user' st :
  findIndex (fun u : obj => strict_eq (u !! "id") (user' !! "id")) (getUsers st) = None ->
  saveUser user' st
  = {| USER_STORAGE_KEY := getUsers st ++ [user'];
       CURRENT_USER_KEY := CURRENT_USER_KEY st |}.
Proof. intros H. unfold saveUser. by rewrite H. Qed.

Lemma find_id_Some userId users user :
  find (fun u : obj => strict_eq (u !! "id") (Some (VStr userId))) users = Some user ->
  user !! "id" = Some (VStr userId).
Proof. intros (i & _ & Hp & _)%find_Some. by apply strict_eq_str_true. Qed.

(** Saving a changed copy of the account found under [userId] that still
    has this id puts it where the account was. *)
Lemma saveUser_found userId st user user' :
  find (fun u : obj => strict_eq (u !! "id") (Some (VStr userId))) (getUsers st)
  = Some user ->
  user' !! "id" = Some (VStr userId) ->
  exists i,
    getUsers st !! i = Some user
    /\ (forall j y, getUsers st !! j = Some y -> (j < i)%nat ->
                    strict_eq (y !! "id") (Some (VStr userId)) = false)
    /\ saveUser user' st
       = {| USER_STORAGE_KEY := <[i := user']> (getUsers st);
            CURRENT_USER_KEY := CURRENT_USER_KEY st |}.
Proof.
  intros (i & Hi & Hp & Hlt & Hidx)%find_index Hid. exists i. split_and!; try done.
  apply saveUser_replace. by rewrite Hid.
Qed.

Lemma hashed_updates_lookup updates updates' key :
  hashed_updates updates = Return updates' ->
  key <> "password" -> updates' !! key = updates !! key.
Proof.
  unfold hashed_updates, mret, outcome_ret, mbind, outcome_bind. intros H Hkey.
  destruct (updates !! "password") as [p|]; [|by injection H as <-].
  destruct (truthy (Some p)); [|by injection H as <-].
  destruct (hashPassword _); [|discriminate]. injection H as <-.
  by rewrite lookup_insert_ne.
Qed.

(** ** [updateUser] and the id *)

(** C9, as the code has it. When the patch has no [id], or has the id of
    the account itself, a successful [updateUser] returns the account under
    the id it had, and stores it under this id in place of the account that
    was found. *)
Theorem updateUser_keeps_id (userId : jsstring) (updates : obj) (st st' : localStorage)
    (m : option message) (p : payload) :
  updates !! "id" = None \/ updates !! "id" = Some (VStr userId) ->
  updateUser userId updates st = Return (Success m p, st') ->
  exists user user',
    find (fun u : obj => strict_eq (u !! "id") (Some (VStr userId))) (getUsers st)
    = Some user
    /\ user !! "id" = Some (VStr userId)
    /\ p = User (sanitizeUser user')
    /\ sanitizeUser user' !! "id" = Some (VStr userId)
    /\ find (fun u : obj => strict_eq (u !! "id") (Some (VStr userId))) (getUsers st')
       = Some user'
    /\ user' !! "id" = Some (VStr userId).
Proof.
  intros Hid (user & updates' & Hfind & Hh & _ & -> & Hst)%updateUser_success.
  pose proof (find_id_Some _ _ _ Hfind) as Huid.
  assert (Hid' : (updates' ∪ user) !! "id" = Some (VStr userId)).
  { rewrite lookup_union, (hashed_updates_lookup _ _ "id" Hh) by done.
    destruct Hid as [-> | ->]; rewrite Huid; reflexivity. }
  exists user, (updates' ∪ user). split_and!; try done.
  - by rewrite sanitizeUser_other.
  - destruct (saveUser_found _ _ _ _ Hfind Hid') as (i & Hi & Hlt & Hsave).
    assert (getUsers st' = <[i := updates' ∪ user]> (getUsers st)) as ->.
    { destruct Hst as [-> | ->]; unfold setCurrentUser; rewrite Hsave; reflexivity. }
    eapply find_insert_first; [exact Hi | exact Hlt |].
    by apply strict_eq_str_true.
Qed.

(** Alice changes her name. *)
Lemma updateUser_keeps_id_witness :
  let updates : obj := {[ "name" := VStr (js "Alice B.") ]} in
  exists user',
    updateUser alice_id updates alice_registered
    = Return (Success (Some MsgUpdated) (User (sanitizeUser user')),
              saveUser user' alice_registered)
    /\ sanitizeUser user' !! "id" = Some (VStr alice_id).
Proof.
  intros updates.
  assert (E : updateUser alice_id updates alice_registered
              = Return (Success (Some MsgUpdated)
                          (User (sanitizeUser (updates ∪ alice_account))),
                        saveUser (updates ∪ alice_account) alice_registered))
    by by_evaluation.
  exists (updates ∪ alice_account). split; [exact E|].
  destruct (updateUser_keeps_id alice_id updates alice_registered _ _ _
              (or_introl eq_refl) E)
    as (user & user' & _ & _ & [= <-] & H & _).
  exact H.
Defined.

(** C9 as stated fails: a patch with an [id] of its own gives Alice's
    account this id. The update succeeds, the account it returns has the
    new id, and the store now holds her account twice, under the old id
    and under the new one. *)
Lemma updateUser_keeps_id_counterexample :
  let updates : obj := {[ "id" := VStr (js "other") ]} in
  let user' := updates ∪ alice_account in
  find (fun u : obj => strict_eq (u !! "id") (Some (VStr alice_id)))
    (getUsers alice_registered) = Some alice_account
  /\ updateUser alice_id updates alice_registered
     = Return (Success (Some MsgUpdated) (User (sanitizeUser user')),
               {| USER_STORAGE_KEY := [alice_account; user'];
                  CURRENT_USER_KEY := None |})
  /\ sanitizeUser user' !! "id" = Some (VStr (js "other"))
  /\ sanitizeUser user' !! "id" <> alice_account !! "id".
Proof.
  intros updates user'. split_and!.
  - exact find_alice_by_id.
  - by_evaluation.
  - reflexivity.
  - assert (sanitizeUser user' !! "id" = Some (VStr (js "other"))) as -> by reflexivity.
    assert (alice_account !! "id" = Some (VStr alice_id)) as -> by reflexivity.
    discriminate.
Qed.

(** ** The records of the ledger *)

Lemma record_date prefix input now :
  record prefix input now !! "date" = Some (VStr (toISOString now)).
Proof. apply lookup_insert_eq. Qed.

Lemma record_id_absent prefix input now :
  input !! "id" = None ->
  record prefix input now !! "id" = Some (VStr (prefix ++ decimal now)).
Proof.
  intros H. unfold record.
  rewrite lookup_insert_ne, lookup_union_r, lookup_singleton_eq by done. reflexivity.
Qed.

(** The caller's [id] stands: it is written after the one of the ledger. *)
Lemma record_id_present prefix input now v :
  input !! "id" = Some v -> record prefix input now !! "id" = Some v.
Proof.
  intros H. unfold record. rewrite lookup_insert_ne by done.
  by apply lookup_union_Some_l.
Qed.

Lemma record_other prefix input now key :
  key <> "id" -> key <> "date" -> record prefix input now !! key = input !! key.
Proof.
  intros H1 H2. unfold record. rewrite lookup_insert_ne by done.
  destruct (input !! key) as [v|] eqn:E.
  - by apply lookup_union_Some_l.
  - rewrite lookup_union_r by done. by apply lookup_singleton_ne.
Qed.

(** After a successful [addConsultationHistory] the account found under
    the id has the new record at position 0 of its history. *)
Lemma addConsultationHistory_head userId consultation now st m p st' :
  addConsultationHistory userId consultation now st = Return (Success m p, st') ->
  exists (user' : obj) l,
    find (fun u : obj => strict_eq (u !! "id") (Some (VStr userId))) (getUsers st')
    = Some user'
    /\ user' !! "consultationHistory"
       = Some (VArr (VObj (record (js "consult_") consultation now) :: l))
    /\ p = Consultation (record (js "consult_") consultation now).
Proof.
  unfold addConsultationHistory, mret, outcome_ret, mbind, outcome_bind.
  destruct (find _ _) as [user|] eqn:Hfind; [|discriminate].
  destruct (history _) as [l|]; [|discriminate].
  match goal with |- context [saveUser ?u st] => set (user' := u) end.
  intros [= <- <- <-].
  assert (Hid' : user' !! "id" = Some (VStr userId)).
  { unfold user'. rewrite lookup_insert_ne by done. by eapply find_id_Some. }
  destruct (saveUser_found _ _ _ _ Hfind Hid') as (i & Hi & Hlt & ->).
  exists user', l. split_and!; [| apply lookup_insert_eq | done].
  eapply find_insert_first; [exact Hi | exact Hlt |]. by apply strict_eq_str_true.
Qed.

(** C3 on the code. A purchase and a consultation that bring an [id] and a
    [date] of their own are stored at position 0 of Alice's histories with
    the [date] of the ledger, with their other fields as given, and with
    the [id] of the caller, not one of the ledger. *)
Theorem history_record_id_from_caller :
  let input : obj := list_to_map [
    ("id", VStr (js "mine"));
    ("date", VStr (js "1999-12-31"));
    ("type", VStr (js "gift"))
  ] in
  let purchaseRecord := record (js "purchase_") input (t0 + 7) in
  let consultationRecord := record (js "consult_") input (t0 + 7) in
  addPurchaseHistory KST alice_id input (t0 + 7) alice_registered
  = Return (Success None (Purchase purchaseRecord),
            saveUser (<["purchaseHistory" := VArr [VObj purchaseRecord]]> alice_account)
              alice_registered)
  /\ addConsultationHistory alice_id input (t0 + 7) alice_registered
     = Return (Success None (Consultation consultationRecord),
               saveUser (<["consultationHistory" := VArr [VObj consultationRecord]]>
                           alice_account) alice_registered)
  /\ purchaseRecord !! "id" = Some (VStr (js "mine"))
  /\ consultationRecord !! "id" = Some (VStr (js "mine"))
  /\ purchaseRecord !! "date" = Some (VStr (toISOString (t0 + 7)))
  /\ consultationRecord !! "date" = Some (VStr (toISOString (t0 + 7)))
  /\ purchaseRecord !! "type" = Some (VStr (js "gift"))
  /\ consultationRecord !! "type" = Some (VStr (js "gift")).
Proof.
  intros input purchaseRecord consultationRecord. split_and!.
  - by_evaluation.
  - by_evaluation.
  - by apply record_id_present.
  - by apply record_id_present.
  - apply record_date.
  - apply record_date.
  - etrans; [by apply record_other | reflexivity].
  - etrans; [by apply record_other | reflexivity].
Qed.

(** ** One account for each email *)

Lemma distinct_insert key users i (x u' : obj) :
  distinct key users -> users !! i = Some x ->
  (forall j (v : obj), j <> i -> users !! j = Some v ->
                       strict_eq (v !! key) (u' !! key) = false) ->
  distinct key (<[i := u']> users).
Proof.
  intros Hu Hi Hne j k a b Hj Hk Heq.
  apply list_lookup_insert_Some in Hj as [(<- & <- & _) | (Hij & Hj)];
    apply list_lookup_insert_Some in Hk as [(<- & <- & _) | (Hik & Hk)]; try done.
  - rewrite strict_eq_sym, (Hne k b) in Heq by done. discriminate.
  - rewrite (Hne j a) in Heq by done. discriminate.
  - eauto.
Qed.

Lemma distinct_push key users (u' : obj) :
  distinct key users ->
  (forall j (v : obj), users !! j = Some v -> strict_eq (v !! key) (u' !! key) = false) ->
  distinct key (users ++ [u']).
Proof.
  intros Hu Hne j k a b Hj Hk Heq.
  apply lookup_app_Some in Hj as [Hj | [Hj1 Hj2]];
    apply lookup_app_Some in Hk as [Hk | [Hk1 Hk2]].
  - eauto.
  - apply list_lookup_singleton_Some in Hk2 as [_ <-].
    rewrite (Hne j a) in Heq by done. discriminate.
  - apply list_lookup_singleton_Some in Hj2 as [_ <-].
    rewrite strict_eq_sym, (Hne k b) in Heq by done. discriminate.
  - apply list_lookup_singleton_Some in Hj2 as [Hj2 _].
    apply list_lookup_singleton_Some in Hk2 as [Hk2 _]. lia.
Qed.

(** [saveUser] keeps the accounts well formed when the account it saves has
    a string for its id and an email that no account of another id has. *)
Lemma saveUser_well_formed (u' : obj) st :
  well_formed (getUsers st) ->
  (exists s, u' !! "id" = Some (VStr s)) ->
  (forall j (v : obj), getUsers st !! j = Some v ->
                       strict_eq (v !! "id") (u' !! "id") = false ->
                       strict_eq (v !! "email") (u' !! "email") = false) ->
  well_formed (getUsers (saveUser u' st)).
Proof.
  intros (Hs & Hid & Hem) [s Hu'] Hother. unfold saveUser.
  destruct (findIndex _ _) as [i|] eqn:Hidx; cbn [getUsers USER_STORAGE_KEY].
  - apply findIndex_Some in Hidx as (x & Hi & Hx & _).
    apply strict_eq_true in Hx.
    assert (Hrest : forall j (v : obj), j <> i -> getUsers st !! j = Some v ->
                      strict_eq (v !! "id") (u' !! "id") = false).
    { intros j v Hji Hj. destruct (strict_eq _ _) eqn:E; [|done].
      destruct Hji. apply (Hid j i v x Hj Hi). by rewrite Hx. }
    split_and!.
    + intros j v [(<- & <- & _) | (_ & Hj)]%list_lookup_insert_Some; eauto.
    + eapply distinct_insert; eauto.
    + eapply distinct_insert; eauto.
  - apply findIndex_find in Hidx. rewrite find_None in Hidx. split_and!.
    + intros j v [Hj | [_ [_ <-]%list_lookup_singleton_Some]]%lookup_app_Some; eauto.
    + apply distinct_push; eauto.
    + apply distinct_push; eauto.
Qed.

(** The same for a changed copy of a stored account that keeps its id and
    its email. *)
Lemma saveUser_copy_well_formed (u u' : obj) st i :
  well_formed (getUsers st) ->
  getUsers st !! i = Some u ->
  u' !! "id" = u !! "id" -> u' !! "email" = u !! "email" ->
  well_formed (getUsers (saveUser u' st)).
Proof.
  intros Hwf Hi Hid Hem. pose proof Hwf as (Hs & Huid & Huem).
  destruct (Hs i u Hi) as [s Hsid].
  apply saveUser_well_formed; [done | exists s; congruence |].
  intros j v Hj Hne. rewrite Hid in Hne. rewrite Hem.
  destruct (strict_eq (v !! "email") _) eqn:E; [|done].
  assert (j = i) as -> by eauto. simplify_eq.
  rewrite Hsid, strict_eq_str in Hne. discriminate.
Qed.

Lemma find_lookup {A} (p : A -> bool) l x :
  find p l = Some x -> exists i, l !! i = Some x.
Proof. intros (i & Hi & _)%find_Some. eauto. Qed.

Lemma updateUser_well_formed userId updates st :
  keeps_identity (UpdateUser userId updates) ->
  well_formed (getUsers st) ->
  well_formed (getUsers (stored (updateUser userId updates st) st)).
Proof.
  intros [Hid Hem] Hwf.
  destruct (updateUser userId updates st) as [[[m | m p] st']|] eqn:E;
    cbn [stored]; try done.
  { by apply updateUser_failure in E as ->. }
  apply updateUser_success in E
    as (user & updates' & Hfind & Hh & Hc & _ & Hst).
  pose proof (find_id_Some _ _ _ Hfind) as Huid.
  assert (Hid' : (updates' ∪ user) !! "id" = Some (VStr userId)).
  { rewrite lookup_union, (hashed_updates_lookup _ _ "id" Hh) by done.
    destruct Hid as [-> | ->]; rewrite Huid; reflexivity. }
  assert (Hem' : updates' !! "email" = updates !! "email")
    by (by apply (hashed_updates_lookup _ _ "email" Hh)).
  assert (well_formed (getUsers (saveUser (updates' ∪ user) st))) as Hgoal;
    [| by destruct Hst as [-> | ->]].
  destruct (find_lookup _ _ _ Hfind) as [i Hi].
  destruct Hem as [Hnone | Htruthy].
  { eapply saveUser_copy_well_formed; [done | exact Hi | congruence |].
    rewrite lookup_union, Hem', Hnone. by destruct (user !! "email"). }
  rewrite Hem', Htruthy in Hc. cbn [andb] in Hc.
  destruct (strict_eq (updates !! "email") (user !! "email")) eqn:Heq.
  { apply strict_eq_true in Heq.
    eapply saveUser_copy_well_formed; [done | exact Hi | congruence |].
    rewrite lookup_union, Hem', Heq. by destruct (user !! "email"). }
  cbn [negb andb] in Hc. apply bool_decide_eq_false in Hc.
  apply saveUser_well_formed; [done | eauto |].
  intros j v Hj Hne. rewrite Hid' in Hne.
  assert (Hu'em : (updates' ∪ user) !! "email" = updates !! "email").
  { rewrite lookup_union, Hem'. destruct (updates !! "email"); [|done].
    by destruct (user !! "email"). }
  rewrite Hu'em.
  destruct (find (fun u : obj => strict_eq (u !! "email") (updates !! "email")
                                 && negb (strict_eq (u !! "id") (Some (VStr userId))))
              (getUsers st)) as [w|] eqn:Hw; [destruct Hc; eauto|].
  rewrite find_None in Hw. specialize (Hw j v Hj).
  rewrite Hne in Hw. cbn [negb] in Hw. by rewrite andb_true_r in Hw.
Qed.

Lemma find_copy_well_formed (p : obj -> bool) (u u' : obj) st :
  well_formed (getUsers st) ->
  find p (getUsers st) = Some u ->
  u' !! "id" = u !! "id" -> u' !! "email" = u !! "email" ->
  well_formed (getUsers (saveUser u' st)).
Proof.
  intros Hwf [i Hi]%find_lookup. by eapply saveUser_copy_well_formed.
Qed.

Lemma exec_well_formed tz c st :
  keeps_identity c -> well_formed (getUsers st) -> well_formed (getUsers (exec tz c st)).
Proof.
  intros Hc Hwf. destruct c; cbn [exec].
  - unfold initializeUsers, mret, outcome_ret, mbind, outcome_bind.
    destruct (getUsers st) as [| u0 us] eqn:Hus; [|by rewrite Hus].
    destruct (hashPassword _); [|by rewrite Hus].
    apply saveUser_well_formed; [by rewrite Hus | by eexists |].
    intros j v Hj. rewrite Hus in Hj. discriminate.
  - destruct (register userData now rnd st) as [[[m | m p] st']|] eqn:E;
      cbn [stored]; try done.
    { by apply register_failure in E as ->. }
    apply register_success in E
      as (email & newUser & _ & Hfind & Hem & Hid & _ & ->).
    apply saveUser_well_formed; [done | eauto |].
    intros j v Hj _. rewrite Hem. rewrite find_None in Hfind. eauto.
  - destruct (login email password now st) as [[[m | m p] st']|] eqn:E;
      cbn [stored]; try done.
    { by apply login_failure in E as ->. }
    apply login_success in E as (user & Hfind & _ & _ & ->).
    cbn [setCurrentUser getUsers USER_STORAGE_KEY]. fold (getUsers (saveUser
      (<["lastLogin" := VStr (toISOString now)]> user) st)).
    eapply find_copy_well_formed; [done | exact Hfind | | ]; by rewrite lookup_insert_ne.
  - done.
  - done.
  - by apply updateUser_well_formed.
  - unfold saveSajuData.
    destruct (find _ _) as [user|] eqn:Hfind; [|done].
    assert (well_formed (getUsers (saveUser
              (<["sajuCalculatedAt" := VStr (toISOString now)]>
                 (<["sajuData" := sajuData]> user)) st))) as H.
    { eapply find_copy_well_formed; [done | exact Hfind | | ];
        by rewrite !lookup_insert_ne. }
    cbn [snd]. unfold getCurrentUser. cbn [saveUser CURRENT_USER_KEY].
    destruct (CURRENT_USER_KEY st); [|exact H].
    destruct (strict_eq _ _); exact H.
  - unfold addPurchaseHistory, mret, outcome_ret, mbind, outcome_bind.
    destruct (find _ _) as [user|] eqn:Hfind; [|done].
    destruct (history _) as [l|]; [|done].
    match goal with |- context [saveUser ?u st] => set (user' := u) end.
    assert (H : well_formed (getUsers (saveUser user' st))).
    { eapply find_copy_well_formed; [done | exact Hfind | | ];
        unfold user'; by rewrite lookup_insert_ne. }
    destruct (_ || _); [|exact H].
    match goal with |- context [updateUser userId ?u ?s] =>
      pose proof (updateUser_well_formed userId u s) as H'
    end.
    destruct (updateUser _ _ _) as [[r st2]|]; cbn [stored] in *.
    + apply H'; [|exact H]. split; by left.
    + done.
  - unfold addConsultationHistory, mret, outcome_ret, mbind, outcome_bind.
    destruct (find _ _) as [user|] eqn:Hfind; [|done].
    destruct (history _) as [l|]; [|done]. cbn [stored].
    eapply find_copy_well_formed; [done | exact Hfind | | ];
      by rewrite lookup_insert_ne.
  - unfold resetPassword, mret, outcome_ret, mbind, outcome_bind.
    destruct (find _ _) as [user|] eqn:Hfind; [|done].
    destruct (hashPassword _) as [h|]; [|done]. cbn [stored].
    eapply find_copy_well_formed; [done | exact Hfind | | ];
      by rewrite lookup_insert_ne.
Qed.

Lemma run_well_formed tz calls :
  Forall keeps_identity calls -> well_formed (getUsers (run tz calls)).
Proof.
  induction calls as [| c calls IH] using rev_ind; intros Hcalls.
  - split_and!; [intros i u H | intros i j u v H _ _ | intros i j u v H _ _];
      cbn in H; by rewrite lookup_nil in H.
  - apply Forall_app in Hcalls as [Hcalls Hc]. rewrite Forall_singleton in Hc.
    rewrite run_snoc. apply exec_well_formed; [exact Hc | exact (IH Hcalls)].
Qed.

Lemma saveUser_cases user st :
  (exists i (x : obj),
      getUsers st !! i = Some x /\ x !! "id" = user !! "id"
      /\ getUsers (saveUser user st) = <[i := user]> (getUsers st))
  \/ (find (fun u : obj => strict_eq (u !! "id") (user !! "id")) (getUsers st) = None
      /\ getUsers (saveUser user st) = getUsers st ++ [user]).
Proof.
  unfold saveUser. destruct (findIndex _ _) as [i|] eqn:Hidx; cbn [getUsers USER_STORAGE_KEY].
  - left. apply findIndex_Some in Hidx as (x & Hi & Hx & _).
    exists i, x. split_and!; [done | by apply strict_eq_true | done].
  - right. split; [by apply findIndex_find | done].
Qed.

Lemma saveUser_Forall (P : obj -> Prop) user st :
  P user -> Forall P (getUsers st) -> Forall P (getUsers (saveUser user st)).
Proof.
  intros Hu Hst.
  destruct (saveUser_cases user st) as [(i & x & _ & _ & ->) | [_ ->]].
  - by apply Forall_insert.
  - apply Forall_app. split; [done | by constructor].
Qed.

Lemma find_Forall {A} (P : A -> Prop) (p : A -> bool) l x :
  Forall P l -> find p l = Some x -> P x.
Proof.
  intros Hl [i Hi]%find_lookup. rewrite Forall_lookup in Hl. eauto.
Qed.

(** On primitives [===] is equality. *)
Lemma strict_eq_refl v : primitive v -> strict_eq v v = true.
Proof.
  destruct v as [[]|]; cbn [primitive strict_eq]; try done; intros _.
  - by apply bool_decide_eq_true.
  - apply Z.eqb_refl.
  - by apply bool_decide_eq_true.
Qed.


(** Where every account has a primitive under the key, accounts that
    [===] tells apart are different. *)
Lemma distinct_unique key users :
  distinct key users ->
  Forall (fun u : obj => primitive (u !! key)) users ->
  unique key users.
Proof.
  intros Hd Hp i j u v Hi Hj Heq. apply (Hd i j u v Hi Hj).
  rewrite Forall_lookup in Hp. rewrite <- Heq. apply strict_eq_refl. eauto.
Qed.

Lemma string_ids_primitive users :
  string_ids users -> Forall (fun u : obj => primitive (u !! "id")) users.
Proof.
  intros Hs. apply Forall_lookup. intros i u Hi.
  by destruct (Hs i u Hi) as [s ->].
Qed.











(** A patch with a falsy [email] does the same: the check is skipped for
    it, and two accounts end with the empty email. *)
Lemma emails_stay_unique_falsy_email :
  let calls := [
    Register alice t0 (js "k3j9x0q1z");
    Register bob (t0 + 2) (js "p0o9i8u7y");
    UpdateUser alice_id {[ "email" := VStr [] ]};
    UpdateUser (generateUserId (t0 + 2) (js "p0o9i8u7y")) {[ "email" := VStr [] ]}
  ] in
  (fun u : obj => u !! "email") <$> getUsers (run KST calls)
  = [Some (VStr []); Some (VStr [])]
  /\ ~ unique "email" (getUsers (run KST calls)).
Proof.
  intros calls.
  assert (E : (fun u : obj => u !! "email") <$> getUsers (run KST calls)
              = [Some (VStr []); Some (VStr [])]) by by_evaluation.
  split; [exact E|]. intros H.
  destruct (getUsers (run KST calls)) as [| u [| v [| w l]]]; try discriminate E.
  injection E as Eu Ev.
  specialize (H 0%nat 1%nat u v eq_refl eq_refl). rewrite Eu, Ev in H.
  specialize (H eq_refl). discriminate H.
Qed.

(** So does a patch with an array for its [email]: two arrays are never
    the same to [===], the check finds no account with the email, and two
    accounts end with the same array. *)
Lemma emails_stay_unique_array_email :
  let calls := [
    Register alice t0 (js "k3j9x0q1z");
    Register bob (t0 + 2) (js "p0o9i8u7y");
    UpdateUser alice_id {[ "email" := VArr [VStr (js "a@example.com")] ]};
    UpdateUser (generateUserId (t0 + 2) (js "p0o9i8u7y"))
      {[ "email" := VArr [VStr (js "a@example.com")] ]}
  ] in
  Forall keeps_identity calls
  /\ (fun u : obj => u !! "email") <$> getUsers (run KST calls)
     = [Some (VArr [VStr (js "a@example.com")]); Some (VArr [VStr (js "a@example.com")])]
  /\ ~ unique "email" (getUsers (run KST calls)).
Proof.
  intros calls.
  assert (E : (fun u : obj => u !! "email") <$> getUsers (run KST calls)
              = [Some (VArr [VStr (js "a@example.com")]);
                 Some (VArr [VStr (js "a@example.com")])]) by by_evaluation.
  split_and!; [repeat constructor; by right | exact E |]. intros H.
  destruct (getUsers (run KST calls)) as [| u [| v [| w l]]]; try discriminate E.
  injection E as Eu Ev.
  specialize (H 0%nat 1%nat u v eq_refl eq_refl). rewrite Eu, Ev in H.
  specialize (H eq_refl). discriminate H.
Qed.

(** ** Premium membership *)

Import JSDateFacts.

(** What [updateUser] does when it goes through. *)
Lemma updateUser_ok userId updates updates' st (user : obj) :
  find (fun u : obj => strict_eq (u !! "id") (Some (VStr userId))) (getUsers st)
  = Some user ->
  hashed_updates updates = Return updates' ->
  truthy (updates' !! "email") = false ->
  updateUser userId updates st
  = Return (Success (Some MsgUpdated) (User (sanitizeUser (updates' ∪ user))),
            match getCurrentUser st with
            | Some currentUser =>
                if strict_eq (currentUser !! "id") (Some (VStr userId))
                then setCurrentUser (updates' ∪ user) (saveUser (updates' ∪ user) st)
                else saveUser (updates' ∪ user) st
            | None => saveUser (updates' ∪ user) st
            end).
Proof.
  intros Hfind Hh Hem. unfold updateUser. rewrite Hfind, Hh.
  unfold mret, outcome_ret, mbind, outcome_bind. rewrite Hem. reflexivity.
Qed.

(** A monthly premium purchase by the current user makes the current user
    premium until one month on. *)
Lemma addPurchaseHistory_monthly tz userId purchase now st (cu : obj) m p st' :
  getCurrentUser st = Some cu ->
  cu !! "id" = Some (VStr userId) ->
  purchase !! "type" = Some (VStr (js "premium_monthly")) ->
  addPurchaseHistory tz userId purchase now st = Return (Success m p, st') ->
  exists u,
    getCurrentUser st' = Some u
    /\ u !! "membershipType" = Some (VStr (js "premium"))
    /\ u !! "premiumExpiry"
       = Some (VStr (toISOString (setMonth tz now (getMonth tz now + 1)))).
Proof.
  intros Hcu Hcuid Htype. unfold addPurchaseHistory.
  unfold mret, outcome_ret, mbind, outcome_bind.
  destruct (find _ _) as [user|] eqn:Hfind; [|discriminate].
  destruct (history _) as [l|]; [|discriminate].
  rewrite Htype, strict_eq_str.
  change (strict_eq (Some (VStr (js "premium_monthly")))
            (Some (VStr (js "premium_yearly")))) with false.
  cbn [orb]. fold (premium_patch (setMonth tz now (getMonth tz now + 1))).
  match goal with |- context [saveUser ?u st] => set (user' := u) end.
  assert (Hid' : user' !! "id" = Some (VStr userId)).
  { unfold user'. rewrite lookup_insert_ne by done. by eapply find_id_Some. }
  destruct (saveUser_found _ _ _ _ Hfind Hid') as (i & Hi & Hlt & Hsave).
  set (patch := premium_patch _).
  rewrite (updateUser_ok userId patch patch (saveUser user' st) user'); [| | done | done].
  2: { rewrite Hsave. cbn [getUsers USER_STORAGE_KEY].
       eapply find_insert_first; [exact Hi | exact Hlt |]. by apply strict_eq_str_true. }
  unfold getCurrentUser in *. rewrite saveUser_current, Hcu, Hcuid, strict_eq_str.
  intros [= _ _ <-]. exists (sanitizeUser (patch ∪ user')).
  split_and!; [done | |].
  - rewrite sanitizeUser_other by done. by apply lookup_union_Some_l.
  - rewrite sanitizeUser_other by done. by apply lookup_union_Some_l.
Qed.

(** After a successful [addPurchaseHistory] the account found under the id
    has the new record at position 0 of its history, whether or not the
    purchase changed the membership. *)
Lemma addPurchaseHistory_head tz userId purchase now st m p st' :
  addPurchaseHistory tz userId purchase now st = Return (Success m p, st') ->
  exists (user' : obj) l,
    find (fun u : obj => strict_eq (u !! "id") (Some (VStr userId))) (getUsers st')
    = Some user'
    /\ user' !! "purchaseHistory"
       = Some (VArr (VObj (record (js "purchase_") purchase now) :: l))
    /\ p = Purchase (record (js "purchase_") purchase now).
Proof.
  unfold addPurchaseHistory, mret, outcome_ret, mbind, outcome_bind.
  destruct (find _ _) as [user|] eqn:Hfind; [|discriminate].
  destruct (history _) as [l|]; [|discriminate].
  match goal with |- context [saveUser ?u st] => set (user' := u) end.
  assert (Hid' : user' !! "id" = Some (VStr userId)).
  { unfold user'. rewrite lookup_insert_ne by done. by eapply find_id_Some. }
  assert (Hh' : user' !! "purchaseHistory"
                = Some (VArr (VObj (record (js "purchase_") purchase now) :: l)))
    by apply lookup_insert_eq.
  destruct (saveUser_found _ _ _ _ Hfind Hid') as (i & Hi & Hlt & Hsave).
  assert (Hfind1 : find (fun u : obj => strict_eq (u !! "id") (Some (VStr userId)))
                     (getUsers (saveUser user' st)) = Some user').
  { rewrite Hsave. cbn [getUsers USER_STORAGE_KEY].
    eapply find_insert_first; [exact Hi | exact Hlt |]. by apply strict_eq_str_true. }
  destruct (_ || _).
  - match goal with |- context [updateUser userId ?u _] => set (patch := u) end.
    rewrite (updateUser_ok userId patch patch (saveUser user' st) user');
      [| exact Hfind1 | done | done].
    assert (Hid2 : (patch ∪ user') !! "id" = Some (VStr userId)).
    { rewrite lookup_union_r; [exact Hid' | done]. }
    destruct (saveUser_found _ _ _ _ Hfind1 Hid2) as (k & Hk & Hlt' & Hsave').
    assert (Hfind2 : find (fun u : obj => strict_eq (u !! "id") (Some (VStr userId)))
                       (getUsers (saveUser (patch ∪ user') (saveUser user' st)))
                     = Some (patch ∪ user')).
    { rewrite Hsave'. cbn [getUsers USER_STORAGE_KEY].
      eapply find_insert_first; [exact Hk | exact Hlt' |]. by apply strict_eq_str_true. }
    destruct (getCurrentUser (saveUser user' st)) as [cu|];
      [destruct (strict_eq (cu !! "id") _)|];
      intros [= <- <- <-]; exists (patch ∪ user'), l;
      (split_and!; [exact Hfind2 | rewrite lookup_union_r; [exact Hh' | done] | done]).
  - intros [= <- <- <-]. exists user', l. split_and!; done.
Qed.

Lemma isPremiumUser_expiry now st (u : obj) e :
  getCurrentUser st = Some u ->
  u !! "membershipType" = Some (VStr (js "premium")) ->
  u !! "premiumExpiry" = Some (VStr (toISOString e)) ->
  valid_time e ->
  isPremiumUser now st = (now <? e).
Proof.
  intros Hu Hm He Hv. unfold isPremiumUser. rewrite Hu, Hm, strict_eq_str, He.
  rewrite construct_toISOString by done.
  assert (truthy (Some (VStr (toISOString e))) = true) as ->; [|done].
  apply truthy_str_nonempty, toISOString_nonempty.
Qed.

(** C7. [isPremiumUser] is false when the membership of the current user is
    not premium. When it is premium, the answer is true for an expiry that
    is [null], and for an expiry that is a date it is true exactly when the
    expiry is after now. So, after the current user has bought
    [premium_monthly] at [t0], it is true 15 days later and false two
    months later, in every time zone: the expiry is the same local time
    of the next month, more than 26 and less than 33 days after [t0] (28
    to 31 days of the calendar, and what the offset of local time changes
    by in between), so it is true until 26 days have passed and false
    once 33 days have. *)
Theorem isPremiumUser_spec :
  (forall now st (u : obj),
      getCurrentUser st = Some u ->
      u !! "membershipType" <> Some (VStr (js "premium")) ->
      isPremiumUser now st = false)
  /\ (forall now st (u : obj),
         getCurrentUser st = Some u ->
         u !! "membershipType" = Some (VStr (js "premium")) ->
         u !! "premiumExpiry" = Some VNull ->
         isPremiumUser now st = true)
  /\ (forall now st (u : obj) expiry,
         getCurrentUser st = Some u ->
         u !! "membershipType" = Some (VStr (js "premium")) ->
         u !! "premiumExpiry" = Some (VStr (toISOString expiry)) ->
         valid_time expiry ->
         (isPremiumUser now st = true <-> now < expiry))
  /\ (forall LocalTZA userId purchase t0 st (cu : obj) m p st',
         offsets_within_a_day LocalTZA ->
         - 8640000000000000 <= t0 <= 8640000000000000 - 33 * msPerDay ->
         getCurrentUser st = Some cu ->
         cu !! "id" = Some (VStr userId) ->
         purchase !! "type" = Some (VStr (js "premium_monthly")) ->
         addPurchaseHistory LocalTZA userId purchase t0 st = Return (Success m p, st') ->
         isPremiumUser (t0 + 15 * msPerDay) st' = true
         /\ isPremiumUser (setMonth LocalTZA t0 (getMonth LocalTZA t0 + 2)) st' = false
         /\ (forall now, now <= t0 + 26 * msPerDay -> isPremiumUser now st' = true)
         /\ (forall now, t0 + 33 * msPerDay <= now -> isPremiumUser now st' = false)).
Proof.
  split_and!.
  - intros now st u Hu Hm. unfold isPremiumUser. rewrite Hu.
    destruct (strict_eq _ _) eqn:E; [|done]. by apply strict_eq_str_true in E.
  - intros now st u Hu Hm He. unfold isPremiumUser.
    by rewrite Hu, Hm, strict_eq_str, He.
  - intros now st u e Hu Hm He Hv.
    rewrite (isPremiumUser_expiry now st u e) by done. apply Z.ltb_lt.
  - intros tz userId purchase t0 st cu m p st' Hoff Ht0 Hcu Hid Htype Hadd.
    destruct (addPurchaseHistory_monthly _ _ _ _ _ _ _ _ _ Hcu Hid Htype Hadd)
      as (u & Hu & Hm & He).
    pose proof (setMonth_next tz t0 Hoff) as Hnext.
    pose proof (setMonth_next2 tz t0 Hoff) as Hnext2.
    assert (Hv : valid_time (setMonth tz t0 (getMonth tz t0 + 1))).
    { unfold valid_time, msPerDay in *. lia. }
    rewrite !(isPremiumUser_expiry _ st' u _ Hu Hm He Hv).
    unfold msPerDay in *. split_and!.
    + apply Z.ltb_lt. lia.
    + apply Z.ltb_ge. lia.
    + intros now Hnow. rewrite (isPremiumUser_expiry _ st' u _ Hu Hm He Hv).
      apply Z.ltb_lt. lia.
    + intros now Hnow. rewrite (isPremiumUser_expiry _ st' u _ Hu Hm He Hv).
      apply Z.ltb_ge. lia.
Qed.

Lemma isPremiumUser_spec_witness :
  let purchase : obj := {[ "type" := VStr (js "premium_monthly") ]} in
  let st' := exec KST (AddPurchaseHistory alice_id purchase (t0 + 9)) alice_logged_in in
  addPurchaseHistory KST alice_id purchase (t0 + 9) alice_logged_in
  = Return (Success None (Purchase (record (js "purchase_") purchase (t0 + 9))), st')
  /\ isPremiumUser (t0 + 9 + 15 * msPerDay) st' = true
  /\ isPremiumUser (setMonth KST (t0 + 9) (getMonth KST (t0 + 9) + 2)) st' = false
  /\ (forall now, now <= t0 + 9 + 26 * msPerDay -> isPremiumUser now st' = true)
  /\ (forall now, t0 + 9 + 33 * msPerDay <= now -> isPremiumUser now st' = false).
Proof.
  intros purchase st'.
  assert (E : addPurchaseHistory KST alice_id purchase (t0 + 9) alice_logged_in
              = Return (Success None (Purchase (record (js "purchase_") purchase (t0 + 9))),
                        st')) by by_evaluation.
  split; [exact E|].
  refine (proj2 (proj2 (proj2 isPremiumUser_spec)) KST alice_id purchase (t0 + 9)
            alice_logged_in
            (sanitizeUser (<["lastLogin" := VStr (toISOString (t0 + 5))]> alice_account))
            _ _ st' _ _ _ _ _ E).
  - intros t isUTC. unfold KST, msPerDay. lia.
  - unfold t0, msPerDay. lia.
  - by_evaluation.
  - reflexivity.
  - reflexivity.
Defined.

(** ** The consultations of today *)

Lemma count_today_dated tz now (l : list value) (ts : list Z) :
  Forall2 dated l ts ->
  count_today tz (toDateString tz (Some now)) l = Return (length (same_day tz now ts)).
Proof.
  induction 1 as [| c t l ts (o & -> & Hd & Hv) _ IH]; [reflexivity|].
  cbn [count_today date_of]. unfold mret, outcome_ret, mbind, outcome_bind in *.
  rewrite IH, Hd, construct_toISOString by done.
  unfold same_day. rewrite filter_cons. cbn [toDateString fmap option_fmap option_map].
  destruct (decide (Day (LocalTime tz t) = Day (LocalTime tz now))) as [E | E].
  - rewrite bool_decide_eq_true_2 by congruence. reflexivity.
  - rewrite bool_decide_eq_false_2 by congruence. reflexivity.
Qed.

(** C8. For a stored account whose consultation history holds records dated
    by the ledger, [getTodayConsultationCount] is the number of records
    whose date falls on the local calendar day of now; with three records
    of today and two of yesterday it is 3. *)
Theorem getTodayConsultationCount_spec (LocalTZA : Z -> bool -> Z) (userId : jsstring) (now : Z)
    (st : localStorage) (user : obj) (l : list value) :
  find (fun u : obj => strict_eq (u !! "id") (Some (VStr userId))) (getUsers st)
  = Some user ->
  user !! "consultationHistory" = Some (VArr l) ->
  (forall ts,
      Forall2 dated l ts ->
      getTodayConsultationCount LocalTZA userId now st
      = Return (length (same_day LocalTZA now ts)))
  /\ (forall a b c d e,
         Forall2 dated l [a; b; c; d; e] ->
         Day (LocalTime LocalTZA a) = Day (LocalTime LocalTZA now) ->
         Day (LocalTime LocalTZA b) = Day (LocalTime LocalTZA now) ->
         Day (LocalTime LocalTZA c) = Day (LocalTime LocalTZA now) ->
         Day (LocalTime LocalTZA d) = Day (LocalTime LocalTZA now) - 1 ->
         Day (LocalTime LocalTZA e) = Day (LocalTime LocalTZA now) - 1 ->
         getTodayConsultationCount LocalTZA userId now st = Return 3%nat).
Proof.
  intros Hfind Hh.
  assert (Hcount : forall ts,
             Forall2 dated l ts ->
             getTodayConsultationCount LocalTZA userId now st
             = Return (length (same_day LocalTZA now ts))).
  { intros ts Hts. unfold getTodayConsultationCount. rewrite Hfind, Hh.
    cbn [truthy negb]. by apply count_today_dated. }
  split; [exact Hcount|].
  intros a b c d e Hts Ha Hb Hc Hd He. rewrite (Hcount _ Hts). unfold same_day.
  rewrite !filter_cons, filter_nil.
  rewrite !decide_True by done. rewrite !decide_False by lia. reflexivity.
Qed.

Lemma getTodayConsultationCount_spec_witness :
  let st := run KST alice_consultations in
  let user := <["consultationHistory" := VArr alice_history]> alice_account in
  find (fun u : obj => strict_eq (u !! "id") (Some (VStr alice_id))) (getUsers st)
  = Some user
  /\ getTodayConsultationCount KST alice_id (t0 + 7200000) st = Return 3%nat.
Proof.
  intros st user.
  assert (Hfind : find (fun u : obj => strict_eq (u !! "id") (Some (VStr alice_id)))
                    (getUsers st) = Some user) by by_evaluation.
  split; [exact Hfind|].
  refine (proj2 (getTodayConsultationCount_spec KST alice_id (t0 + 7200000) st user
                   alice_history Hfind _)
            (t0 + 3600000) t0 (t0 - 57600000) (t0 - 82800000) (t0 - 86400000)
            _ _ _ _ _ _); try reflexivity.
  repeat constructor; eexists; (split; [reflexivity|]);
    (split; [apply record_date | unfold valid_time, t0; lia]).
Defined.

(** ** The shapes that the validators accept *)

Module RegexFacts.

Import Regex.

Lemma nullable_matches r : nullable r = true <-> matches r [].
Proof.
  induction r as [| | p | r IHr s IHs | r IHr s IHs | r IHr]; cbn [nullable].
  - split; [discriminate | inversion 1].
  - split; [constructor | done].
  - split; [discriminate | inversion 1].
  - rewrite andb_true_iff, IHr, IHs. split.
    + intros [Hr Hs]. by apply (MSeq r s [] []).
    + inversion 1 as [| | r' s' u v Hu Hv E1 E2 | | | |]; subst.
      apply app_eq_nil in E2 as [-> ->]. done.
  - rewrite orb_true_iff, IHr, IHs. split.
    + intros [H | H]; [by apply MAltL | by apply MAltR].
    + inversion 1; subst; auto.
  - split; [constructor | done].
Qed.

(** A non-empty match of a star starts with a non-empty match of its
    body. *)
Lemma matches_star_cons r c s :
  matches (Star r) (c :: s) ->
  exists u v, s = u ++ v /\ matches r (c :: u) /\ matches (Star r) v.
Proof.
  intros H. remember (Star r) as sr eqn:Er. remember (c :: s) as cs eqn:Es.
  revert s Es.
  induction H as [| | | | | r' | r' u v Hu _ Hv IHv]; try discriminate.
  injection Er as ->. intros s Es.
  destruct u as [| c' u'].
  - apply IHv; done.
  - injection Es as -> <-. eauto.
Qed.

Lemma deriv_matches r : forall c s, matches (deriv c r) s <-> matches r (c :: s).
Proof.
  induction r as [| | p | r IHr s0 IHs | r IHr s0 IHs | r IHr]; intros c s; cbn [deriv].
  - split; inversion 1.
  - split; inversion 1.
  - destruct (p c) eqn:Hp; split.
    + inversion 1; subst. by constructor.
    + inversion 1; subst. constructor.
    + inversion 1.
    + inversion 1; subst. congruence.
  - assert (Hseq : matches (Seq (deriv c r) s0) s -> matches (Seq r s0) (c :: s)).
    { inversion 1 as [| | r' s' u v Hu Hv| | | |]; subst.
      apply IHr in Hu. by apply (MSeq r s0 (c :: u) v). }
    assert (Hcases : matches (Seq r s0) (c :: s) ->
              matches (Seq (deriv c r) s0) s
              \/ (matches r [] /\ matches (deriv c s0) s)).
    { inversion 1 as [| | r' s' u v Hu Hv E1 E2| | | |]; subst.
      destruct u as [| c' u'].
      - right. simpl in E2. subst v. split; [done | by apply IHs].
      - injection E2 as -> <-. left. apply MSeq; [by apply IHr | done]. }
    destruct (nullable r) eqn:Hn.
    + split.
      * inversion 1; subst; [by apply Hseq|].
        apply (MSeq r s0 [] (c :: s)); [by apply nullable_matches | by apply IHs].
      * intros [H | [_ H]]%Hcases; [by apply MAltL | by apply MAltR].
    + split; [exact Hseq|].
      intros [H | [H _]]%Hcases; [done|].
      apply nullable_matches in H. congruence.
  - split.
    + inversion 1; subst; [apply MAltL | apply MAltR]; [by apply IHr | by apply IHs].
    + inversion 1; subst; [apply MAltL | apply MAltR]; [by apply IHr | by apply IHs].
  - split.
    + inversion 1 as [| | r' s' u v Hu Hv| | | |]; subst.
      apply IHr in Hu. by apply (MStarS r (c :: u) v).
    + intros (u & v & -> & Hu & Hv)%matches_star_cons.
      apply MSeq; [by apply IHr | done].
Qed.

(** The matcher decides the meaning of the expression. *)
Lemma test_matches s : forall r, test r s = true <-> matches r s.
Proof.
  induction s as [| c s IH]; intros r; cbn [test].
  - apply nullable_matches.
  - rewrite IH. apply deriv_matches.
Qed.

Lemma matches_star_class p s : matches (Star (Class p)) s <-> forallb p s = true.
Proof.
  split.
  - intros H. remember (Star (Class p)) as sr eqn:E.
    induction H as [| | | | | r' | r' u v Hu _ Hv IHv]; try discriminate; [done|].
    injection E as ->. inversion Hu; subst. cbn [app forallb].
    apply andb_true_intro. split; [done | by apply IHv].
  - induction s as [| c s IH]; [constructor|].
    cbn [forallb]. intros [Hc Hs]%andb_true_iff.
    apply (MStarS _ [c] s); [by constructor | by apply IH].
Qed.

Lemma matches_plus_class p s :
  matches (Plus (Class p)) s <-> s <> [] /\ forallb p s = true.
Proof.
  unfold Plus. split.
  - inversion 1 as [| | r' s' u v Hu Hv| | | |]; subst.
    inversion Hu; subst. apply matches_star_class in Hv.
    split; [done|]. cbn [app forallb]. by apply andb_true_intro.
  - intros [Hne H]. destruct s as [| c s]; [done|].
    cbn [forallb] in H. apply andb_true_iff in H as [Hc Hs].
    apply (MSeq _ _ [c] s); [by constructor | by apply matches_star_class].
Qed.

Lemma matches_chr c s : matches (Chr c) s <-> s = [c].
Proof.
  unfold Chr. split.
  - inversion 1 as [| p c' Hc | | | | |]; subst. by apply Z.eqb_eq in Hc as ->.
  - intros ->. constructor. apply Z.eqb_refl.
Qed.

Lemma matches_seq r s w :
  matches (Seq r s) w <-> exists u v, w = u ++ v /\ matches r u /\ matches s v.
Proof.
  split.
  - inversion 1; subst; eauto.
  - intros (u & v & -> & Hu & Hv). by constructor.
Qed.

Lemma matches_opt_chr c s : matches (Opt (Chr c)) s <-> s = [] \/ s = [c].
Proof.
  unfold Opt. split.
  - inversion 1 as [| | | r' s' u Hu | r' s' u Hu | |]; subst.
    + right. by apply matches_chr.
    + left. by inversion Hu.
  - intros [-> | ->]; [apply MAltR; constructor | apply MAltL; by apply matches_chr].
Qed.

Lemma matches_rep_class p n s :
  matches (Rep n (Class p)) s <-> length s = n /\ forallb p s = true.
Proof.
  revert s. induction n as [| n IH]; intros s; cbn [Rep].
  - split.
    + inversion 1; subst. done.
    + intros [->%nil_length_inv _]. constructor.
  - rewrite matches_seq. split.
    + intros (u & v & -> & Hu & Hv). inversion Hu; subst.
      apply IH in Hv as [<- Hv]. split; [done|].
      cbn [app forallb]. by apply andb_true_intro.
    + intros [Hl H]. destruct s as [| c s]; [done|].
      cbn [forallb] in H. apply andb_true_iff in H as [Hc Hs].
      exists [c], s. split_and!; [done | by constructor |].
      apply IH. split; [by injection Hl | done].
Qed.

End RegexFacts.

(** X1. [isValidEmail] accepts exactly the strings made of a name, one
    [@], a domain, a dot and an ending, where the three parts are not
    empty and hold neither white space nor [@]. The domain and the ending
    may hold further dots. *)
Theorem isValidEmail_shape (email : jsstring) :
  isValidEmail email = true <->
  exists name domain tld,
    email = name ++ [64] ++ domain ++ [46] ++ tld
    /\ name <> [] /\ domain <> [] /\ tld <> []
    /\ forallb (fun c => negb (Regex.space c || (c =? 64))) (name ++ domain ++ tld) = true.
Proof.
  unfold isValidEmail. rewrite RegexFacts.test_matches. unfold emailRegex.
  rewrite RegexFacts.matches_seq. split.
  - intros (a & r1 & -> & Ha & H).
    apply RegexFacts.matches_seq in H as (at_ & r2 & -> & ->%RegexFacts.matches_chr & H).
    apply RegexFacts.matches_seq in H as (b & r3 & -> & Hb & H).
    apply RegexFacts.matches_seq in H as (dot & c & -> & ->%RegexFacts.matches_chr & Hc).
    apply RegexFacts.matches_plus_class in Ha as [Ha1 Ha2].
    apply RegexFacts.matches_plus_class in Hb as [Hb1 Hb2].
    apply RegexFacts.matches_plus_class in Hc as [Hc1 Hc2].
    exists a, b, c. split_and!; try done.
    rewrite !forallb_app, Ha2, Hb2, Hc2. done.
  - intros (a & b & c & -> & Ha & Hb & Hc & H).
    rewrite !forallb_app, !andb_true_iff in H. destruct H as (Ha2 & Hb2 & Hc2).
    exists a, ([64] ++ b ++ [46] ++ c).
    split_and!; [done | by apply RegexFacts.matches_plus_class |].
    apply RegexFacts.matches_seq. exists [64], (b ++ [46] ++ c).
    split_and!; [done | by apply RegexFacts.matches_chr |].
    apply RegexFacts.matches_seq. exists b, ([46] ++ c).
    split_and!; [done | by apply RegexFacts.matches_plus_class |].
    apply RegexFacts.matches_seq. exists [46], c.
    split_and!; [done | by apply RegexFacts.matches_chr
                | by apply RegexFacts.matches_plus_class].
Qed.

(** X2. [isValidPhone] accepts exactly [01], a digit, four digits and four
    digits, with or without a hyphen before each group of four. *)
Theorem isValidPhone_shape (phone : jsstring) :
  isValidPhone phone = true <->
  exists d h1 a h2 b,
    phone = [48; 49; d] ++ h1 ++ a ++ h2 ++ b
    /\ Regex.digit d = true
    /\ (h1 = [] \/ h1 = [45]) /\ (h2 = [] \/ h2 = [45])
    /\ length a = 4%nat /\ length b = 4%nat
    /\ forallb Regex.digit (a ++ b) = true.
Proof.
  unfold isValidPhone. rewrite RegexFacts.test_matches. unfold phoneRegex.
  rewrite RegexFacts.matches_seq. split.
  - intros (z & r1 & -> & ->%RegexFacts.matches_chr & H).
    apply RegexFacts.matches_seq in H as (o & r2 & -> & ->%RegexFacts.matches_chr & H).
    apply RegexFacts.matches_seq in H as (d & r3 & -> & Hd & H).
    apply RegexFacts.matches_seq in H as (h1 & r4 & -> & Hh1%RegexFacts.matches_opt_chr & H).
    apply RegexFacts.matches_seq in H
      as (a & r5 & -> & [Ha1 Ha2]%RegexFacts.matches_rep_class & H).
    apply RegexFacts.matches_seq in H
      as (h2 & b & -> & Hh2%RegexFacts.matches_opt_chr
          & [Hb1 Hb2]%RegexFacts.matches_rep_class).
    inversion Hd as [| p c Hc | | | | |]; subst.
    exists c, h1, a, h2, b. split_and!; try done.
    rewrite forallb_app, Ha2, Hb2. done.
  - intros (d & h1 & a & h2 & b & -> & Hd & Hh1 & Hh2 & Ha & Hb & H).
    rewrite forallb_app, andb_true_iff in H. destruct H as [Ha2 Hb2].
    exists [48], ([49; d] ++ h1 ++ a ++ h2 ++ b).
    split_and!; [done | by apply RegexFacts.matches_chr |].
    apply RegexFacts.matches_seq. exists [49], ([d] ++ h1 ++ a ++ h2 ++ b).
    split_and!; [done | by apply RegexFacts.matches_chr |].
    apply RegexFacts.matches_seq. exists [d], (h1 ++ a ++ h2 ++ b).
    split_and!; [done | by constructor |].
    apply RegexFacts.matches_seq. exists h1, (a ++ h2 ++ b).
    split_and!; [done | by apply RegexFacts.matches_opt_chr |].
    apply RegexFacts.matches_seq. exists a, (h2 ++ b).
    split_and!; [done | by apply RegexFacts.matches_rep_class |].
    apply RegexFacts.matches_seq. exists h2, b.
    split_and!; [done | by apply RegexFacts.matches_opt_chr
                | by apply RegexFacts.matches_rep_class].
Qed.

(** ** One verifier for each password *)

Module Base64Facts.

Import Base64.

Lemma alphabet_inj i j :
  0 <= i <= 63 -> 0 <= j <= 63 -> alphabet i = alphabet j -> i = j.
Proof. unfold alphabet. intros Hi Hj. case_tests; lia. Qed.

Lemma alphabet_not_padding i : 0 <= i <= 63 -> alphabet i <> padding.
Proof. unfold alphabet, padding. intros Hi. case_tests; lia. Qed.

Lemma sextets_table :
  forallb (fun a => forallb (sextets_ok a) (seqZ 0 256)) (seqZ 0 256) = true.
Proof. by_evaluation. Qed.

(** The sextets of a group of octets, in arithmetic. *)
Lemma sextets a b :
  0 <= a <= 255 -> 0 <= b <= 255 ->
  Z.shiftr a 2 = a / 4
  /\ Z.lor (Z.shiftl (Z.land a 3) 4) (Z.shiftr b 4) = a mod 4 * 16 + b / 16
  /\ Z.lor (Z.shiftl (Z.land a 15) 2) (Z.shiftr b 6) = a mod 16 * 4 + b / 64
  /\ Z.shiftl (Z.land a 3) 4 = a mod 4 * 16
  /\ Z.shiftl (Z.land a 15) 2 = a mod 16 * 4
  /\ Z.land a 63 = a mod 64.
Proof.
  intros Ha Hb. pose proof sextets_table as H.
  rewrite forallb_forall in H.
  specialize (H a ltac:(apply list_elem_of_In, elem_of_seqZ; lia)).
  rewrite forallb_forall in H.
  specialize (H b ltac:(apply list_elem_of_In, elem_of_seqZ; lia)).
  unfold sextets_ok in H. rewrite !andb_true_iff, !Z.eqb_eq in H. tauto.
Qed.

Ltac octet_bounds :=
  unfold Latin1 in *;
  repeat match goal with
    | H : Forall _ (_ :: _) |- _ => apply Forall_cons in H as [? H]
    end; cbv beta in *.

Ltac sextet_range := Z.div_mod_to_equations; lia.

(** Two lists of octets with the same encoding are the same list. *)
Lemma encode_inj_bounded n : forall a b,
  (length a <= n)%nat -> Latin1 a -> Latin1 b -> encode a = encode b -> a = b.
Proof.
  induction n as [| n IH]; intros a b Hn Ha Hb.
  { destruct a; [|simpl in Hn; lia]. destruct b as [| b1 [| b2 [| b3 b']]]; done. }
  destruct a as [| a1 [| a2 [| a3 a']]], b as [| b1 [| b2 [| b3 b']]];
    try done; cbn [encode]; octet_bounds.
  - intros [= E1 E2].
    destruct (sextets a1 0) as (S1 & _ & _ & S4 & _); [lia | lia |].
    destruct (sextets b1 0) as (T1 & _ & _ & T4 & _); [lia | lia |].
    rewrite S1, T1 in E1. rewrite S4, T4 in E2.
    apply alphabet_inj in E1, E2; try sextet_range.
    f_equal. sextet_range.
  - intros [= _ _ E]. exfalso. symmetry in E. revert E.
    destruct (sextets b2 0) as (_ & _ & _ & _ & T5 & _); [lia | lia |]. rewrite T5.
    apply alphabet_not_padding. sextet_range.
  - intros [= _ _ E]. exfalso. symmetry in E. revert E.
    destruct (sextets b2 b3) as (_ & _ & T3 & _); [lia | lia |]. rewrite T3.
    apply alphabet_not_padding. sextet_range.
  - intros [= _ _ E]. exfalso. revert E.
    destruct (sextets a2 0) as (_ & _ & _ & _ & T5 & _); [lia | lia |]. rewrite T5.
    apply alphabet_not_padding. sextet_range.
  - intros [= E1 E2 E3].
    destruct (sextets a1 a2) as (S1 & S2 & _); [lia | lia |].
    destruct (sextets b1 b2) as (T1 & T2 & _); [lia | lia |].
    destruct (sextets a2 0) as (_ & _ & _ & _ & S5 & _); [lia | lia |].
    destruct (sextets b2 0) as (_ & _ & _ & _ & T5 & _); [lia | lia |].
    rewrite S1, T1 in E1. rewrite S2, T2 in E2. rewrite S5, T5 in E3.
    apply alphabet_inj in E1, E2, E3; try sextet_range.
    assert (a1 = b1) by sextet_range.
    assert (a2 = b2) by sextet_range. congruence.
  - intros [= _ _ _ E]. exfalso. symmetry in E. revert E.
    destruct (sextets b3 0) as (_ & _ & _ & _ & _ & T6); [lia | lia |]. rewrite T6.
    apply alphabet_not_padding. sextet_range.
  - intros [= _ _ E]. exfalso. revert E.
    destruct (sextets a2 a3) as (_ & _ & T3 & _); [lia | lia |]. rewrite T3.
    apply alphabet_not_padding. sextet_range.
  - intros [= _ _ _ E]. exfalso. revert E.
    destruct (sextets a3 0) as (_ & _ & _ & _ & _ & T6); [lia | lia |]. rewrite T6.
    apply alphabet_not_padding. sextet_range.
  - intros [= E1 E2 E3 E4 E5].
    destruct (sextets a1 a2) as (S1 & S2 & _); [lia | lia |].
    destruct (sextets b1 b2) as (T1 & T2 & _); [lia | lia |].
    destruct (sextets a2 a3) as (_ & _ & S3 & _); [lia | lia |].
    destruct (sextets b2 b3) as (_ & _ & T3 & _); [lia | lia |].
    destruct (sextets a3 0) as (_ & _ & _ & _ & _ & S6); [lia | lia |].
    destruct (sextets b3 0) as (_ & _ & _ & _ & _ & T6); [lia | lia |].
    rewrite S1, T1 in E1. rewrite S2, T2 in E2. rewrite S3, T3 in E3. rewrite S6, T6 in E4.
    apply alphabet_inj in E1, E2, E3, E4; try sextet_range.
    assert (a1 = b1) by sextet_range.
    assert (a2 = b2) by sextet_range.
    assert (a3 = b3) by sextet_range.
    assert (a' = b'); [|congruence].
    apply IH; [simpl in Hn; lia | done | done | done].
Qed.

Lemma encode_inj a b : Latin1 a -> Latin1 b -> encode a = encode b -> a = b.
Proof. apply (encode_inj_bounded (length a)). lia. Qed.

Lemma encode_nonempty a : a <> [] -> encode a <> [].
Proof. destruct a as [| a1 [| a2 [| a3 a']]]; done. Qed.

End Base64Facts.

Lemma Latin1_code_units s : Latin1 s -> code_units s.
Proof. intros H. eapply Forall_impl; [exact H|]. intros c Hc. simpl in Hc. lia. Qed.

Lemma code_units_js s : code_units (js s).
Proof. apply Latin1_code_units, Latin1_js. Qed.

(** Two strings with the same verifier are the same string. *)
Lemma hashPassword_inj p q h :
  code_units p -> code_units q ->
  hashPassword p = Return h -> hashPassword q = Return h -> p = q.
Proof.
  intros Hp Hq Ep Eq.
  assert (Hoct : forall s h', code_units s -> hashPassword s = Return h' ->
            Latin1 (s ++ js "saju2026_salt")
            /\ h' = Base64.encode (s ++ js "saju2026_salt")).
  { intros s h' Hs E. pose proof (hashPassword_Return _ _ E) as Hle.
    assert (Hl : Latin1 s).
    { unfold Latin1, code_units in *. rewrite Forall_forall in *.
      intros c Hc. specialize (Hs c Hc). specialize (Hle c Hc). simpl in *. lia. }
    rewrite (hashPassword_Latin1 s Hl) in E. injection E as <-. split; [|done].
    apply Forall_app. split; [exact Hl | apply Latin1_js]. }
  destruct (Hoct p h Hp Ep) as [Op ->]. destruct (Hoct q _ Hq Eq) as [Oq E].
  apply Base64Facts.encode_inj in E; [|done|done]. by apply app_inv_tail in E.
Qed.

Lemma hashPassword_nonempty s h : hashPassword s = Return h -> h <> [].
Proof.
  unfold hashPassword, btoa. destruct (forallb _ _); [|discriminate].
  intros [= <-]. apply Base64Facts.encode_nonempty. by destruct s.
Qed.

(** X3. Against the verifier of a password [p], [verifyPassword] accepts
    [p] and no other string: no two passwords have the same verifier. *)
Theorem verifyPassword_one_password (p q h : jsstring) :
  code_units p -> code_units q -> hashPassword p = Return h ->
  verifyPassword q (Some (VStr h)) = Return true <-> q = p.
Proof.
  intros Hp Hq Eh. unfold verifyPassword, mret, outcome_ret, mbind, outcome_bind. split.
  - destruct (hashPassword q) as [h'|] eqn:Eq; [|discriminate].
    intros [= E%bool_decide_eq_true]. subst h'.
    by eapply hashPassword_inj.
  - intros ->. by rewrite Eh, strict_eq_str.
Qed.

(** The password [wrong] is not accepted for [longenough]. *)
Lemma verifyPassword_one_password_witness :
  verifyPassword (js "wrong")
    (Some (VStr (Base64.encode (js "longenough" ++ js "saju2026_salt")))) = Return true
  <-> js "wrong" = js "longenough".
Proof.
  apply verifyPassword_one_password;
    [apply code_units_js | apply code_units_js | apply hashPassword_Latin1, Latin1_js].
Defined.

(** ** Logging in after [register], [resetPassword] and [updateUser] *)

Lemma republished_users userId user st :
  getUsers (republished userId user st) = getUsers (saveUser user st).
Proof.
  unfold republished. destruct (getCurrentUser st) as [cu|]; [|done].
  by destruct (strict_eq _ _).
Qed.

Lemma republished_current userId user st :
  getCurrentUser (republished userId user st)
  = match getCurrentUser st with
    | Some currentUser =>
        if strict_eq (currentUser !! "id") (Some (VStr userId))
        then Some (sanitizeUser user) else Some currentUser
    | None => None
    end.
Proof.
  unfold republished, getCurrentUser.
  destruct (CURRENT_USER_KEY st) as [cu|] eqn:E; [|by rewrite saveUser_current].
  destruct (strict_eq _ _); [done | by rewrite saveUser_current].
Qed.

(** The first element that satisfies [p] stands at or before any element
    that satisfies it. *)
Lemma findIndex_le {A} (p : A -> bool) l k x :
  l !! k = Some x -> p x = true ->
  exists i y, (i <= k)%nat /\ l !! i = Some y /\ p y = true
    /\ (forall j z, l !! j = Some z -> (j < i)%nat -> p z = false)
    /\ findIndex p l = Some i.
Proof.
  intros Hk Hp. destruct (find p l) as [y|] eqn:E.
  - apply find_index in E as (i & Hi & Hy & Hlt & Hidx). exists i, y.
    split_and!; try done.
    destruct (le_lt_dec i k) as [|Hki]; [done|].
    rewrite (Hlt k x Hk Hki) in Hp. discriminate.
  - rewrite find_None in E. rewrite (E k x Hk) in Hp. discriminate.
Qed.

Lemma find_app_new {A} (p : A -> bool) l x :
  find p l = None -> p x = true -> find p (l ++ [x]) = Some x.
Proof.
  intros Hn Hp. rewrite find_None in Hn. apply find_Some. exists (length l).
  split_and!; [by apply list_lookup_middle | done |].
  intros j y Hj Hlt. rewrite lookup_app_l in Hj by done. eauto.
Qed.

Lemma find_email_Some email users (user : obj) :
  find (fun u : obj => strict_eq (u !! "email") (Some (VStr email))) users = Some user ->
  user !! "email" = Some (VStr email).
Proof. intros (i & _ & Hp & _)%find_Some. by apply strict_eq_str_true. Qed.

(** [saveUser] of an account whose email no stored account has: the account
    is then the one found under the email. *)
Lemma saveUser_new_email e (user' : obj) st :
  find (fun u : obj => strict_eq (u !! "email") (Some (VStr e))) (getUsers st) = None ->
  user' !! "email" = Some (VStr e) ->
  find (fun u : obj => strict_eq (u !! "email") (Some (VStr e)))
    (getUsers (saveUser user' st)) = Some user'.
Proof.
  intros Hn He. unfold saveUser.
  destruct (findIndex _ _) as [i|] eqn:Hidx; cbn [getUsers USER_STORAGE_KEY].
  - apply findIndex_Some in Hidx as (x & Hi & _).
    eapply find_insert_first; [exact Hi | | by apply strict_eq_str_true].
    intros j y Hj _. rewrite find_None in Hn. eauto.
  - apply find_app_new; [exact Hn | by apply strict_eq_str_true].
Qed.

(** [saveUser] of a changed copy of the account found under an email, with
    the id and the email of the account: the copy is then the one found
    under the email. *)
Lemma saveUser_copy_email e (user user' : obj) st :
  find (fun u : obj => strict_eq (u !! "email") (Some (VStr e))) (getUsers st) = Some user ->
  strict_eq (user !! "id") (user' !! "id") = true ->
  user' !! "email" = Some (VStr e) ->
  find (fun u : obj => strict_eq (u !! "email") (Some (VStr e)))
    (getUsers (saveUser user' st)) = Some user'.
Proof.
  intros (k & Hk & _ & Hlt)%find_Some Hid He.
  destruct (findIndex_le (fun u : obj => strict_eq (u !! "id") (user' !! "id"))
              (getUsers st) k user Hk Hid) as (i & y & Hik & Hi & _ & _ & Hidx).
  rewrite (saveUser_replace _ _ _ Hidx). cbn [getUsers USER_STORAGE_KEY].
  eapply find_insert_first; [exact Hi | | by apply strict_eq_str_true].
  intros j z Hj Hji. apply (Hlt j z Hj). lia.
Qed.

(** [login] once the account is found and the password encoded. *)
Lemma login_found email password now st (user : obj) h :
  email <> [] -> password <> [] ->
  find (fun u : obj => strict_eq (u !! "email") (Some (VStr email))) (getUsers st)
  = Some user ->
  hashPassword password = Return h ->
  login email password now st
  = if strict_eq (Some (VStr h)) (user !! "password")
    then let user' := <["lastLogin" := VStr (toISOString now)]> user in
         Return (Success (Some MsgLoggedIn) (User (sanitizeUser user')),
                 setCurrentUser user' (saveUser user' st))
    else Return (Failure MsgWrongPassword, st).
Proof.
  intros He Hp Hfind Hh. unfold login, verifyPassword.
  apply truthy_str_nonempty in He as ->. apply truthy_str_nonempty in Hp as ->.
  cbn [negb orb]. rewrite Hfind, Hh.
  unfold mret, outcome_ret, mbind, outcome_bind.
  by destruct (strict_eq _ _).
Qed.

(** With the account found under [email] holding the verifier of
    [password], [login] succeeds with [password] and with no other
    string. *)
Lemma login_iff email password q now st (user : obj) h :
  email <> [] -> password <> [] -> code_units password -> code_units q ->
  find (fun u : obj => strict_eq (u !! "email") (Some (VStr email))) (getUsers st)
  = Some user ->
  hashPassword password = Return h ->
  user !! "password" = Some (VStr h) ->
  (exists p st', login email q now st = Return (Success (Some MsgLoggedIn) p, st'))
  <-> q = password.
Proof.
  intros He Hp Hcp Hcq Hfind Hh Hpw. split.
  - intros (p & st' & E).
    destruct q as [| c q'].
    { unfold login in E. cbn [truthy negb] in E. rewrite orb_true_r in E. discriminate E. }
    destruct (hashPassword (c :: q')) as [h'|] eqn:Hq.
    + rewrite (login_found email (c :: q') now st user h') in E by done.
      rewrite Hpw in E. destruct (strict_eq _ _) eqn:Es; [|discriminate E].
      apply strict_eq_true in Es. injection Es as ->.
      by eapply hashPassword_inj.
    + unfold login, verifyPassword in E. apply truthy_str_nonempty in He.
      rewrite He in E. cbn [truthy negb orb] in E. rewrite Hfind, Hq in E. discriminate E.
  - intros ->. rewrite (login_found email password now st user h) by done.
    rewrite Hpw, strict_eq_str. eauto.
Qed.

(** What a successful [register] has stored. *)
Lemma register_stored userData now rnd st m p st' :
  register userData now rnd st = Return (Success m p, st') ->
  exists email password hashed (newUser : obj),
    UserData.email userData = Some email
    /\ UserData.password userData = Some password
    /\ email <> [] /\ password <> []
    /\ find (fun u : obj => strict_eq (u !! "email") (Some (VStr email))) (getUsers st) = None
    /\ hashPassword password = Return hashed
    /\ newUser !! "email" = Some (VStr email)
    /\ newUser !! "password" = Some (VStr hashed)
    /\ newUser !! "id" = Some (VStr (generateUserId now rnd))
    /\ st' = saveUser newUser st.
Proof.
  unfold register, mret, outcome_ret, mbind, outcome_bind.
  destruct (UserData.email userData) as [[| e email]|] eqn:He;
    [by intros [=] | | by intros [=]].
  destruct (UserData.password userData) as [[| c password]|];
    [by intros [=] | | by intros [=]].
  destruct (UserData.name userData) as [[| n name]|];
    [by intros [=] | | by intros [=]].
  destruct (negb (isValidEmail _)); [by intros [=]|].
  destruct (negb (isValidPassword _)); [by intros [=]|].
  match goal with |- context [if ?b then _ else _] => destruct b end; [by intros [=]|].
  destruct (find _ _) eqn:Hfind; [by intros [=]|].
  destruct (hashPassword _) as [hashed|] eqn:Hh; [|by intros [=]].
  match goal with |- context [saveUser ?u st] => set (newUser := u) end.
  intros [= <- <- <-]. exists (e :: email), (c :: password), hashed, newUser.
  split_and!; [reflexivity | reflexivity | discriminate | discriminate | exact Hfind
              | exact Hh | reflexivity | reflexivity | reflexivity | reflexivity].
Qed.

(** X4. After a successful [register] nobody is logged in who was not, and
    [login] with the registered email succeeds with the registered
    password and with no other string. *)
Theorem register_then_login (userData : UserData.t) (now : Z) (rnd : jsstring)
    (st st' : localStorage) (m : option message) (p : payload)
    (email password : jsstring) :
  register userData now rnd st = Return (Success m p, st') ->
  UserData.email userData = Some email ->
  UserData.password userData = Some password ->
  code_units password ->
  getCurrentUser st' = getCurrentUser st
  /\ forall q now',
       code_units q ->
       (exists p' st'',
           login email q now' st' = Return (Success (Some MsgLoggedIn) p', st''))
       <-> q = password.
Proof.
  intros (email' & password' & hashed & newUser & He & Hp & Hne & Hnp & Hfind & Hh
          & Hem & Hpw & _ & ->)%register_stored He' Hp' Hcp.
  rewrite He in He'. rewrite Hp in Hp'. simplify_eq.
  split; [reflexivity|]. intros q now' Hcq.
  eapply login_iff; try done.
  by apply saveUser_new_email.
Qed.

Lemma alice_registers :
  register alice t0 (js "k3j9x0q1z") fresh
  = Return (Success (Some MsgRegistered) (User (sanitizeUser alice_account)),
            alice_registered).
Proof. by_evaluation. Qed.

(** Alice registers; her password and no other logs her in. *)
Lemma register_then_login_witness :
  getCurrentUser alice_registered = getCurrentUser fresh
  /\ forall q now',
       code_units q ->
       (exists p' st'',
           login (js "alice@example.com") q now' alice_registered
           = Return (Success (Some MsgLoggedIn) p', st''))
       <-> q = js "longenough".
Proof.
  exact (register_then_login alice t0 _ fresh alice_registered _ _
           (js "alice@example.com") (js "longenough")
           alice_registers eq_refl eq_refl (code_units_js _)).
Defined.

(** X5. For an input with an email, a password that [btoa] takes and a
    name, [register] succeeds exactly when the three are not empty, the
    email has the shape of an email, the password has 8 code units or
    more, the phone is missing, empty or has the shape of a phone, and no
    stored account has the email. What it then stores is found under the
    email: a free account, with no expiry, no chart and empty histories,
    created and last logged in at the time of the call. *)
Theorem register_accepts (userData : UserData.t) (now : Z) (rnd : jsstring)
    (st : localStorage) (email password name : jsstring) :
  UserData.email userData = Some email ->
  UserData.password userData = Some password ->
  UserData.name userData = Some name ->
  Latin1 password ->
  ((exists m p st', register userData now rnd st = Return (Success m p, st'))
   <-> acceptable email password name (UserData.phone userData) st)
  /\ forall m p st',
       register userData now rnd st = Return (Success m p, st') ->
       exists newUser : obj,
         m = Some MsgRegistered
         /\ p = User (sanitizeUser newUser)
         /\ find (fun u : obj => strict_eq (u !! "email") (Some (VStr email))) (getUsers st')
            = Some newUser
         /\ newUser !! "id" = Some (VStr (generateUserId now rnd))
         /\ newUser !! "name" = Some (VStr name)
         /\ newUser !! "membershipType" = Some (VStr (js "free"))
         /\ newUser !! "premiumExpiry" = Some VNull
         /\ newUser !! "createdAt" = Some (VStr (toISOString now))
         /\ newUser !! "lastLogin" = Some (VStr (toISOString now))
         /\ newUser !! "sajuData" = Some VNull
         /\ newUser !! "purchaseHistory" = Some (VArr [])
         /\ newUser !! "consultationHistory" = Some (VArr []).
Proof.
  intros He Hp Hn Hl. unfold acceptable, register, isValidPassword.
  rewrite He, Hp, Hn. unfold mret, outcome_ret, mbind, outcome_bind.
  destruct email as [| e email'].
  { split; [split; [by intros (? & ? & ? & [=]) | by intros [? _]] | by intros ? ? ? [=]]. }
  destruct password as [| c password'].
  { split; [split; [by intros (? & ? & ? & [=]) | by intros (_ & ? & _)] | by intros ? ? ? [=]]. }
  destruct name as [| n name'].
  { split; [split; [by intros (? & ? & ? & [=]) | by intros (_ & _ & ? & _)]
           | by intros ? ? ? [=]]. }
  destruct (isValidEmail (e :: email')); cbn [negb].
  2: { split; [split; [by intros (? & ? & ? & [=]) | by intros (_ & _ & _ & ? & _)]
              | by intros ? ? ? [=]]. }
  destruct (Z.leb_spec 8 (Z.of_nat (length (c :: password')))) as [Hlen | Hlen]; cbn [negb].
  2: { split; [split; [by intros (? & ? & ? & [=]) | intros (_ & _ & _ & _ & ? & _); lia]
              | by intros ? ? ? [=]]. }
  set (phone_ok := match UserData.phone userData with
                   | Some (c0 :: phone') => isValidPhone (c0 :: phone') = true
                   | _ => True
                   end).
  match goal with |- context [if ?b then _ else _] => remember b as turned_down eqn:Hb end.
  assert (Hphone : turned_down = false <-> phone_ok).
  { subst turned_down. unfold phone_ok.
    destruct (UserData.phone userData) as [[| c0 phone']|]; try done.
    destruct (isValidPhone _); done. }
  clear Hb. destruct turned_down.
  { split; [split; [by intros (? & ? & ? & [=]) |]| by intros ? ? ? [=]].
    intros (_ & _ & _ & _ & _ & Hok & _). apply Hphone in Hok. discriminate. }
  assert (Hok : phone_ok) by (by apply Hphone).
  destruct (find _ _) as [u|] eqn:Hfind.
  { split; [split; [by intros (? & ? & ? & [=]) | by intros (_ & _ & _ & _ & _ & _ & ?)]
           | by intros ? ? ? [=]]. }
  rewrite (hashPassword_Latin1 _ Hl).
  match goal with |- context [saveUser ?u st] => set (newUser := u) end.
  split.
  - split; [intros _; split_and!; try done; lia | intros _; eauto].
  - intros m p st' [= <- <- <-]. exists newUser.
    split_and!; try reflexivity.
    by apply saveUser_new_email.
Qed.

(** Alice is accepted in a fresh browser. *)
Lemma register_accepts_witness :
  (exists m p st', register alice t0 (js "k3j9x0q1z") fresh = Return (Success m p, st'))
  <-> acceptable (js "alice@example.com") (js "longenough") (js "Alice") None fresh.
Proof.
  exact (proj1 (register_accepts alice t0 (js "k3j9x0q1z") fresh _ _ _
                  eq_refl eq_refl eq_refl (Latin1_js _))).
Defined.

(** What a successful [resetPassword] has done. *)
Lemma resetPassword_success email rnd st m p st' :
  resetPassword email rnd st = Return (Success m p, st') ->
  exists (user : obj) hashed,
    find (fun u : obj => strict_eq (u !! "email") (Some (VStr email))) (getUsers st)
    = Some user
    /\ hashPassword (js "temp" ++ rnd) = Return hashed
    /\ m = Some MsgTempPasswordSent
    /\ p = TempPassword (js "temp" ++ rnd)
    /\ st' = saveUser (<["password" := VStr hashed]> user) st.
Proof.
  unfold resetPassword, mret, outcome_ret, mbind, outcome_bind.
  destruct (find _ _) as [user|] eqn:Hfind; [|by intros [=]].
  destruct (hashPassword _) as [hashed|] eqn:Hh; [|by intros [=]].
  intros [= <- <- <-]. by exists user, hashed.
Qed.

(** [login] with an empty email or an empty password. *)
Lemma login_missing email password now st :
  email = [] \/ password = [] ->
  login email password now st = Return (Failure MsgLoginMissing, st).
Proof.
  intros H. unfold login.
  assert (negb (truthy (Some (VStr email))) || negb (truthy (Some (VStr password)))
          = true) as ->; [|done].
  destruct H as [-> | ->]; [done|]. apply orb_true_r.
Qed.

(** X6. For an email that a stored account has, in a store whose ids are
    strings, and random digits that [btoa] takes, [resetPassword] succeeds:
    the temporary password that it returns is [temp] followed by the
    random digits, and the current user is as before. When the email is
    not the empty string, [login] with the email succeeds afterwards with
    the temporary password and with no other string, so that the old
    password is no longer accepted; when the email is the empty string,
    every [login] with it returns the failure for missing input. *)
Theorem resetPassword_then_login (email rnd : jsstring) (st : localStorage) (user : obj) :
  Latin1 rnd -> string_ids (getUsers st) ->
  find (fun u : obj => strict_eq (u !! "email") (Some (VStr email))) (getUsers st)
  = Some user ->
  exists st',
    resetPassword email rnd st
    = Return (Success (Some MsgTempPasswordSent) (TempPassword (js "temp" ++ rnd)), st')
    /\ getCurrentUser st' = getCurrentUser st
    /\ (email <> [] ->
        forall q now,
          code_units q ->
          (exists p' st'',
              login email q now st' = Return (Success (Some MsgLoggedIn) p', st''))
          <-> q = js "temp" ++ rnd)
    /\ (email = [] ->
        forall q now, login email q now st' = Return (Failure MsgLoginMissing, st')).
Proof.
  intros Hrnd Hids Hfind.
  assert (Hl : Latin1 (js "temp" ++ rnd)) by (apply Forall_app; split; [apply Latin1_js | done]).
  pose proof (hashPassword_Latin1 _ Hl) as Hh.
  set (hashed := Base64.encode ((js "temp" ++ rnd) ++ js "saju2026_salt")) in *.
  exists (saveUser (<["password" := VStr hashed]> user) st). split_and!.
  - unfold resetPassword. by rewrite Hfind, Hh.
  - reflexivity.
  - intros He q now Hq.
    destruct (find_lookup _ _ _ Hfind) as [k Hk].
    destruct (Hids k user Hk) as [s Hs].
    eapply (login_iff email (js "temp" ++ rnd) q now _
              (<["password" := VStr hashed]> user) hashed); try done.
    + by apply Latin1_code_units.
    + eapply saveUser_copy_email; [exact Hfind | |].
      * rewrite lookup_insert_ne, Hs by done. apply strict_eq_str.
      * rewrite lookup_insert_ne by done. by eapply find_email_Some.
    + apply lookup_insert_eq.
  - intros He q now. apply login_missing. by left.
Qed.

Lemma alice_registered_string_ids : string_ids (getUsers alice_registered).
Proof.
  apply (run_well_formed KST [Register alice t0 (js "k3j9x0q1z")]).
  by repeat constructor.
Qed.

(** Alice asks for a new password. *)
Lemma resetPassword_then_login_witness :
  let rnd := js "x7k2m9qa" in
  exists st',
    resetPassword (js "alice@example.com") rnd alice_registered
    = Return (Success (Some MsgTempPasswordSent) (TempPassword (js "temp" ++ rnd)), st')
    /\ getCurrentUser st' = getCurrentUser alice_registered
    /\ forall q now,
         code_units q ->
         (exists p' st'',
             login (js "alice@example.com") q now st'
             = Return (Success (Some MsgLoggedIn) p', st''))
         <-> q = js "temp" ++ rnd.
Proof.
  intros rnd.
  destruct (resetPassword_then_login (js "alice@example.com") rnd alice_registered
              alice_account (Latin1_js _) alice_registered_string_ids find_alice_by_email)
    as (st' & Hreset & Hcurrent & Hlogin & _).
  exists st'. split_and!; [exact Hreset | exact Hcurrent |].
  apply Hlogin. discriminate.
Defined.

Lemma hashed_updates_password updates pw h :
  updates !! "password" = Some (VStr pw) -> pw <> [] ->
  hashPassword pw = Return h ->
  hashed_updates updates = Return (<["password" := VStr h]> updates).
Proof.
  intros Hp Hne Hh. unfold hashed_updates. rewrite Hp.
  apply truthy_str_nonempty in Hne as ->. cbn [ToString]. by rewrite Hh.
Qed.

(** [hashPassword] raises for a string with a code unit above U+00FF. *)
Lemma hashPassword_not_Latin1 s :
  code_units s -> ~ Latin1 s -> hashPassword s = Throw InvalidCharacterError.
Proof.
  intros Hcu Hn. unfold hashPassword, btoa.
  destruct (forallb _ _) eqn:E; [|done]. destruct Hn.
  rewrite forallb_forall in E. apply Forall_forall. intros c Hc. split.
  - unfold code_units in Hcu. rewrite Forall_forall in Hcu. by apply Hcu.
  - apply Z.leb_le, E, in_or_app. left. by apply list_elem_of_In.
Qed.

(** X7. For the account found under an id and under an email that is not
    empty, and a patch with a [password] that is not empty and with
    neither [id] nor [email]. When the code units of the password are all
    at most U+00FF, which is what [btoa] takes, [updateUser] succeeds, and
    afterwards [login] with the email succeeds with the new password and
    with no other string. When the password has a code unit above U+00FF,
    [updateUser] raises [InvalidCharacterError]. *)
Theorem updateUser_password_then_login (userId email password : jsstring) (updates : obj)
    (st : localStorage) (user : obj) :
  find (fun u : obj => strict_eq (u !! "id") (Some (VStr userId))) (getUsers st)
  = Some user ->
  find (fun u : obj => strict_eq (u !! "email") (Some (VStr email))) (getUsers st)
  = Some user ->
  email <> [] -> password <> [] -> code_units password ->
  updates !! "password" = Some (VStr password) ->
  updates !! "id" = None -> updates !! "email" = None ->
  (Latin1 password ->
   exists (account : obj) st',
     updateUser userId updates st
     = Return (Success (Some MsgUpdated) (User (sanitizeUser account)), st')
     /\ forall q now,
          code_units q ->
          (exists p' st'',
              login email q now st' = Return (Success (Some MsgLoggedIn) p', st''))
          <-> q = password)
  /\ (~ Latin1 password ->
      updateUser userId updates st = Throw InvalidCharacterError).
Proof.
  intros Hid Hem He Hp Hcu Hpw Hnid Hnem. split.
  - intros Hl.
    pose proof (hashPassword_Latin1 password Hl) as Hh.
    set (h := Base64.encode (password ++ js "saju2026_salt")) in *.
    set (updates' := <["password" := VStr h]> updates).
    set (user' := updates' ∪ user).
    exists user', (republished userId user' st). split.
    + apply (updateUser_ok userId updates updates' st user Hid).
      * by apply (hashed_updates_password updates password h).
      * unfold updates'. by rewrite lookup_insert_ne, Hnem.
    + intros q now Hq.
      eapply (login_iff email password q now _ user' h); try done.
      * rewrite republished_users. eapply saveUser_copy_email; [exact Hem | |].
        -- unfold user', updates'. rewrite lookup_union_r by (by rewrite lookup_insert_ne).
           rewrite (find_id_Some _ _ _ Hid). apply strict_eq_str.
        -- unfold user', updates'. rewrite lookup_union_r by (by rewrite lookup_insert_ne).
           by eapply find_email_Some.
      * unfold user', updates'. apply lookup_union_Some_l, lookup_insert_eq.
  - intros Hn. pose proof (hashPassword_not_Latin1 password Hcu Hn) as Hh.
    unfold updateUser. rewrite Hid. unfold hashed_updates. rewrite Hpw.
    apply truthy_str_nonempty in Hp as ->. cbn [ToString]. by rewrite Hh.
Qed.

(** Alice changes her password. *)
Lemma updateUser_password_then_login_witness :
  let updates : obj := {[ "password" := VStr (js "new-secret") ]} in
  exists (account : obj) st',
    updateUser alice_id updates alice_registered
    = Return (Success (Some MsgUpdated) (User (sanitizeUser account)), st')
    /\ forall q now,
         code_units q ->
         (exists p' st'',
             login (js "alice@example.com") q now st'
             = Return (Success (Some MsgLoggedIn) p', st''))
         <-> q = js "new-secret".
Proof.
  intros updates.
  exact (proj1 (updateUser_password_then_login alice_id (js "alice@example.com")
                  (js "new-secret") updates alice_registered alice_account
                  find_alice_by_id find_alice_by_email ltac:(discriminate)
                  ltac:(discriminate) (code_units_js _) eq_refl eq_refl eq_refl)
           (Latin1_js _)).
Defined.

(** X8. A patch with an [email] that is not empty and that no stored
    account has, and with neither [id] nor [password]: [updateUser]
    succeeds, the account is then the one found under the new email, and
    [login] with the new email succeeds with the password of the account
    and with no other string. *)
Theorem updateUser_email_then_login (userId email password : jsstring) (updates : obj)
    (st : localStorage) (user : obj) (h : jsstring) :
  find (fun u : obj => strict_eq (u !! "id") (Some (VStr userId))) (getUsers st)
  = Some user ->
  user !! "password" = Some (VStr h) ->
  hashPassword password = Return h ->
  password <> [] -> code_units password ->
  updates !! "email" = Some (VStr email) -> email <> [] ->
  find (fun u : obj => strict_eq (u !! "email") (Some (VStr email))) (getUsers st) = None ->
  updates !! "id" = None -> updates !! "password" = None ->
  exists (account : obj) st',
    updateUser userId updates st
    = Return (Success (Some MsgUpdated) (User (sanitizeUser account)), st')
    /\ account !! "email" = Some (VStr email)
    /\ find (fun u : obj => strict_eq (u !! "email") (Some (VStr email))) (getUsers st')
       = Some account
    /\ forall q now,
         code_units q ->
         (exists p' st'',
             login email q now st' = Return (Success (Some MsgLoggedIn) p', st''))
         <-> q = password.
Proof.
  intros Hid Hpw Hh Hp Hcp Hem He Hnone Hnid Hnpw.
  set (user' := updates ∪ user).
  assert (Hem' : user' !! "email" = Some (VStr email)) by (by apply lookup_union_Some_l).
  assert (Hfind' : forall st', getUsers st' = getUsers (saveUser user' st) ->
            find (fun u : obj => strict_eq (u !! "email") (Some (VStr email))) (getUsers st')
            = Some user').
  { intros st' ->. by apply saveUser_new_email. }
  exists user', (republished userId user' st). split_and!.
  - unfold updateUser. rewrite Hid.
    assert (hashed_updates updates = Return updates) as ->
      by (unfold hashed_updates; by rewrite Hnpw).
    unfold mret, outcome_ret, mbind, outcome_bind.
    rewrite bool_decide_eq_false_2; [by rewrite !andb_false_r|].
    intros [v Hv]. rewrite Hem in Hv.
    apply find_Some in Hv as (i & Hi & Hv & _).
    rewrite find_None in Hnone. rewrite (Hnone i v Hi) in Hv. discriminate.
  - exact Hem'.
  - apply Hfind', republished_users.
  - intros q now Hq.
    eapply (login_iff email password q now _ user' h); try done.
    + apply Hfind', republished_users.
    + unfold user'. by rewrite lookup_union_r.
Qed.

(** Alice changes her email. *)
Lemma updateUser_email_then_login_witness :
  let updates : obj := {[ "email" := VStr (js "alice@new.example") ]} in
  exists (account : obj) st',
    updateUser alice_id updates alice_registered
    = Return (Success (Some MsgUpdated) (User (sanitizeUser account)), st')
    /\ account !! "email" = Some (VStr (js "alice@new.example"))
    /\ find (fun u : obj => strict_eq (u !! "email") (Some (VStr (js "alice@new.example"))))
         (getUsers st') = Some account
    /\ forall q now,
         code_units q ->
         (exists p' st'',
             login (js "alice@new.example") q now st'
             = Return (Success (Some MsgLoggedIn) p', st''))
         <-> q = js "longenough".
Proof.
  intros updates.
  assert (Hnone : find (fun u : obj =>
                          strict_eq (u !! "email") (Some (VStr (js "alice@new.example"))))
                    (getUsers alice_registered) = None) by by_evaluation.
  exact (updateUser_email_then_login alice_id (js "alice@new.example")
           (js "longenough") updates alice_registered alice_account _
           find_alice_by_id eq_refl (hashPassword_Latin1 _ (Latin1_js _))
           ltac:(discriminate) (code_units_js _) eq_refl ltac:(discriminate)
           Hnone eq_refl eq_refl).
Defined.

(** X9. For the account found under an id and under an email, and a patch
    whose [password] is the empty string and that has neither [id] nor
    [email]. The password is not encoded: the check [if (updates.password)]
    passes it by and [Object.assign] stores it. [updateUser] succeeds, the
    account then has the empty string for its password, and from then on
    no [login] with the email of the account succeeds, whatever the
    password: it returns a failure and leaves the store as it is, or, for
    a password with a code unit above U+00FF, raises
    [InvalidCharacterError]. *)
Theorem updateUser_empty_password_locks (userId email : jsstring) (updates : obj)
    (st : localStorage) (user : obj) :
  find (fun u : obj => strict_eq (u !! "id") (Some (VStr userId))) (getUsers st)
  = Some user ->
  find (fun u : obj => strict_eq (u !! "email") (Some (VStr email))) (getUsers st)
  = Some user ->
  updates !! "password" = Some (VStr []) ->
  updates !! "id" = None -> updates !! "email" = None ->
  exists (account : obj) st',
    updateUser userId updates st
    = Return (Success (Some MsgUpdated) (User (sanitizeUser account)), st')
    /\ find (fun u : obj => strict_eq (u !! "email") (Some (VStr email))) (getUsers st')
       = Some account
    /\ account !! "password" = Some (VStr [])
    /\ forall q now,
         (exists m', login email q now st' = Return (Failure m', st'))
         \/ login email q now st' = Throw InvalidCharacterError.
Proof.
  intros Hid Hem Hpw Hnid Hnem.
  set (user' := updates ∪ user).
  assert (Hp' : user' !! "password" = Some (VStr [])) by (by apply lookup_union_Some_l).
  assert (Hu' : find (fun u : obj => strict_eq (u !! "email") (Some (VStr email)))
                  (getUsers (republished userId user' st)) = Some user').
  { rewrite republished_users. eapply saveUser_copy_email; [exact Hem | |].
    - unfold user'. rewrite lookup_union_r by done.
      rewrite (find_id_Some _ _ _ Hid). apply strict_eq_str.
    - unfold user'. rewrite lookup_union_r by done. by eapply find_email_Some. }
  exists user', (republished userId user' st). split_and!; [| exact Hu' | exact Hp' |].
  - apply (updateUser_ok userId updates updates st user Hid).
    + unfold hashed_updates. by rewrite Hpw.
    + by rewrite Hnem.
  - intros q now.
    destruct email as [| e email'];
      [left; eexists; apply login_missing; by left|].
    destruct q as [| c q'];
      [left; eexists; apply login_missing; by right|].
    destruct (hashPassword (c :: q')) as [h | x] eqn:Hq.
    + left. exists MsgWrongPassword.
      rewrite (login_found (e :: email') (c :: q') now _ user' h) by done.
      rewrite Hp'. destruct (strict_eq _ _) eqn:Es; [|done].
      apply strict_eq_true in Es. injection Es as ->.
      by apply hashPassword_nonempty in Hq.
    + right. destruct x.
      * by apply (login_throws (e :: email') (c :: q') now _ user').
      * unfold hashPassword, btoa in Hq. by destruct (forallb _ _).
Qed.

(** Alice sets an empty password. *)
Lemma updateUser_empty_password_locks_witness :
  let updates : obj := {[ "password" := VStr [] ]} in
  exists (account : obj) st',
    updateUser alice_id updates alice_registered
    = Return (Success (Some MsgUpdated) (User (sanitizeUser account)), st')
    /\ find (fun u : obj => strict_eq (u !! "email") (Some (VStr (js "alice@example.com"))))
         (getUsers st') = Some account
    /\ account !! "password" = Some (VStr [])
    /\ forall q now,
         (exists m', login (js "alice@example.com") q now st' = Return (Failure m', st'))
         \/ login (js "alice@example.com") q now st' = Throw InvalidCharacterError.
Proof.
  intros updates.
  exact (updateUser_empty_password_locks alice_id (js "alice@example.com")
           updates alice_registered alice_account
           find_alice_by_id find_alice_by_email eq_refl eq_refl eq_refl).
Defined.

(** ** What the store keeps *)

(** X10. [saveUser] and [find] by id, for an account whose id is not an
    object or an array: the saved account is the one found under its id,
    saving it a second time changes nothing, the stored accounts of other
    ids stay, and the current user is not touched. *)
Theorem saveUser_lookup (user : obj) (st : localStorage) :
  strict_eq (user !! "id") (user !! "id") = true ->
  find (fun u : obj => strict_eq (u !! "id") (user !! "id")) (getUsers (saveUser user st))
  = Some user
  /\ saveUser user (saveUser user st) = saveUser user st
  /\ (forall v : obj,
         v ∈ getUsers st -> strict_eq (v !! "id") (user !! "id") = false ->
         v ∈ getUsers (saveUser user st))
  /\ getCurrentUser (saveUser user st) = getCurrentUser st.
Proof.
  intros Hid.
  assert (Hfind : find (fun u : obj => strict_eq (u !! "id") (user !! "id"))
                    (getUsers (saveUser user st)) = Some user).
  { unfold saveUser.
    destruct (findIndex _ _) as [i|] eqn:Hidx; cbn [getUsers USER_STORAGE_KEY].
    - apply findIndex_Some in Hidx as (x & Hi & _ & Hlt).
      by eapply find_insert_first.
    - apply findIndex_find in Hidx. by apply find_app_new. }
  split_and!; [exact Hfind | | | reflexivity].
  - apply find_index in Hfind as (i & Hi & _ & _ & Hidx).
    rewrite (saveUser_replace _ _ _ Hidx).
    rewrite list_insert_id by done. by destruct (saveUser user st).
  - intros v [j Hj]%list_elem_of_lookup Hne.
    destruct (saveUser_cases user st) as [(i & x & Hi & Hx & ->) | [_ ->]].
    + destruct (decide (j = i)) as [-> | Hji].
      * rewrite Hi in Hj. injection Hj as ->. rewrite Hx, Hid in Hne. discriminate.
      * eapply list_elem_of_lookup_2. by rewrite list_lookup_insert_ne.
    + apply elem_of_app. left. by eapply list_elem_of_lookup_2.
Qed.

(** Alice's account, saved in a fresh browser. *)
Lemma saveUser_lookup_witness :
  find (fun u : obj => strict_eq (u !! "id") (alice_account !! "id"))
    (getUsers (saveUser alice_account fresh)) = Some alice_account
  /\ saveUser alice_account (saveUser alice_account fresh) = saveUser alice_account fresh
  /\ (forall v : obj,
         v ∈ getUsers fresh -> strict_eq (v !! "id") (alice_account !! "id") = false ->
         v ∈ getUsers (saveUser alice_account fresh))
  /\ getCurrentUser (saveUser alice_account fresh) = getCurrentUser fresh.
Proof.
  apply saveUser_lookup. by_evaluation.
Defined.

Lemma saveUser_ids user st : adds_at_most_one st (saveUser user st).
Proof.
  unfold adds_at_most_one, ids.
  destruct (saveUser_cases user st) as [(i & x & Hi & Hx & ->) | [_ ->]].
  - left. rewrite list_fmap_insert, <- Hx. apply list_insert_id.
    by rewrite list_lookup_fmap, Hi.
  - right. exists (user !! "id"). by rewrite fmap_app.
Qed.

(** A changed copy of the account found under an id, saved with this id, is
    then the account found under the id, and leaves the ids as they
    are. *)
Lemma saveUser_found_find userId st (user user' : obj) :
  find (fun u : obj => strict_eq (u !! "id") (Some (VStr userId))) (getUsers st)
  = Some user ->
  user' !! "id" = Some (VStr userId) ->
  find (fun u : obj => strict_eq (u !! "id") (Some (VStr userId)))
    (getUsers (saveUser user' st)) = Some user'.
Proof.
  intros Hfind Hid. destruct (saveUser_found _ _ _ _ Hfind Hid) as (i & Hi & Hlt & ->).
  cbn [getUsers USER_STORAGE_KEY].
  eapply find_insert_first; [exact Hi | exact Hlt | by apply strict_eq_str_true].
Qed.

Lemma saveUser_found_ids userId st (user user' : obj) :
  find (fun u : obj => strict_eq (u !! "id") (Some (VStr userId))) (getUsers st)
  = Some user ->
  user' !! "id" = Some (VStr userId) ->
  ids (saveUser user' st) = ids st.
Proof.
  intros Hfind Hid.
  destruct (saveUser_found _ _ _ _ Hfind Hid) as (i & Hi & _ & ->).
  unfold ids. cbn [getUsers USER_STORAGE_KEY].
  rewrite list_fmap_insert, Hid, <- (find_id_Some _ _ _ Hfind). apply list_insert_id.
  by rewrite list_lookup_fmap, Hi.
Qed.

Lemma adds_at_most_one_refl st : adds_at_most_one st st.
Proof. by left. Qed.

Lemma adds_at_most_one_same st st1 st2 :
  ids st1 = ids st -> adds_at_most_one st1 st2 -> adds_at_most_one st st2.
Proof. unfold adds_at_most_one. by intros ->. Qed.

Lemma updateUser_ids userId updates st :
  adds_at_most_one st (stored (updateUser userId updates st) st).
Proof.
  destruct (updateUser userId updates st) as [[[m | m p] st']|] eqn:E; cbn [stored];
    try apply adds_at_most_one_refl.
  - apply updateUser_failure in E as ->. apply adds_at_most_one_refl.
  - apply updateUser_success in E as (user & updates' & _ & _ & _ & _ & [-> | ->]);
      apply saveUser_ids.
Qed.

Lemma exec_ids tz c st : adds_at_most_one st (exec tz c st).
Proof.
  destruct c; cbn [exec].
  - unfold initializeUsers, mret, outcome_ret, mbind, outcome_bind.
    destruct (getUsers st); [|apply adds_at_most_one_refl].
    destruct (hashPassword _); [apply saveUser_ids | apply adds_at_most_one_refl].
  - destruct (register userData now rnd st) as [[[m | m p] st']|] eqn:E; cbn [stored];
      try apply adds_at_most_one_refl.
    + apply register_failure in E as ->. apply adds_at_most_one_refl.
    + apply register_success in E as (? & ? & _ & _ & _ & _ & _ & ->). apply saveUser_ids.
  - destruct (login email password now st) as [[[m | m p] st']|] eqn:E; cbn [stored];
      try apply adds_at_most_one_refl.
    + apply login_failure in E as ->. apply adds_at_most_one_refl.
    + apply login_success in E as (? & _ & _ & _ & ->). apply saveUser_ids.
  - by left.
  - by left.
  - apply updateUser_ids.
  - unfold saveSajuData. destruct (find _ _); [|apply adds_at_most_one_refl].
    cbn [snd]. unfold getCurrentUser. cbn [saveUser CURRENT_USER_KEY].
    destruct (CURRENT_USER_KEY st); [destruct (strict_eq _ _)|]; apply saveUser_ids.
  - unfold addPurchaseHistory, mret, outcome_ret, mbind, outcome_bind.
    destruct (find _ _) as [user|] eqn:Hfind; [|apply adds_at_most_one_refl].
    destruct (history _) as [l|]; [|apply adds_at_most_one_refl].
    match goal with |- context [saveUser ?u st] => set (user' := u) end.
    assert (Hid' : user' !! "id" = Some (VStr userId)).
    { unfold user'. rewrite lookup_insert_ne by done. by eapply find_id_Some. }
    pose proof (saveUser_found_ids _ _ _ _ Hfind Hid') as Hsame.
    destruct (_ || _); [|by left].
    match goal with |- context [updateUser userId ?u ?s] =>
      pose proof (updateUser_ids userId u s) as H
    end.
    destruct (updateUser _ _ _) as [[r st2]|]; cbn [stored] in *.
    + by eapply adds_at_most_one_same.
    + by left.
  - unfold addConsultationHistory, mret, outcome_ret, mbind, outcome_bind.
    destruct (find _ _); [|apply adds_at_most_one_refl].
    destruct (history _); [apply saveUser_ids | apply adds_at_most_one_refl].
  - unfold resetPassword, mret, outcome_ret, mbind, outcome_bind.
    destruct (find _ _); [|apply adds_at_most_one_refl].
    destruct (hashPassword _); [apply saveUser_ids | apply adds_at_most_one_refl].
Qed.

(** X11. No call takes an id out of the store or changes the id stored at
    a position: the list of the stored ids before a call is a prefix of
    the list after it, the number of stored accounts does not go down and
    goes up by one at most, and so the ids after a sequence of calls are a
    prefix of the ids after any longer sequence. This is about the ids
    only: what is stored under an id may be written over. *)
Theorem ids_only_grow (LocalTZA : Z -> bool -> Z) :
  (forall c st,
      ids st `prefix_of` ids (exec LocalTZA c st)
      /\ (length (getUsers st) <= length (getUsers (exec LocalTZA c st))
          <= S (length (getUsers st)))%nat)
  /\ (forall calls more,
         ids (run LocalTZA calls) `prefix_of` ids (run LocalTZA (calls ++ more))).
Proof.
  assert (Hstep : forall c st, ids st `prefix_of` ids (exec LocalTZA c st)
            /\ (length (getUsers st) <= length (getUsers (exec LocalTZA c st))
                <= S (length (getUsers st)))%nat).
  { intros c st.
    assert (Hl : forall s, length (getUsers s) = length (ids s))
      by (intros s; unfold ids; by rewrite length_fmap).
    rewrite !Hl.
    destruct (exec_ids LocalTZA c st) as [-> | [v ->]].
    - split; [done | lia].
    - split; [by apply prefix_app_r | rewrite length_app; simpl; lia]. }
  split; [exact Hstep|].
  intros calls more. induction more as [| c more IH] using rev_ind.
  - by rewrite app_nil_r.
  - rewrite app_assoc, run_snoc. etrans; [exact IH | apply Hstep].
Qed.

(** What is stored under an id may be written over: Alice and Bob are
    registered, and a patch for Alice with the id of Bob leaves the ids as
    they are and puts a copy of the account of Alice where the account of
    Bob was. *)
Lemma updateUser_writes_over :
  let bob_id := generateUserId (t0 + 2) (js "p0o9i8u7y") in
  let before := run KST [Register alice t0 (js "k3j9x0q1z");
                         Register bob (t0 + 2) (js "p0o9i8u7y")] in
  let after := exec KST (UpdateUser alice_id {[ "id" := VStr bob_id ]}) before in
  ids before = [Some (VStr alice_id); Some (VStr bob_id)]
  /\ ids after = [Some (VStr alice_id); Some (VStr bob_id)]
  /\ (fun u : obj => u !! "email") <$> getUsers before
     = [Some (VStr (js "alice@example.com")); Some (VStr (js "bob@example.com"))]
  /\ (fun u : obj => u !! "email") <$> getUsers after
     = [Some (VStr (js "alice@example.com")); Some (VStr (js "alice@example.com"))].
Proof. intros bob_id before after. split_and!; by_evaluation. Qed.

(** X12. After any sequence of calls, starting in a fresh browser, in which
    no [updateUser] has a patch with an [id] other than that of the
    account it names or with an [email] that is falsy, every stored
    account has a string for its id and no two stored accounts have the
    same id. *)
Theorem ids_unique_strings (LocalTZA : Z -> bool -> Z) (calls : list call) :
  Forall keeps_identity calls ->
  string_ids (getUsers (run LocalTZA calls))
  /\ unique "id" (getUsers (run LocalTZA calls)).
Proof.
  intros H. destruct (run_well_formed LocalTZA calls H) as (Hs & Hu & _).
  split; [done|]. apply distinct_unique; [done | by apply string_ids_primitive].
Qed.

(** Alice and Bob register. *)
Lemma ids_unique_strings_witness :
  let calls := [Register alice t0 (js "k3j9x0q1z"); Register bob (t0 + 2) (js "p0o9i8u7y")] in
  string_ids (getUsers (run KST calls)) /\ unique "id" (getUsers (run KST calls)).
Proof.
  intros calls. apply ids_unique_strings. by repeat constructor.
Defined.

Lemma encoded_copy (u u' : obj) :
  encoded u -> u' !! "password" = u !! "password" -> encoded u'.
Proof. unfold encoded. by intros H ->. Qed.

Lemma encoded_hash (u : obj) s h :
  hashPassword s = Return h -> u !! "password" = Some (VStr h) -> encoded u.
Proof. intros Hh Hu _. eauto. Qed.

Lemma updateUser_encoded userId updates st :
  Forall encoded (getUsers st) ->
  Forall encoded (getUsers (stored (updateUser userId updates st) st)).
Proof.
  intros Hst.
  destruct (updateUser userId updates st) as [[[m | m p] st']|] eqn:E; cbn [stored];
    try done.
  { by apply updateUser_failure in E as ->. }
  apply updateUser_success in E as (user & updates' & Hfind & Hh & _ & _ & Hst').
  assert (Forall encoded (getUsers (saveUser (updates' ∪ user) st))) as H;
    [| by destruct Hst' as [-> | ->]].
  apply saveUser_Forall; [|done].
  pose proof (find_Forall _ _ _ _ Hst Hfind) as Hu.
  unfold hashed_updates, mret, outcome_ret, mbind, outcome_bind in Hh.
  destruct (updates !! "password") as [pw|] eqn:Hpw.
  - destruct (truthy (Some pw)) eqn:Ht.
    + destruct (hashPassword (ToString pw)) as [h|] eqn:Hp; [|discriminate Hh].
      injection Hh as <-. eapply encoded_hash; [exact Hp|].
      apply lookup_union_Some_l, lookup_insert_eq.
    + injection Hh as <-. intros Ht'.
      rewrite (lookup_union_Some_l _ _ _ _ Hpw) in Ht'. congruence.
  - injection Hh as <-. eapply encoded_copy; [exact Hu|]. by apply lookup_union_r.
Qed.

Lemma exec_encoded tz c st :
  Forall encoded (getUsers st) -> Forall encoded (getUsers (exec tz c st)).
Proof.
  intros Hst. destruct c; cbn [exec].
  - unfold initializeUsers, mret, outcome_ret, mbind, outcome_bind.
    destruct (getUsers st) eqn:Hus; [|by rewrite Hus].
    destruct (hashPassword _) as [h|] eqn:Hh; [|by rewrite Hus].
    apply saveUser_Forall; [|by rewrite Hus].
    eapply encoded_hash; [exact Hh | reflexivity].
  - destruct (register userData now rnd st) as [[[m | m p] st']|] eqn:E; cbn [stored];
      try done.
    { by apply register_failure in E as ->. }
    apply register_stored in E
      as (? & pw & h & newUser & _ & _ & _ & _ & _ & Hh & _ & Hpw & _ & ->).
    apply saveUser_Forall; [|done]. by eapply encoded_hash.
  - destruct (login email password now st) as [[[m | m p] st']|] eqn:E; cbn [stored];
      try done.
    { by apply login_failure in E as ->. }
    apply login_success in E as (user & Hfind & _ & _ & ->).
    cbn [setCurrentUser getUsers USER_STORAGE_KEY].
    apply (saveUser_Forall encoded); [|done].
    eapply encoded_copy; [by eapply find_Forall | by rewrite lookup_insert_ne].
  - done.
  - done.
  - by apply updateUser_encoded.
  - unfold saveSajuData. destruct (find _ _) as [user|] eqn:Hfind; [|done].
    cbn [snd]. unfold getCurrentUser. cbn [saveUser CURRENT_USER_KEY].
    assert (Forall encoded (getUsers (saveUser
              (<["sajuCalculatedAt" := VStr (toISOString now)]>
                 (<["sajuData" := sajuData]> user)) st))) as H.
    { apply saveUser_Forall; [|done].
      eapply encoded_copy; [by eapply find_Forall | by rewrite !lookup_insert_ne]. }
    destruct (CURRENT_USER_KEY st); [destruct (strict_eq _ _)|]; exact H.
  - unfold addPurchaseHistory, mret, outcome_ret, mbind, outcome_bind.
    destruct (find _ _) as [user|] eqn:Hfind; [|done].
    destruct (history _) as [l|]; [|done].
    match goal with |- context [saveUser ?u st] => set (user' := u) end.
    assert (H : Forall encoded (getUsers (saveUser user' st))).
    { apply saveUser_Forall; [|done].
      eapply encoded_copy; [by eapply find_Forall | unfold user'; by rewrite lookup_insert_ne]. }
    destruct (_ || _); [|exact H].
    match goal with |- context [updateUser userId ?u ?s] =>
      pose proof (updateUser_encoded userId u s H) as H'
    end.
    destruct (updateUser _ _ _) as [[r st2]|]; cbn [stored] in *; done.
  - unfold addConsultationHistory, mret, outcome_ret, mbind, outcome_bind.
    destruct (find _ _) as [user|] eqn:Hfind; [|done].
    destruct (history _) as [l|]; [|done]. cbn [stored].
    apply saveUser_Forall; [|done].
    eapply encoded_copy; [by eapply find_Forall | by rewrite lookup_insert_ne].
  - unfold resetPassword, mret, outcome_ret, mbind, outcome_bind.
    destruct (find _ _) as [user|] eqn:Hfind; [|done].
    destruct (hashPassword _) as [h|] eqn:Hh; [|done]. cbn [stored].
    apply saveUser_Forall; [|done].
    eapply encoded_hash; [exact Hh | apply lookup_insert_eq].
Qed.

(** X13. Every truthy stored password is encoded: after any sequence of
    calls, starting in a fresh browser, the password of a stored account,
    when it is truthy, is something that [hashPassword] has returned. *)
Theorem stored_passwords_encoded (LocalTZA : Z -> bool -> Z) (calls : list call) (u : obj) :
  u ∈ getUsers (run LocalTZA calls) ->
  truthy (u !! "password") = true ->
  exists s h, hashPassword s = Return h /\ u !! "password" = Some (VStr h).
Proof.
  assert (H : Forall encoded (getUsers (run LocalTZA calls))).
  { induction calls as [| c calls IH] using rev_ind; [constructor|].
    rewrite run_snoc. by apply exec_encoded. }
  intros Hu. rewrite Forall_forall in H. exact (H u Hu).
Qed.

(** The account of Alice. *)
Lemma stored_passwords_encoded_witness :
  exists s h, hashPassword s = Return h /\ alice_account !! "password" = Some (VStr h).
Proof.
  apply (stored_passwords_encoded KST [Register alice t0 (js "k3j9x0q1z")]).
  - change (alice_account ∈ getUsers alice_registered).
    rewrite alice_registered_eq. apply list_elem_of_here.
  - reflexivity.
Defined.

(** ** Purchases and the membership *)

(** What a successful [addPurchaseHistory] has done. *)
Lemma addPurchaseHistory_success tz userId purchase now st m p st' :
  addPurchaseHistory tz userId purchase now st = Return (Success m p, st') ->
  exists (user : obj) l,
    find (fun u : obj => strict_eq (u !! "id") (Some (VStr userId))) (getUsers st)
    = Some user
    /\ history (user !! "purchaseHistory") = Return l
    /\ let user' :=
         <["purchaseHistory" := VArr (VObj (record (js "purchase_") purchase now) :: l)]>
           user in
       st' = match premium_months purchase with
             | Some k =>
                 let patch := premium_patch (setMonth tz now (getMonth tz now + k)) in
                 republished userId (patch ∪ user') (saveUser user' st)
             | None => saveUser user' st
             end.
Proof.
  unfold addPurchaseHistory, mret, outcome_ret, mbind, outcome_bind.
  destruct (find _ _) as [user|] eqn:Hfind; [|discriminate].
  destruct (history _) as [l|] eqn:Hl; [|discriminate].
  match goal with |- context [saveUser ?u st] => set (user' := u) end.
  assert (Hid' : user' !! "id" = Some (VStr userId)).
  { unfold user'. rewrite lookup_insert_ne by done. by eapply find_id_Some. }
  pose proof (saveUser_found_find _ _ _ _ Hfind Hid') as Hfind1.
  unfold premium_months.
  destruct (strict_eq (purchase !! "type") (Some (VStr (js "premium_yearly")))) eqn:Hy.
  - rewrite orb_true_r.
    fold (premium_patch (setMonth tz now (getMonth tz now + 12))).
    set (patch := premium_patch _).
    rewrite (updateUser_ok userId patch patch (saveUser user' st) user');
      [| exact Hfind1 | done | done].
    intros [= <- <- <-]. exists user, l. split_and!; done.
  - rewrite orb_false_r.
    destruct (strict_eq (purchase !! "type") (Some (VStr (js "premium_monthly")))) eqn:Hm.
    + fold (premium_patch (setMonth tz now (getMonth tz now + 1))).
      set (patch := premium_patch _).
      rewrite (updateUser_ok userId patch patch (saveUser user' st) user');
        [| exact Hfind1 | done | done].
      intros [= <- <- <-]. exists user, l. split_and!; done.
    + intros [= <- <- <-]. exists user, l. split_and!; done.
Qed.

(** X14. A successful purchase of [premium_monthly] or [premium_yearly]
    leaves the account found under the id with the membership [premium]
    and with the expiry that [setMonth] gives in the local time zone: the
    same local time one month, or twelve months, after the purchase, taken
    back to UTC with the offset that holds then (the expiry being a time
    that a [Date] can hold). A current user of this id is replaced by the
    account, sanitized, and any other current user stays. *)
Theorem premium_purchase_stored (LocalTZA : Z -> bool -> Z) (userId : jsstring) (purchase : obj)
    (now k : Z) (st st' : localStorage) (m : option message) (p : payload) :
  premium_months purchase = Some k ->
  valid_time (setMonth LocalTZA now (getMonth LocalTZA now + k)) ->
  addPurchaseHistory LocalTZA userId purchase now st = Return (Success m p, st') ->
  exists account : obj,
    find (fun u : obj => strict_eq (u !! "id") (Some (VStr userId))) (getUsers st')
    = Some account
    /\ account !! "membershipType" = Some (VStr (js "premium"))
    /\ account !! "premiumExpiry"
       = Some (VStr (toISOString (setMonth LocalTZA now (getMonth LocalTZA now + k))))
    /\ getCurrentUser st'
       = match getCurrentUser st with
         | Some currentUser =>
             if strict_eq (currentUser !! "id") (Some (VStr userId))
             then Some (sanitizeUser account) else Some currentUser
         | None => None
         end.
Proof.
  intros Hk _ (user & l & Hfind & Hl & Hst)%addPurchaseHistory_success.
  rewrite Hk in Hst. cbv zeta in Hst.
  set (user' := <["purchaseHistory" := _]> user) in *.
  set (patch := premium_patch _) in *.
  assert (Hid' : user' !! "id" = Some (VStr userId)).
  { unfold user'. rewrite lookup_insert_ne by done. by eapply find_id_Some. }
  pose proof (saveUser_found_find _ _ _ _ Hfind Hid') as Hfind1.
  assert (Hid2 : (patch ∪ user') !! "id" = Some (VStr userId)).
  { rewrite lookup_union_r; [exact Hid' | done]. }
  exists (patch ∪ user'). subst st'. split_and!.
  - rewrite republished_users. by eapply saveUser_found_find.
  - by apply lookup_union_Some_l.
  - by apply lookup_union_Some_l.
  - by rewrite republished_current.
Qed.

Lemma alice_logged_in_current :
  getCurrentUser alice_logged_in
  = Some (sanitizeUser (<["lastLogin" := VStr (toISOString (t0 + 5))]> alice_account)).
Proof. by_evaluation. Qed.

(** Alice, logged in, buys a year. *)
Lemma premium_purchase_stored_witness :
  let purchase : obj := {[ "type" := VStr (js "premium_yearly") ]} in
  let st' := exec KST (AddPurchaseHistory alice_id purchase (t0 + 9)) alice_logged_in in
  exists account : obj,
    find (fun u : obj => strict_eq (u !! "id") (Some (VStr alice_id))) (getUsers st')
    = Some account
    /\ account !! "membershipType" = Some (VStr (js "premium"))
    /\ account !! "premiumExpiry"
       = Some (VStr (toISOString (setMonth KST (t0 + 9) (getMonth KST (t0 + 9) + 12))))
    /\ getCurrentUser st'
       = match getCurrentUser alice_logged_in with
         | Some currentUser =>
             if strict_eq (currentUser !! "id") (Some (VStr alice_id))
             then Some (sanitizeUser account) else Some currentUser
         | None => None
         end.
Proof.
  intros purchase st'.
  assert (E : addPurchaseHistory KST alice_id purchase (t0 + 9) alice_logged_in
              = Return (Success None (Purchase (record (js "purchase_") purchase (t0 + 9))),
                        st')) by by_evaluation.
  refine (premium_purchase_stored KST alice_id purchase (t0 + 9) 12 alice_logged_in st'
            _ _ eq_refl _ E).
  vm_compute. split; discriminate.
Defined.

(** In New York, Alice buys a month at noon of 10 October 2026. The month
    includes the end of daylight saving: the expiry is noon of 10
    November, which is 17:00 UTC where the purchase was at 16:00 UTC. *)
Lemma premium_purchase_new_york :
  let t := 1791648000000 in
  let calls := [Register alice t (js "k3j9x0q1z");
                Login (js "alice@example.com") (js "longenough") (t + 5);
                AddPurchaseHistory (generateUserId t (js "k3j9x0q1z"))
                  {[ "type" := VStr (js "premium_monthly") ]} (t + 9)] in
  toISOString t = js "2026-10-10T16:00:00.000Z"
  /\ ((.!! "premiumExpiry") <$> getUsers (run New_York calls)
      = [Some (VStr (js "2026-11-10T17:00:00.009Z"))]
      /\ ((.!! "premiumExpiry") <$> getCurrentUser (run New_York calls))
         = Some (Some (VStr (js "2026-11-10T17:00:00.009Z")))).
Proof. intros t calls. split_and!; by_evaluation. Qed.

Lemma DaysInYear_next y : DaysInYear y = 366 -> DaysInYear (y + 1) = 365.
Proof.
  unfold DaysInYear.
  repeat match goal with
         | |- context [negb (?a =? ?b)] => destruct (Z.eqb_spec a b); cbn [negb]
         end; try lia; intros _; exfalso; Z.div_mod_to_equations; lia.
Qed.

(** The same day twelve months on is 365 or 366 days on. *)
Lemma MakeDay_year t :
  365 <= MakeDay (YearFromTime t) (MonthFromTime t + 12) (DateFromTime t) - Day t <= 366.
Proof.
  rewrite (MakeDay_months t 12) by lia.
  pose proof (MonthFromTime_bounds t) as Hm.
  unfold InLeapYear.
  destruct (Z.ltb_spec (MonthFromTime t + 12) 12); [lia|].
  replace (MonthFromTime t + 12 - 12) with (MonthFromTime t) by lia.
  destruct (DaysInYear_cases (YearFromTime t)) as [E | E]; rewrite E.
  - destruct (DaysInYear_cases (YearFromTime t + 1)) as [E' | E']; rewrite E';
      change (365 =? 366) with false; change (366 =? 366) with true; cbv iota;
      unfold monthStart; case_tests; lia.
  - rewrite (DaysInYear_next _ E).
    change (365 =? 366) with false; change (366 =? 366) with true; cbv iota;
      unfold monthStart; case_tests; lia.
Qed.

(** Twelve months on is more than 363 and less than 368 days on: 365 or
    366 days of the calendar, and the change of the offset. *)
Lemma setMonth_year LocalTZA t :
  offsets_within_a_day LocalTZA ->
  t + 363 * msPerDay < setMonth LocalTZA t (getMonth LocalTZA t + 12)
  < t + 368 * msPerDay.
Proof.
  intros Hoff.
  apply (setMonth_within LocalTZA t (getMonth LocalTZA t + 12) 365 366 Hoff).
  apply MakeDay_year.
Qed.

(** X15. After the current user has bought [premium_yearly] at [t0], in
    a time zone whose offsets are within a day of UTC, [isPremiumUser] is
    true until 363 days have passed and false once 368 days have: the
    expiry is the same local time twelve months on, 365 or 366 days of the
    calendar and what the offset of local time changes by in between. *)
Theorem premium_yearly_window (LocalTZA : Z -> bool -> Z) (userId : jsstring) (purchase : obj)
    (t0 : Z) (st st' : localStorage) (cu : obj) (m : option message) (p : payload) :
  offsets_within_a_day LocalTZA ->
  - 8640000000000000 <= t0 <= 8640000000000000 - 368 * msPerDay ->
  getCurrentUser st = Some cu ->
  cu !! "id" = Some (VStr userId) ->
  purchase !! "type" = Some (VStr (js "premium_yearly")) ->
  addPurchaseHistory LocalTZA userId purchase t0 st = Return (Success m p, st') ->
  (forall now, now <= t0 + 363 * msPerDay -> isPremiumUser now st' = true)
  /\ (forall now, t0 + 368 * msPerDay <= now -> isPremiumUser now st' = false).
Proof.
  intros Hoff Ht0 Hcu Hid Htype (user & l & Hfind & Hl & Hst)%addPurchaseHistory_success.
  assert (premium_months purchase = Some 12) as Hk
    by (unfold premium_months; by rewrite Htype, strict_eq_str).
  rewrite Hk in Hst. cbv zeta in Hst.
  set (user' := <["purchaseHistory" := _]> user) in *.
  set (e := setMonth LocalTZA t0 (getMonth LocalTZA t0 + 12)) in *.
  assert (Hu : getCurrentUser st' = Some (sanitizeUser (premium_patch e ∪ user'))).
  { subst st'. rewrite republished_current. unfold getCurrentUser in *.
    by rewrite saveUser_current, Hcu, Hid, strict_eq_str. }
  pose proof (setMonth_year LocalTZA t0 Hoff) as Hyear. fold e in Hyear.
  assert (Hv : valid_time e) by (unfold valid_time, msPerDay in *; lia).
  assert (Hexp : forall now, isPremiumUser now st' = (now <? e)).
  { intros now. eapply isPremiumUser_expiry; [exact Hu | | | exact Hv].
    - rewrite sanitizeUser_other by done. by apply lookup_union_Some_l.
    - rewrite sanitizeUser_other by done. by apply lookup_union_Some_l. }
  unfold msPerDay in *. split; intros now Hnow; rewrite Hexp.
  - apply Z.ltb_lt. lia.
  - apply Z.ltb_ge. lia.
Qed.

Lemma premium_yearly_window_witness :
  let purchase : obj := {[ "type" := VStr (js "premium_yearly") ]} in
  let st' := exec KST (AddPurchaseHistory alice_id purchase (t0 + 9)) alice_logged_in in
  (forall now, now <= t0 + 9 + 363 * msPerDay -> isPremiumUser now st' = true)
  /\ (forall now, t0 + 9 + 368 * msPerDay <= now -> isPremiumUser now st' = false).
Proof.
  intros purchase st'.
  assert (E : addPurchaseHistory KST alice_id purchase (t0 + 9) alice_logged_in
              = Return (Success None (Purchase (record (js "purchase_") purchase (t0 + 9))),
                        st')) by by_evaluation.
  refine (premium_yearly_window KST alice_id purchase (t0 + 9) alice_logged_in st'
            _ _ _ _ _ alice_logged_in_current eq_refl eq_refl E).
  - intros t isUTC. unfold KST, msPerDay. lia.
  - unfold t0, msPerDay. lia.
Defined.

(** X16. A successful purchase of any other type changes nothing but the
    purchase history of the account: the record is put in front of the
    history that was there (the empty one for a history that is missing or
    falsy), every other field of the account is as before, and the current
    user is not touched. *)
Theorem plain_purchase_frame (LocalTZA : Z -> bool -> Z) (userId : jsstring) (purchase : obj)
    (now : Z) (st st' : localStorage) (user : obj) (m : option message) (p : payload) :
  find (fun u : obj => strict_eq (u !! "id") (Some (VStr userId))) (getUsers st)
  = Some user ->
  premium_months purchase = None ->
  addPurchaseHistory LocalTZA userId purchase now st = Return (Success m p, st') ->
  getCurrentUser st' = getCurrentUser st
  /\ exists (account : obj) l,
       find (fun u : obj => strict_eq (u !! "id") (Some (VStr userId))) (getUsers st')
       = Some account
       /\ account !! "purchaseHistory"
          = Some (VArr (VObj (record (js "purchase_") purchase now) :: l))
       /\ history (user !! "purchaseHistory") = Return l
       /\ forall key, key <> "purchaseHistory" -> account !! key = user !! key.
Proof.
  intros Hfind Hk (user0 & l & Hfind0 & Hl & Hst)%addPurchaseHistory_success.
  rewrite Hfind in Hfind0. injection Hfind0 as <-.
  rewrite Hk in Hst. cbv zeta in Hst. subst st'.
  split; [reflexivity|]. eexists _, l. split_and!.
  - eapply saveUser_found_find; [exact Hfind|].
    rewrite lookup_insert_ne by done. by eapply find_id_Some.
  - apply lookup_insert_eq.
  - exact Hl.
  - intros key Hkey. by rewrite lookup_insert_ne.
Qed.

(** Alice, logged in, buys a report. *)
Lemma plain_purchase_frame_witness :
  let purchase : obj := {[ "type" := VStr (js "report") ]} in
  let st' := exec KST (AddPurchaseHistory alice_id purchase (t0 + 9)) alice_logged_in in
  let user := <["lastLogin" := VStr (toISOString (t0 + 5))]> alice_account in
  getCurrentUser st' = getCurrentUser alice_logged_in
  /\ exists (account : obj) l,
       find (fun u : obj => strict_eq (u !! "id") (Some (VStr alice_id))) (getUsers st')
       = Some account
       /\ account !! "purchaseHistory"
          = Some (VArr (VObj (record (js "purchase_") purchase (t0 + 9)) :: l))
       /\ history (user !! "purchaseHistory") = Return l
       /\ forall key, key <> "purchaseHistory" -> account !! key = user !! key.
Proof.
  intros purchase st' user.
  assert (E : addPurchaseHistory KST alice_id purchase (t0 + 9) alice_logged_in
              = Return (Success None (Purchase (record (js "purchase_") purchase (t0 + 9))),
                        st')) by by_evaluation.
  assert (Hfind : find (fun u : obj => strict_eq (u !! "id") (Some (VStr alice_id)))
                    (getUsers alice_logged_in) = Some user) by by_evaluation.
  exact (plain_purchase_frame KST alice_id purchase (t0 + 9) alice_logged_in st' _ _ _
           Hfind eq_refl E).
Defined.

(** X17. [isPremiumUser] does not come back by waiting: when it is true at
    some time, it is true at every earlier time, whatever the current
    user. *)
Theorem isPremiumUser_antitone (now now' : Z) (st : localStorage) :
  now <= now' -> isPremiumUser now' st = true -> isPremiumUser now st = true.
Proof.
  intros Hle. unfold isPremiumUser.
  destruct (getCurrentUser st) as [user|]; [|done].
  destruct (strict_eq _ _); [|done].
  destruct (negb (truthy _)); [done|].
  destruct (construct _) as [expiry|]; [|done].
  intros H%Z.ltb_lt. apply Z.ltb_lt. lia.
Qed.

Lemma isPremiumUser_antitone_witness :
  let purchase : obj := {[ "type" := VStr (js "premium_yearly") ]} in
  let st' := exec KST (AddPurchaseHistory alice_id purchase (t0 + 9)) alice_logged_in in
  isPremiumUser (t0 + 9) st' = true.
Proof.
  intros purchase st'.
  apply (isPremiumUser_antitone (t0 + 9) (t0 + 10) st'); [lia | by_evaluation].
Defined.

(** ** The consultations *)

(** X18. A successful [addConsultationHistory] puts the record in front of
    the history that was there (the empty one for a history that is
    missing or falsy) and changes no other field of the account; the
    record has the date of the call, and its fields other than [id] and
    [date] are those of the consultation that was given. *)
Theorem addConsultationHistory_prepends (userId : jsstring) (consultation : obj) (now : Z)
    (st st' : localStorage) (user : obj) (m : option message) (p : payload) :
  find (fun u : obj => strict_eq (u !! "id") (Some (VStr userId))) (getUsers st)
  = Some user ->
  addConsultationHistory userId consultation now st = Return (Success m p, st') ->
  let consultationRecord := record (js "consult_") consultation now in
  exists (account : obj) l,
    history (user !! "consultationHistory") = Return l
    /\ p = Consultation consultationRecord
    /\ find (fun u : obj => strict_eq (u !! "id") (Some (VStr userId))) (getUsers st')
       = Some account
    /\ account !! "consultationHistory" = Some (VArr (VObj consultationRecord :: l))
    /\ (forall key, key <> "consultationHistory" -> account !! key = user !! key)
    /\ consultationRecord !! "date" = Some (VStr (toISOString now))
    /\ (forall key, key <> "id" -> key <> "date" ->
                    consultationRecord !! key = consultation !! key).
Proof.
  intros Hfind E consultationRecord. revert E.
  unfold addConsultationHistory, mret, outcome_ret, mbind, outcome_bind.
  rewrite Hfind. destruct (history _) as [l|] eqn:Hl; [|discriminate].
  intros [= _ <- <-]. eexists _, l. split_and!.
  - reflexivity.
  - reflexivity.
  - eapply saveUser_found_find; [exact Hfind|].
    rewrite lookup_insert_ne by done. by eapply find_id_Some.
  - apply lookup_insert_eq.
  - intros key Hkey. by rewrite lookup_insert_ne.
  - apply record_date.
  - intros key H1 H2. by apply record_other.
Qed.

(** Alice asks her first question. *)
Lemma addConsultationHistory_prepends_witness :
  let consultationRecord := record (js "consult_") (question "a") t0 in
  let st' := exec KST (AddConsultationHistory alice_id (question "a") t0) alice_registered in
  addConsultationHistory alice_id (question "a") t0 alice_registered
  = Return (Success None (Consultation consultationRecord), st')
  /\ exists (account : obj) l,
       history (alice_account !! "consultationHistory") = Return l
       /\ find (fun u : obj => strict_eq (u !! "id") (Some (VStr alice_id))) (getUsers st')
          = Some account
       /\ account !! "consultationHistory" = Some (VArr (VObj consultationRecord :: l))
       /\ (forall key, key <> "consultationHistory" -> account !! key = alice_account !! key).
Proof.
  intros consultationRecord st'.
  assert (E : addConsultationHistory alice_id (question "a") t0 alice_registered
              = Return (Success None (Consultation consultationRecord), st'))
    by by_evaluation.
  split; [exact E|].
  destruct (addConsultationHistory_prepends alice_id (question "a") t0 alice_registered st'
              alice_account _ _ find_alice_by_id E)
    as (account & l & Hl & _ & Hfind & Hh & Hframe & _).
  exists account, l. split_and!; done.
Defined.

Lemma history_truthy v l :
  history v = Return l ->
  (truthy v = false /\ l = []) \/ v = Some (VArr l).
Proof.
  unfold history, mret, outcome_ret. destruct (truthy v) eqn:Ht; cbn [negb].
  - destruct v as [[]|]; try discriminate. intros [= <-]. by right.
  - intros [= <-]. by left.
Qed.

(** X19. A successful [addConsultationHistory] at the time [now] raises the
    count that [getTodayConsultationCount] gives at [now'] by one when
    [now] falls on the local day of [now'], and leaves it as it was
    otherwise. *)
Theorem consultation_count_after_add (LocalTZA : Z -> bool -> Z) (userId : jsstring)
    (consultation : obj) (now now' : Z) (st st' : localStorage) (n : nat)
    (m : option message) (p : payload) :
  valid_time now ->
  getTodayConsultationCount LocalTZA userId now' st = Return n ->
  addConsultationHistory userId consultation now st = Return (Success m p, st') ->
  getTodayConsultationCount LocalTZA userId now' st'
  = Return (if bool_decide (Day (LocalTime LocalTZA now) = Day (LocalTime LocalTZA now'))
            then S n else n).
Proof.
  intros Hv Hn. unfold addConsultationHistory, mret, outcome_ret, mbind, outcome_bind.
  destruct (find _ _) as [user|] eqn:Hfind; [|discriminate].
  destruct (history _) as [l|] eqn:Hl; [|discriminate].
  match goal with |- context [saveUser ?u st] => set (user' := u) end.
  intros [= _ _ <-].
  assert (Hid' : user' !! "id" = Some (VStr userId)).
  { unfold user'. rewrite lookup_insert_ne by done. by eapply find_id_Some. }
  assert (Hold : count_today LocalTZA (toDateString LocalTZA (Some now')) l = Return n).
  { unfold getTodayConsultationCount in Hn. rewrite Hfind in Hn.
    destruct (history_truthy _ _ Hl) as [[Ht ->] | Hh].
    - rewrite Ht in Hn. exact Hn.
    - rewrite Hh in Hn. exact Hn. }
  unfold getTodayConsultationCount.
  rewrite (saveUser_found_find _ _ _ _ Hfind Hid').
  assert (user' !! "consultationHistory"
          = Some (VArr (VObj (record (js "consult_") consultation now) :: l))) as ->
    by apply lookup_insert_eq.
  cbn [truthy negb count_today date_of].
  unfold mret, outcome_ret, mbind, outcome_bind.
  rewrite Hold, record_date, construct_toISOString by done.
  cbn [toDateString fmap option_fmap option_map].
  f_equal. repeat case_bool_decide; congruence.
Qed.

(** Alice's first question of the day. *)
Lemma consultation_count_after_add_witness :
  let st' := exec KST (AddConsultationHistory alice_id (question "a") t0) alice_registered in
  getTodayConsultationCount KST alice_id (t0 + 3600000) alice_registered = Return 0%nat
  /\ getTodayConsultationCount KST alice_id (t0 + 3600000) st'
     = Return (if bool_decide (Day (LocalTime KST t0) = Day (LocalTime KST (t0 + 3600000)))
               then 1%nat else 0%nat).
Proof.
  intros st'.
  assert (E0 : getTodayConsultationCount KST alice_id (t0 + 3600000) alice_registered
               = Return 0%nat) by by_evaluation.
  assert (E : addConsultationHistory alice_id (question "a") t0 alice_registered
              = Return (Success None (Consultation (record (js "consult_") (question "a") t0)),
                        st')) by by_evaluation.
  split; [exact E0|].
  refine (consultation_count_after_add KST alice_id (question "a") t0 (t0 + 3600000)
            alice_registered st' 0 _ _ _ E0 E).
  unfold valid_time, t0. lia.
Defined.

(** ** Histories that are not arrays *)





(** ** [saveSajuData] and ids that nobody has *)

(** X21. For an id that a stored account has, [saveSajuData] succeeds: the
    account found under the id then has the data and the time of the call,
    every other field as before, and a current user of this id is replaced
    by the account, sanitized, while any other current user stays. *)
Theorem saveSajuData_stored (userId : jsstring) (sajuData : value) (now : Z)
    (st : localStorage) (user : obj) :
  find (fun u : obj => strict_eq (u !! "id") (Some (VStr userId))) (getUsers st)
  = Some user ->
  exists st' (account : obj),
    saveSajuData userId sajuData now st = (Success None NoPayload, st')
    /\ find (fun u : obj => strict_eq (u !! "id") (Some (VStr userId))) (getUsers st')
       = Some account
    /\ account !! "sajuData" = Some sajuData
    /\ account !! "sajuCalculatedAt" = Some (VStr (toISOString now))
    /\ (forall key, key <> "sajuData" -> key <> "sajuCalculatedAt" ->
                    account !! key = user !! key)
    /\ getCurrentUser st'
       = match getCurrentUser st with
         | Some currentUser =>
             if strict_eq (currentUser !! "id") (Some (VStr userId))
             then Some (sanitizeUser account) else Some currentUser
         | None => None
         end.
Proof.
  intros Hfind.
  set (account := <["sajuCalculatedAt" := VStr (toISOString now)]>
                    (<["sajuData" := sajuData]> user)).
  exists (republished userId account st), account. split_and!.
  - unfold saveSajuData. by rewrite Hfind.
  - rewrite republished_users. eapply saveUser_found_find; [exact Hfind|].
    unfold account. rewrite !lookup_insert_ne by done. by eapply find_id_Some.
  - unfold account. rewrite lookup_insert_ne by done. apply lookup_insert_eq.
  - apply lookup_insert_eq.
  - intros key H1 H2. unfold account. by rewrite !lookup_insert_ne.
  - apply republished_current.
Qed.

(** The chart of Alice. *)
Lemma saveSajuData_stored_witness :
  let sajuData := VObj {[ "day" := VStr (js "gapja") ]} in
  exists st' (account : obj),
    saveSajuData alice_id sajuData (t0 + 9) alice_registered = (Success None NoPayload, st')
    /\ find (fun u : obj => strict_eq (u !! "id") (Some (VStr alice_id))) (getUsers st')
       = Some account
    /\ account !! "sajuData" = Some sajuData
    /\ account !! "sajuCalculatedAt" = Some (VStr (toISOString (t0 + 9)))
    /\ (forall key, key <> "sajuData" -> key <> "sajuCalculatedAt" ->
                    account !! key = alice_account !! key)
    /\ getCurrentUser st'
       = match getCurrentUser alice_registered with
         | Some currentUser =>
             if strict_eq (currentUser !! "id") (Some (VStr alice_id))
             then Some (sanitizeUser account) else Some currentUser
         | None => None
         end.
Proof.
  intros sajuData.
  exact (saveSajuData_stored alice_id sajuData (t0 + 9) alice_registered alice_account
           find_alice_by_id).
Defined.

(** X22. For an id that no stored account has, [updateUser],
    [saveSajuData], [addPurchaseHistory] and [addConsultationHistory]
    return the failure for a user that is not found and write nothing, and
    [getTodayConsultationCount] is 0. This is the only failure that
    [saveSajuData], [addPurchaseHistory] and [addConsultationHistory]
    return. *)
Theorem unknown_user (LocalTZA : Z -> bool -> Z) (userId : jsstring) (st : localStorage) :
  (find (fun u : obj => strict_eq (u !! "id") (Some (VStr userId))) (getUsers st) = None ->
   (forall updates, updateUser userId updates st = Return (Failure MsgUserNotFound, st))
   /\ (forall sajuData now,
          saveSajuData userId sajuData now st = (Failure MsgUserNotFound, st))
   /\ (forall purchase now,
          addPurchaseHistory LocalTZA userId purchase now st
          = Return (Failure MsgUserNotFound, st))
   /\ (forall consultation now,
          addConsultationHistory userId consultation now st
          = Return (Failure MsgUserNotFound, st))
   /\ (forall now, getTodayConsultationCount LocalTZA userId now st = Return 0%nat))
  /\ (forall m st',
         (exists sajuData now, saveSajuData userId sajuData now st = (Failure m, st'))
         \/ (exists purchase now,
                addPurchaseHistory LocalTZA userId purchase now st = Return (Failure m, st'))
         \/ (exists consultation now,
                addConsultationHistory userId consultation now st
                = Return (Failure m, st')) ->
         find (fun u : obj => strict_eq (u !! "id") (Some (VStr userId))) (getUsers st)
         = None
         /\ m = MsgUserNotFound /\ st' = st).
Proof.
  split.
  - intros H. split_and!; intros.
    + unfold updateUser. by rewrite H.
    + unfold saveSajuData. by rewrite H.
    + unfold addPurchaseHistory. by rewrite H.
    + unfold addConsultationHistory. by rewrite H.
    + unfold getTodayConsultationCount. by rewrite H.
  - intros m st' [(sajuData & now & E) | [(purchase & now & E) | (consultation & now & E)]];
      revert E.
    + unfold saveSajuData. destruct (find _ _); [discriminate|]. by intros [= <- <-].
    + unfold addPurchaseHistory, mret, outcome_ret, mbind, outcome_bind.
      destruct (find _ _); [|by intros [= <- <-]].
      destruct (history _); [|discriminate].
      destruct (_ || _); [|discriminate].
      by destruct (updateUser _ _ _) as [[]|].
    + unfold addConsultationHistory, mret, outcome_ret, mbind, outcome_bind.
      destruct (find _ _); [|by intros [= <- <-]].
      by destruct (history _).
Qed.

(** ** Ids and the clock *)

Lemma take_digits_snoc k : forall a s b c r,
  take_digits k a s = Some (b, c :: r) -> 48 <= c <= 57 ->
  take_digits (S k) a s = Some (b * 10 + (c - 48), r).
Proof.
  induction k as [| k IH]; intros a s b c r H Hc.
  - injection H as <- ->. cbn [take_digits].
    replace ((48 <=? c) && (c <=? 57)) with true; [done|].
    symmetry. apply andb_true_intro. split; apply Z.leb_le; lia.
  - cbn [take_digits] in H. destruct s as [| d s']; [discriminate|].
    change (take_digits (S (S k)) a (d :: s'))
      with (if (48 <=? d) && (d <=? 57) then take_digits (S k) (a * 10 + (d - 48)) s'
            else None).
    destruct ((48 <=? d) && (d <=? 57)); [|discriminate]. by apply IH.
Qed.

(** The digits that [digits] writes in front of [acc] read back as the
    number. *)
Lemma digits_spec fuel : forall n acc,
  0 <= n < 2 ^ Z.of_nat (S fuel) ->
  exists ds,
    digits (S fuel) n acc = ds ++ acc
    /\ ds <> []
    /\ Forall (fun c => 48 <= c <= 57) ds
    /\ forall a rest,
         take_digits (length ds) a (ds ++ rest) = Some (a * 10 ^ Z.of_nat (length ds) + n, rest).
Proof.
  induction fuel as [| fuel IH]; intros n acc Hn.
  - exists [48 + n mod 10]. change (2 ^ Z.of_nat 1) with 2 in Hn.
    assert (n mod 10 = n) as En by (Z.div_mod_to_equations; lia).
    cbn [digits]. destruct (Z.ltb_spec n 10); [|lia].
    split_and!; [done | done | constructor; [lia | constructor] |].
    intros a rest. cbn [length app take_digits].
    replace ((48 <=? 48 + n mod 10) && (48 + n mod 10 <=? 57)) with true
      by (symmetry; apply andb_true_intro; split; apply Z.leb_le; lia).
    do 2 f_equal. change (10 ^ Z.of_nat 1) with 10. lia.
  - change (digits (S (S fuel)) n acc)
      with (if n <? 10 then 48 + n mod 10 :: acc
            else digits (S fuel) (n / 10) (48 + n mod 10 :: acc)).
    pose proof (Z.mod_pos_bound n 10 eq_refl) as Hr.
    destruct (Z.ltb_spec n 10).
    + exists [48 + n mod 10].
      assert (n mod 10 = n) as En by (Z.div_mod_to_equations; lia).
      split_and!; [done | done | constructor; [lia | constructor] |].
      intros a rest. cbn [length app take_digits].
      replace ((48 <=? 48 + n mod 10) && (48 + n mod 10 <=? 57)) with true
        by (symmetry; apply andb_true_intro; split; apply Z.leb_le; lia).
      do 2 f_equal. change (10 ^ Z.of_nat 1) with 10. lia.
    + destruct (IH (n / 10) (48 + n mod 10 :: acc)) as (ds & E & Hne & Hd & Htake).
      { rewrite Nat2Z.inj_succ, Z.pow_succ_r in Hn by lia.
        Z.div_mod_to_equations. lia. }
      exists (ds ++ [48 + n mod 10]). split_and!.
      * rewrite E, <- app_assoc. reflexivity.
      * by destruct ds.
      * apply Forall_app. split; [done | constructor; [lia | constructor]].
      * intros a rest. rewrite length_app, Nat.add_1_r, <- app_assoc.
        erewrite take_digits_snoc; [| apply Htake | lia].
        do 2 f_equal. rewrite Nat2Z.inj_succ, Z.pow_succ_r by lia.
        Z.div_mod_to_equations. lia.
Qed.

Lemma decimal_spec z :
  exists ds,
    decimal z = (if z <? 0 then [45] else []) ++ ds
    /\ ds <> []
    /\ Forall (fun c => 48 <= c <= 57) ds
    /\ take_digits (length ds) 0 ds = Some (Z.abs z, []).
Proof.
  unfold decimal.
  destruct (digits_spec (Z.to_nat (Z.log2 (Z.abs z))) (Z.abs z) [])
    as (ds & E & Hne & Hd & Htake).
  { rewrite Nat2Z.inj_succ, Z2Nat.id by apply Z.log2_nonneg.
    destruct (Z.eq_dec (Z.abs z) 0) as [-> | Hz]; [done|].
    pose proof (Z.log2_spec (Z.abs z)). lia. }
  exists ds. rewrite E, app_nil_r. split_and!; try done.
  - by destruct (z <? 0).
  - specialize (Htake 0 []). rewrite app_nil_r in Htake. rewrite Htake.
    do 2 f_equal.
Qed.

(** Two numbers with the same numeral are the same number. *)
Lemma decimal_inj a b : decimal a = decimal b -> a = b.
Proof.
  destruct (decimal_spec a) as (da & Ea & Hna & Hda & Hta).
  destruct (decimal_spec b) as (db & Eb & Hnb & Hdb & Htb).
  rewrite Ea, Eb. intros E.
  assert (Hhead : forall ds, ds <> [] -> Forall (fun c => 48 <= c <= 57) ds ->
            exists c r, ds = c :: r /\ c <> 45).
  { intros [| c r] Hne Hd; [done|]. apply Forall_cons in Hd as [Hc _].
    exists c, r. split; [done | lia]. }
  destruct (Hhead da Hna Hda) as (ca & ra & -> & Hca).
  destruct (Hhead db Hnb Hdb) as (cb & rb & -> & Hcb).
  destruct (Z.ltb_spec a 0), (Z.ltb_spec b 0); cbn [app] in E.
  - injection E as E1 E2. rewrite E1, E2, Htb in Hta. injection Hta. lia.
  - injection E as E1 _. congruence.
  - injection E as E1 _. congruence.
  - rewrite E, Htb in Hta. injection Hta. lia.
Qed.

Lemma decimal_chars z : Forall (fun c => c = 45 \/ 48 <= c <= 57) (decimal z).
Proof.
  destruct (decimal_spec z) as (ds & -> & _ & Hd & _).
  apply Forall_app. split.
  - destruct (z <? 0); repeat constructor.
  - eapply Forall_impl; [exact Hd|]. intros c Hc. by right.
Qed.

(** Two lists that agree, each cut at its first [x], agree on both
    sides of the cut. *)
Lemma app_first_inj {A} (x : A) l1 : forall l2 r1 r2,
  x ∉ l1 -> x ∉ l2 -> l1 ++ x :: r1 = l2 ++ x :: r2 -> l1 = l2 /\ r1 = r2.
Proof.
  induction l1 as [| a l1 IH]; intros [| b l2] r1 r2 H1 H2 E; cbn [app] in E.
  - by injection E.
  - injection E as <- _. destruct H2. by left.
  - injection E as -> _. destruct H1. by left.
  - injection E as -> E. apply not_elem_of_cons in H1 as [_ H1].
    apply not_elem_of_cons in H2 as [_ H2].
    destruct (IH _ _ _ H1 H2 E) as [-> ->]. done.
Qed.

(** X23. [generateUserId] gives the same id twice only for the same
    reading of the clock and the same random digits. *)
Theorem generateUserId_inj (now now' : Z) (rnd rnd' : jsstring) :
  valid_time now -> valid_time now' ->
  generateUserId now rnd = generateUserId now' rnd' <-> now = now' /\ rnd = rnd'.
Proof.
  intros _ _. split; [|by intros [-> ->]].
  unfold generateUserId. intros E%app_inv_head.
  change (js "_" ++ rnd) with (95 :: rnd) in E.
  change (js "_" ++ rnd') with (95 :: rnd') in E.
  apply app_first_inj in E as [E ->].
  - split; [by apply decimal_inj | done].
  - intros H. pose proof (decimal_chars now) as Hc. rewrite Forall_forall in Hc.
    specialize (Hc 95 H). lia.
  - intros H. pose proof (decimal_chars now') as Hc. rewrite Forall_forall in Hc.
    specialize (Hc 95 H). lia.
Qed.

(** One millisecond apart, with the same random digits. *)
Lemma generateUserId_inj_witness :
  generateUserId t0 (js "k3j9x0q1z") = generateUserId (t0 + 1) (js "k3j9x0q1z")
  <-> t0 = t0 + 1 /\ js "k3j9x0q1z" = js "k3j9x0q1z".
Proof.
  apply generateUserId_inj; unfold valid_time, t0; lia.
Defined.

(** X24. The id that the ledger gives a record is the reading of the
    clock: two records of inputs that bring no [id] have the same id
    exactly when they are written in the same millisecond. *)
Theorem record_id_is_the_time (prefix : jsstring) (input input' : obj) (now now' : Z) :
  valid_time now -> valid_time now' ->
  input !! "id" = None -> input' !! "id" = None ->
  record prefix input now !! "id" = record prefix input' now' !! "id" <-> now = now'.
Proof.
  intros _ _ H H'. rewrite !record_id_absent by done. split; [|by intros ->].
  intros [= E%app_inv_head]. by apply decimal_inj.
Qed.

Lemma record_id_is_the_time_witness :
  record (js "consult_") (question "a") t0 !! "id"
  = record (js "consult_") (question "b") (t0 + 1) !! "id"
  <-> t0 = t0 + 1.
Proof.
  apply record_id_is_the_time; try reflexivity; unfold valid_time, t0; lia.
Defined.

(** ** The session *)

(** X25. A successful [login] leaves the user it returns as the current
    user, without a password, and [isLoggedIn] true. [logout] always
    succeeds: afterwards nobody is logged in, [isPremiumUser] is false,
    the stored accounts are as before, and a second [logout] changes
    nothing. *)
Theorem session_lifecycle :
  (forall email password now st m p st',
      login email password now st = Return (Success m p, st') ->
      isLoggedIn st' = true
      /\ exists u, p = User u /\ getCurrentUser st' = Some u /\ u !! "password" = None)
  /\ (forall st,
         fst (logout st) = Success (Some MsgLoggedOut) NoPayload
         /\ isLoggedIn (snd (logout st)) = false
         /\ getCurrentUser (snd (logout st)) = None
         /\ (forall now, isPremiumUser now (snd (logout st)) = false)
         /\ getUsers (snd (logout st)) = getUsers st
         /\ snd (logout (snd (logout st))) = snd (logout st)).
Proof.
  split.
  - intros email password now st m p st' (user & _ & _ & -> & ->)%login_success.
    split; [done|]. eexists. split_and!; [done | done | apply sanitizeUser_password].
  - intros st. split_and!; done.
Qed.

(** X26. A successful [updateUser] replaces a current user of the id by the
    user it returns, and leaves any other current user; [register],
    [resetPassword] and [addConsultationHistory] never touch the current
    user, so that the current user does not see a new consultation. *)
Theorem session_follows_updates :
  (forall userId updates st m p st',
      updateUser userId updates st = Return (Success m p, st') ->
      exists u,
        p = User u
        /\ getCurrentUser st'
           = match getCurrentUser st with
             | Some currentUser =>
                 if strict_eq (currentUser !! "id") (Some (VStr userId))
                 then Some u else Some currentUser
             | None => None
             end)
  /\ (forall userData now rnd st r st',
         register userData now rnd st = Return (r, st') ->
         getCurrentUser st' = getCurrentUser st)
  /\ (forall email rnd st r st',
         resetPassword email rnd st = Return (r, st') ->
         getCurrentUser st' = getCurrentUser st)
  /\ (forall userId consultation now st r st',
         addConsultationHistory userId consultation now st = Return (r, st') ->
         getCurrentUser st' = getCurrentUser st).
Proof.
  split_and!.
  - intros userId updates st m p st'. unfold updateUser, mret, outcome_ret, mbind, outcome_bind.
    destruct (find _ _) as [user|]; [|discriminate].
    destruct (hashed_updates updates) as [updates'|]; [|discriminate].
    match goal with |- context [if ?b then _ else _] => destruct b end; [discriminate|].
    intros [= _ <- <-]. eexists. split; [reflexivity|].
    match goal with |- context [sanitizeUser ?u] => set (user' := u) end.
    change (getCurrentUser (republished userId user' st)
            = match getCurrentUser st with
              | Some currentUser =>
                  if strict_eq (currentUser !! "id") (Some (VStr userId))
                  then Some (sanitizeUser user') else Some currentUser
              | None => None
              end).
    apply republished_current.
  - intros userData now rnd st [m | m p] st' E.
    + by apply register_failure in E as ->.
    + by apply register_success in E as (? & ? & _ & _ & _ & _ & _ & ->).
  - intros email rnd st [m | m p] st' E.
    + by apply resetPassword_failure in E as ->.
    + by apply resetPassword_success in E as (? & ? & _ & _ & _ & _ & ->).
  - intros userId consultation now st [m | m p] st' E.
    + by apply addConsultationHistory_failure in E as ->.
    + revert E. unfold addConsultationHistory, mret, outcome_ret, mbind, outcome_bind.
      destruct (find _ _); [|discriminate]. destruct (history _); [|discriminate].
      by intros [= _ _ <-].
Qed.

(** ** The demo account *)

(** X27. With no stored user, [initializeUsers] stores the demo account,
    and nothing else, logs nobody in, and leaves a store in which [login]
    with the demo email succeeds with [demo1234] and with no other string
    and in which a second [initializeUsers] does nothing. With a stored
    user it does nothing. *)
Theorem initializeUsers_demo (now : Z) (rnd : jsstring) (st : localStorage) :
  (getUsers st = [] ->
   exists st' (demoUser : obj),
     initializeUsers now rnd st = Return st'
     /\ getUsers st' = [demoUser]
     /\ demoUser !! "email" = Some (VStr (js "demo@saju2026.com"))
     /\ demoUser !! "id" = Some (VStr (generateUserId now rnd))
     /\ getCurrentUser st' = getCurrentUser st
     /\ (forall q now',
            code_units q ->
            (exists p st'',
                login (js "demo@saju2026.com") q now' st'
                = Return (Success (Some MsgLoggedIn) p, st''))
            <-> q = js "demo1234")
     /\ (forall now' rnd', initializeUsers now' rnd' st' = Return st'))
  /\ (getUsers st <> [] -> initializeUsers now rnd st = Return st).
Proof.
  split.
  - intros Hus. unfold initializeUsers. rewrite Hus.
    rewrite (hashPassword_Latin1 (js "demo1234")) by apply Latin1_js.
    unfold mret, outcome_ret, mbind, outcome_bind.
    match goal with |- context [saveUser ?u st] => set (demoUser := u) end.
    assert (Hsave : getUsers (saveUser demoUser st) = [demoUser]).
    { unfold saveUser. rewrite Hus. reflexivity. }
    exists (saveUser demoUser st), demoUser.
    split_and!; try reflexivity; try done.
    + intros q now' Hq.
      eapply (login_iff _ (js "demo1234") q now' _ demoUser
                (Base64.encode (js "demo1234" ++ js "saju2026_salt")));
        [done | done | apply code_units_js | exact Hq | | | reflexivity].
      * rewrite Hsave. apply find_Some. exists 0%nat.
        split_and!; [done | reflexivity | intros j y _ Hj; lia].
      * apply hashPassword_Latin1, Latin1_js.
    + intros now' rnd'. rewrite Hsave. reflexivity.
  - intros Hne. unfold initializeUsers. by destruct (getUsers st).
Qed.
